(** * Feed import engine: parser, mapping, fingerprint, category resolver, run

    A shallow embedding of the [importer] package (FeedParser and
    ImportEngine) and of the [StartImport] handler, with the properties of
    the feed-import specification stated over it.

    Go strings are byte strings ([string], one [ascii] per byte); Go [int]
    is a 64-bit two's complement integer, modelled as [Z] with the
    wrap-around written out; [float64] is [spec_float] at precision 53. *)

From Stdlib Require Import ZArith List String Ascii Bool Lia.
From Stdlib Require Import Floats.SpecFloat.
From stdpp Require Import base option gmap strings list.

Local Open Scope Z_scope.
Local Open Scope string_scope.

(** ** Go's [strings] package, on byte strings *)

Module GoStrings.

Definition byte_of (n : nat) : ascii := ascii_of_nat n.
Definition code (c : ascii) : nat := nat_of_ascii c.

Fixpoint HasPrefix (s p : string) : bool :=
  match p, s with
  | EmptyString, _ => true
  | String a p', String b s' => if Ascii.eqb a b then HasPrefix s' p' else false
  | String _ _, EmptyString => false
  end.

Fixpoint rev_acc (s acc : string) : string :=
  match s with
  | EmptyString => acc
  | String c s' => rev_acc s' (String c acc)
  end.

Definition rev (s : string) : string := rev_acc s EmptyString.

Definition HasSuffix (s p : string) : bool := HasPrefix (rev s) (rev p).

Fixpoint drop (n : nat) (s : string) : string :=
  match n, s with
  | O, _ => s
  | S k, String _ s' => drop k s'
  | S _, EmptyString => EmptyString
  end.

Fixpoint take (n : nat) (s : string) : string :=
  match n, s with
  | O, _ => EmptyString
  | S k, String c s' => String c (take k s')
  | S _, EmptyString => EmptyString
  end.

(** [strings.Index]: the byte offset of the first occurrence, if any. *)
Fixpoint Index (s sep : string) : option nat :=
  if HasPrefix s sep then Some O
  else match s with
       | EmptyString => None
       | String _ s' => option_map S (Index s' sep)
       end.

Definition Contains (s sub : string) : bool :=
  match Index s sub with Some _ => true | None => false end.

(** [strings.LastIndex]: the byte offset of the last occurrence, if any. *)
Fixpoint LastIndex (s sep : string) : option nat :=
  match s with
  | EmptyString => if HasPrefix s sep then Some O else None
  | String _ s' =>
      match LastIndex s' sep with
      | Some i => Some (S i)
      | None => if HasPrefix s sep then Some O else None
      end
  end.

(** [strings.Split s sep] for a non-empty [sep]: the pieces between the
    non-overlapping occurrences of [sep], found left to right.  [skip]
    counts the bytes of a matched separator still to be passed over and
    [cur] holds the piece being read, reversed. *)
Fixpoint split_from (sep s : string) (skip : nat) (cur : string) : list string :=
  match skip with
  | S k =>
      match s with
      | String _ s' => split_from sep s' k cur
      | EmptyString => [rev cur]
      end
  | O =>
      match s with
      | EmptyString => [rev cur]
      | String c s' =>
          if HasPrefix s sep
          then rev cur :: split_from sep s' (String.length sep - 1) EmptyString
          else split_from sep s' O (String c cur)
      end
  end.

Definition Split (s sep : string) : list string := split_from sep s O EmptyString.

(** [strings.ReplaceAll s old new] for a non-empty [old]. *)
Fixpoint replace_from (old new s : string) (skip : nat) : string :=
  match skip with
  | S k =>
      match s with
      | String _ s' => replace_from old new s' k
      | EmptyString => EmptyString
      end
  | O =>
      match s with
      | EmptyString => EmptyString
      | String c s' =>
          if HasPrefix s old
          then new +:+ replace_from old new s' (String.length old - 1)
          else String c (replace_from old new s' O)
      end
  end.

Definition ReplaceAll (s old new : string) : string := replace_from old new s O.

(** ASCII white space, as [unicode.IsSpace] has it below 0x80: tab, line
    feed, vertical tab, form feed, carriage return and space.  The
    multi-byte spaces (U+0085, U+00A0, ...) are left alone here. *)
Definition is_space (c : ascii) : bool :=
  let n := code c in
  ((9 <=? n)%nat && (n <=? 13)%nat) || (n =? 32)%nat.

Fixpoint TrimLeft (f : ascii -> bool) (s : string) : string :=
  match s with
  | String c s' => if f c then TrimLeft f s' else s
  | EmptyString => s
  end.

Definition TrimRight (f : ascii -> bool) (s : string) : string :=
  rev (TrimLeft f (rev s)).

Definition TrimFunc (f : ascii -> bool) (s : string) : string :=
  TrimRight f (TrimLeft f s).

Definition TrimSpace (s : string) : string := TrimFunc is_space s.

(** [strings.Trim s cutset] for a one-byte cutset. *)
Definition Trim (s : string) (cut : ascii) : string := TrimFunc (Ascii.eqb cut) s.

Definition is_upper (c : ascii) : bool := ((65 <=? code c)%nat && (code c <=? 90)%nat).
Definition is_lower (c : ascii) : bool := ((97 <=? code c)%nat && (code c <=? 122)%nat).
Definition is_digit (c : ascii) : bool := ((48 <=? code c)%nat && (code c <=? 57)%nat).

Fixpoint map_bytes (f : ascii -> ascii) (s : string) : string :=
  match s with
  | EmptyString => EmptyString
  | String c s' => String (f c) (map_bytes f s')
  end.

Fixpoint filter_bytes (f : ascii -> bool) (s : string) : string :=
  match s with
  | EmptyString => EmptyString
  | String c s' => if f c then String c (filter_bytes f s') else filter_bytes f s'
  end.

(** [strings.ToLower] and [strings.ToUpper] on the ASCII letters; bytes of
    multi-byte runes are kept as they are. *)
Definition ToLower (s : string) : string :=
  map_bytes (fun c => if is_upper c then byte_of (code c + 32) else c) s.

Definition ToUpper (s : string) : string :=
  map_bytes (fun c => if is_lower c then byte_of (code c - 32) else c) s.

(** [strings.EqualFold] on ASCII. *)
Definition EqualFold (a b : string) : bool := String.eqb (ToLower a) (ToLower b).

End GoStrings.

(** ** Numbers: Go's [int], [float64], and their text forms *)

Module GoNum.

Local Open Scope Z_scope.

(** 64-bit two's complement wrap-around of [int] arithmetic. *)
Definition wrap64 (z : Z) : Z := (z + 2^63) mod 2^64 - 2^63.

Definition add64 (a b : Z) : Z := wrap64 (a + b).

(** [x++] on an [int]. *)
Definition incr (x : Z) : Z := add64 x 1.

Definition MaxInt64 : Z := 2^63 - 1.
Definition MinInt64 : Z := - 2^63.

(** Decimal digits of a natural number, most significant first; [fuel]
    bounds the number of digits. *)
Fixpoint digits_of (fuel : nat) (n : Z) (acc : string) : string :=
  match fuel with
  | O => acc
  | S k =>
      let d := GoStrings.byte_of (Z.to_nat (48 + n mod 10)) in
      if n <? 10 then String d acc else digits_of k (n / 10) (String d acc)
  end.

Definition utoa (n : Z) : string := digits_of (S (Z.to_nat (Z.log2 n))) n EmptyString.

(** [%d]. *)
Definition itoa (z : Z) : string :=
  if z <? 0 then "-" +:+ utoa (- z) else utoa z.

(** The value of a string of decimal digits, [None] if another byte occurs. *)
Fixpoint digits_val (s : string) (acc : Z) : option Z :=
  match s with
  | EmptyString => Some acc
  | String c s' =>
      if GoStrings.is_digit c
      then digits_val s' (10 * acc + (Z.of_nat (GoStrings.code c) - 48))
      else None
  end.

(** [strconv.Atoi] with the error dropped, as [mapItem] calls it: zero on
    a syntax error, the nearest bound on a range error. *)
Definition Atoi (s : string) : Z :=
  let '(neg, ds) :=
    match s with
    | String "-" r => (true, r)
    | String "+" r => (false, r)
    | _ => (false, s)
    end in
  match ds with
  | EmptyString => 0
  | _ =>
      match digits_val ds 0 with
      | None => 0
      | Some n =>
          if neg then Z.max MinInt64 (- n) else Z.min MaxInt64 n
      end
  end.

(** *** float64 *)

Definition float64 := spec_float.

Definition prec64 : Z := 53.
Definition emax64 : Z := 1024.

(** The double nearest to [num / den] (ties to even), for [num >= 0] and
    [den > 0]: the quotient is taken with more than 55 bits and the rest is
    folded into a sticky bit before the final rounding. *)
Definition float64_of_ratio (num den : Z) : float64 :=
  if num =? 0 then S754_zero false
  else
    let s := Z.max 0 (60 + Z.log2 den - Z.log2 num) in
    let q := (num * 2 ^ s) / den in
    let r := (num * 2 ^ s) mod den in
    let m := 2 * q + (if r =? 0 then 0 else 1) in
    binary_normalize prec64 emax64 m (- s - 1) false.

(** [strconv.ParseFloat(s, 64)] with the error dropped, on the strings that
    [parsePrice] passes to it (decimal digits and periods only): digits
    with at most one period and at least one digit give the nearest
    double (+Inf beyond the range); anything else is a syntax error and
    gives zero. *)
Definition ParseFloat (s : string) : float64 :=
  let '(ip, fp) :=
    match GoStrings.Index s "." with
    | Some i => (GoStrings.take i s, GoStrings.drop (S i) s)
    | None => (s, EmptyString)
    end in
  match (String.length ip + String.length fp)%nat with
  | O => S754_zero false
  | _ =>
      match digits_val (ip +:+ fp) 0 with
      | None => S754_zero false
      | Some n => float64_of_ratio n (10 ^ Z.of_nat (String.length fp))
      end
  end.

(** [f == 0] on float64. *)
Definition is_zero (f : float64) : bool :=
  match f with S754_zero _ => true | _ => false end.

(** [num * 2^e] rounded to the nearest integer, ties to even. *)
Definition round_half_even (num e : Z) : Z :=
  if 0 <=? e then num * 2 ^ e
  else
    let d := 2 ^ (- e) in
    let q := num / d in
    let r := num mod d in
    if 2 * r <? d then q
    else if d <? 2 * r then q + 1
    else if Z.even q then q else q + 1.

Definition two_digits (n : Z) : string :=
  if n <? 10 then "0" +:+ utoa n else utoa n.

(** [%.2f]: the exact value rounded to two decimals, ties to even. *)
Definition fmt_f2 (f : float64) : string :=
  match f with
  | S754_nan => "NaN"
  | S754_infinity s => if s then "-Inf" else "+Inf"
  | S754_zero s => (if s then "-" else "") +:+ "0.00"
  | S754_finite s m e =>
      let n := round_half_even (Zpos m * 100) e in
      (if s then "-" else "") +:+ utoa (n / 100) +:+ "." +:+ two_digits (n mod 100)
  end.

End GoNum.

(** ** [crypto/md5] and [encoding/hex] *)

Module MD5.

Local Open Scope Z_scope.

Definition w32 (z : Z) : Z := z mod 2^32.

Definition rotl (x c : Z) : Z :=
  w32 (Z.lor (Z.shiftl x c) (Z.shiftr x (32 - c))).

(** The additive constants, floor (2^32 * |sin (i + 1)|). *)
Definition K : list Z :=
  [
    0xd76aa478; 0xe8c7b756; 0x242070db; 0xc1bdceee;
    0xf57c0faf; 0x4787c62a; 0xa8304613; 0xfd469501;
    0x698098d8; 0x8b44f7af; 0xffff5bb1; 0x895cd7be;
    0x6b901122; 0xfd987193; 0xa679438e; 0x49b40821;
    0xf61e2562; 0xc040b340; 0x265e5a51; 0xe9b6c7aa;
    0xd62f105d; 0x02441453; 0xd8a1e681; 0xe7d3fbc8;
    0x21e1cde6; 0xc33707d6; 0xf4d50d87; 0x455a14ed;
    0xa9e3e905; 0xfcefa3f8; 0x676f02d9; 0x8d2a4c8a;
    0xfffa3942; 0x8771f681; 0x6d9d6122; 0xfde5380c;
    0xa4beea44; 0x4bdecfa9; 0xf6bb4b60; 0xbebfbc70;
    0x289b7ec6; 0xeaa127fa; 0xd4ef3085; 0x04881d05;
    0xd9d4d039; 0xe6db99e5; 0x1fa27cf8; 0xc4ac5665;
    0xf4292244; 0x432aff97; 0xab9423a7; 0xfc93a039;
    0x655b59c3; 0x8f0ccc92; 0xffeff47d; 0x85845dd1;
    0x6fa87e4f; 0xfe2ce6e0; 0xa3014314; 0x4e0811a1;
    0xf7537e82; 0xbd3af235; 0x2ad7d2bb; 0xeb86d391
  ].

(** The per-round shift amounts. *)
Definition R : list Z :=
  [ 7; 12; 17; 22; 7; 12; 17; 22; 7; 12; 17; 22; 7; 12; 17; 22;
    5; 9; 14; 20; 5; 9; 14; 20; 5; 9; 14; 20; 5; 9; 14; 20;
    4; 11; 16; 23; 4; 11; 16; 23; 4; 11; 16; 23; 4; 11; 16; 23;
    6; 10; 15; 21; 6; 10; 15; 21; 6; 10; 15; 21; 6; 10; 15; 21 ].

Definition bytes_of (s : string) : list Z :=
  List.map (fun c => Z.of_nat (nat_of_ascii c)) (list_ascii_of_string s).

(** The [n] low bytes of [z], least significant first. *)
Fixpoint le_bytes (n : nat) (z : Z) : list Z :=
  match n with
  | O => []
  | S k => z mod 256 :: le_bytes k (z / 256)
  end.

(** Padding: a 1 bit, zeros up to 56 modulo 64 bytes, then the bit length
    as a 64-bit little-endian number. *)
Definition pad (msg : list Z) : list Z :=
  let len := Z.of_nat (List.length msg) in
  msg ++ [128] ++ List.repeat 0 (Z.to_nat ((55 - len) mod 64))
      ++ le_bytes 8 ((8 * len) mod 2^64).

(** Little-endian 32-bit words of a byte sequence. *)
Fixpoint words (bs : list Z) : list Z :=
  match bs with
  | b0 :: b1 :: b2 :: b3 :: rest =>
      (b0 + 256 * b1 + 65536 * b2 + 16777216 * b3) :: words rest
  | _ => []
  end.

Definition nthZ (l : list Z) (i : nat) : Z := List.nth i l 0.

Definition round (M : list Z) (st : Z * Z * Z * Z) (i : nat) : Z * Z * Z * Z :=
  let '(a, b, c, d) := st in
  let '(f, g) :=
    if (i <? 16)%nat then
      (Z.lor (Z.land b c) (Z.land (w32 (Z.lnot b)) d), i)
    else if (i <? 32)%nat then
      (Z.lor (Z.land d b) (Z.land (w32 (Z.lnot d)) c), ((5 * i + 1) mod 16)%nat)
    else if (i <? 48)%nat then
      (Z.lxor (Z.lxor b c) d, ((3 * i + 5) mod 16)%nat)
    else
      (Z.lxor c (Z.lor b (w32 (Z.lnot d))), ((7 * i) mod 16)%nat) in
  let f' := w32 (f + a + nthZ K i + nthZ M g) in
  (d, w32 (b + rotl f' (nthZ R i)), b, c).

Definition block (st : Z * Z * Z * Z) (M : list Z) : Z * Z * Z * Z :=
  let '(a0, b0, c0, d0) := st in
  let '(a, b, c, d) := List.fold_left (round M) (List.seq 0 64) st in
  (w32 (a0 + a), w32 (b0 + b), w32 (c0 + c), w32 (d0 + d)).

Fixpoint blocks (n : nat) (ws : list Z) (st : Z * Z * Z * Z) : Z * Z * Z * Z :=
  match n with
  | O => st
  | S k => blocks k (List.skipn 16 ws) (block st (List.firstn 16 ws))
  end.

(** [md5.Sum]: the 16 digest bytes. *)
Definition Sum (s : string) : list Z :=
  let ws := words (pad (bytes_of s)) in
  let '(a, b, c, d) :=
    blocks (List.length ws / 16) ws (0x67452301, 0xefcdab89, 0x98badcfe, 0x10325476) in
  le_bytes 4 a ++ le_bytes 4 b ++ le_bytes 4 c ++ le_bytes 4 d.

Definition hex_digit (n : Z) : ascii :=
  GoStrings.byte_of (Z.to_nat (if n <? 10 then 48 + n else 87 + n)).

(** [hex.EncodeToString]. *)
Fixpoint EncodeToString (bs : list Z) : string :=
  match bs with
  | [] => EmptyString
  | b :: rest => String (hex_digit (b / 16)) (String (hex_digit (b mod 16)) (EncodeToString rest))
  end.

End MD5.

(** ** Data model ([models] package and the tables the engine writes)

    Wall-clock fields (start and finish times, elapsed seconds, ETA, speed,
    log timestamps) are left out of the records, the duration of a finished
    run apart: no property below reads them. *)

Definition float64 := GoNum.float64.

(** A Go [error] value: [None] is [nil], [Some msg] an error whose
    [Error()] text is [msg]. *)
Definition error := option string.

(** What [json.Unmarshal] stores in an [interface{}]; the values of an XML
    or CSV record are all [JString]. *)
#[local] Unset Elimination Schemes.
Inductive JSON :=
| JNull
| JBool (b : bool)
| JNumber (f : float64)
| JString (s : string)
| JArray (l : list JSON)
| JObject (fields : list (string * JSON)).
#[local] Set Elimination Schemes.

(** [map[string]interface{}]: one parsed source record. *)
Abbreviation RawItem := (gmap string JSON).

(** [type FeedType string] and friends, with their declared constants. *)
Definition FeedTypeXML := "xml".
Definition FeedTypeCSV := "csv".
Definition FeedTypeJSON := "json".

Definition ImportModeCreateUpdate := "create_update".
Definition ImportModeCreateOnly := "create_only".
Definition ImportModeUpdateOnly := "update_only".

Definition MatchByEAN := "ean".
Definition MatchBySKU := "sku".
Definition MatchByTitle := "title".
Definition MatchByExternalID := "external_id".

Definition ImportStatusIdle := "idle".
Definition ImportStatusRunning := "running".
Definition ImportStatusCompleted := "completed".
Definition ImportStatusFailed := "failed".
Definition ImportStatusCancelled := "cancelled".

Record FieldMapping := {
  fm_SourceField : string;
  fm_TargetField : string;
  fm_TransformType : string;
  fm_TransformValue : string;
  fm_DefaultValue : string;
  fm_IsRequired : bool
}.

(** [models.Feed], without its settings map and its timestamps. *)
Record Feed := {
  f_ID : string;
  f_Name : string;
  f_Description : string;
  f_FeedURL : string;
  f_FeedType : string;
  f_XMLItemPath : string;
  f_CSVDelimiter : string;
  f_CSVHasHeader : bool;
  f_ImportMode : string;
  f_MatchBy : string;
  f_DefaultCategory : option string;
  f_ImportImages : bool;
  f_CreateAttributes : bool;
  f_ScheduleEnabled : bool;
  f_ScheduleCron : string;
  f_Active : bool;
  f_Status : string;
  f_LastError : option string;
  f_TotalProducts : Z;
  f_FieldMappings : list FieldMapping
}.

Record FeedItem := {
  Title : string;
  Description : string;
  ShortDescription : string;
  Price : float64;
  RegularPrice : float64;
  SalePrice : float64;
  EAN : string;
  SKU : string;
  MPN : string;
  ExternalID : string;
  ImageURL : string;
  GalleryImages : list string;
  CategoryPath : string;
  Brand : string;
  Manufacturer : string;
  StockStatus : string;
  StockQuantity : Z;
  Attributes : gmap string string;
  AffiliateURL : string;
  ButtonText : string;
  DeliveryTime : string
}.

(** [&models.FeedItem{}]. *)
Definition FeedItem_zero : FeedItem :=
  {| Title := ""; Description := ""; ShortDescription := "";
     Price := S754_zero false; RegularPrice := S754_zero false; SalePrice := S754_zero false;
     EAN := ""; SKU := ""; MPN := ""; ExternalID := ""; ImageURL := "";
     GalleryImages := []; CategoryPath := ""; Brand := ""; Manufacturer := "";
     StockStatus := ""; StockQuantity := 0; Attributes := ∅;
     AffiliateURL := ""; ButtonText := ""; DeliveryTime := "" |}.

Record LogEntry := { Level : string; Message : string }.

Record ImportProgress := {
  ip_FeedID : string;
  ip_HistoryID : string;
  ip_Status : string;
  ip_Percent : Z;
  ip_Total : Z;
  ip_Processed : Z;
  ip_Created : Z;
  ip_Updated : Z;
  ip_Skipped : Z;
  ip_Errors : Z;
  ip_Message : string;
  ip_CurrentItem : string;
  ip_Logs : list LogEntry
}.

Record ImportHistory := {
  ih_ID : string;
  ih_FeedID : string;
  ih_Duration : Z;
  ih_TotalItems : Z;
  ih_Processed : Z;
  ih_Created : Z;
  ih_Updated : Z;
  ih_Skipped : Z;
  ih_Errors : Z;
  ih_Status : string;
  ih_ErrorMessage : option string;
  ih_TriggeredBy : string
}.

(** A row of [products], with the columns [createProduct] fills. *)
Record Product := {
  p_id : string;
  p_slug : string;
  p_title : string;
  p_description : string;
  p_short_description : string;
  p_price : float64;
  p_regular_price : option float64;
  p_sale_price : option float64;
  p_ean : option string;
  p_sku : option string;
  p_external_id : option string;
  p_image_url : option string;
  p_gallery_images : list string;
  p_category_id : option string;
  p_category_path : string;
  p_brand : option string;
  p_manufacturer : option string;
  p_stock_status : string;
  p_stock_quantity : option Z;
  p_affiliate_url : option string;
  p_button_text : string;
  p_delivery_time : option string;
  p_attributes : gmap string string;
  p_feed_id : option string;
  p_feed_checksum : option string;
  p_is_active : bool
}.

(** A row of [categories]. *)
Record Category := {
  c_id : string;
  c_name : string;
  c_slug : string;
  c_parent_id : option string;
  c_product_count : Z;
  c_is_active : bool
}.

(** The tables the engine reads and writes, in row order, and the number
    of statements sent so far. *)
Record DB := {
  products : list Product;
  categories : list Category;
  import_history : list ImportHistory;
  feeds : list Feed;
  statements : nat
}.

Record FeedParser := {
  URL : string;
  Type_ : string;
  XMLItemPath : string;
  CSVDelimiter : string;
  CSVHasHeader : bool;
  MaxBytes : Z;
  UserAgent : string
}.

(** [NewFeedParser]. *)
Definition NewFeedParser (url feedType : string) : FeedParser :=
  {| URL := url; Type_ := feedType; XMLItemPath := "SHOPITEM"; CSVDelimiter := ";";
     CSVHasHeader := true; MaxBytes := 500 * 1024 * 1024; UserAgent := "EshopBuilder/3.0" |}.

(** [ImportEngine]; [progress] and [parser] are pointers, [None] is nil. *)
Record ImportEngine := {
  feed : Feed;
  parser : option FeedParser;
  progress : option ImportProgress;
  historyID : string;
  isRunning : bool;
  shouldStop : bool;
  categoryCache : gmap string string
}.

(** [NewImportEngine]. *)
Definition NewImportEngine (f : Feed) : ImportEngine :=
  {| feed := f; parser := None; progress := None; historyID := "";
     isRunning := false; shouldStop := false; categoryCache := ∅ |}.

(** ** The world outside the package

    What the standard library, the network, the database server and the
    other goroutines contribute to a run. *)

(** One result of [xml.Decoder.Token]. *)
Inductive XMLToken :=
| StartElement (name : string)
| EndElement (name : string)
| CharData (data : string)
| OtherToken.

Inductive TokenResult :=
| Tok (t : XMLToken)
| TokEOF
| TokErr (msg : string).

Record Env := {
  (** the string of the [n]-th [uuid.New()] of the process *)
  uuid_New : nat -> string;
  (** whether the [n]-th statement sent to the database fails (constraint
      violation, lost connection, ...) *)
  db_fault : nat -> bool;
  (** [FeedParser.Download] on a URL: the error text or the body *)
  http_get : string -> string + string;
  (** [xml.NewDecoder] with the charset reader on some bytes: the result of
      its [n]-th call to [Token] *)
  xml_Token : string -> nat -> TokenResult;
  (** [csv.Reader.ReadAll] with the given [Comma], [LazyQuotes] and
      [TrimLeadingSpace] set and [FieldsPerRecord] left at zero *)
  csv_ReadAll : ascii -> string -> string + list (list string);
  (** [json.Unmarshal] into an [interface{}] *)
  json_Unmarshal : string -> string + JSON;
  (** [fmt.Sprintf("%v", v)] for a value that is not a string *)
  fmt_v : JSON -> string;
  (** [regexp.Compile]: [None] when the pattern does not compile, else the
      compiled expression's [ReplaceAllString] *)
  regexp_Compile : string -> option (string -> string -> string);
  (** a [Stop()] from another goroutine: delivered before the item callback
      that finds [Processed] at this value *)
  stop_after : option Z;
  (** the whole seconds between the start of a run and its end *)
  run_seconds : Z
}.

(** The state one engine works on. *)
Record World := {
  db : DB;
  uuids : nat;
  eng : ImportEngine
}.

(** The outcome of a call on a state of type [S]: a value and the new
    state, a panic, or running out of the steps allotted to a loop that
    need not end. *)
Inductive Res (S A : Type) :=
| Ok (a : A) (s : S)
| Panic (msg : string)
| OutOfFuel.

Arguments Ok {S A} a s.
Arguments Panic {S A} msg.
Arguments OutOfFuel {S A}.

Definition ST (S A : Type) : Type := S -> Res S A.

#[global] Instance ST_ret {S} : MRet (ST S) := fun A a s => Ok a s.

#[global] Instance ST_bind {S} : MBind (ST S) := fun A B f m s =>
  match m s with
  | Ok a s' => f a s'
  | Panic msg => Panic msg
  | OutOfFuel => OutOfFuel
  end.

Definition modify {S} (f : S -> S) : ST S unit := fun s => Ok tt (f s).
Definition panic {S A} (msg : string) : ST S A := fun _ => Panic msg.

(** Calls on the engine and its database. *)
Abbreviation M := (ST World).

Definition nil_deref := "runtime error: invalid memory address or nil pointer dereference".

(** ** FeedParser *)

Section Parser.

Context (env : Env).

(** [sanitizeXML]: drop a leading byte-order mark, then every control byte
    of [\x00-\x08\x0B\x0C\x0E-\x1F]. *)
Definition invalid_xml_byte (c : ascii) : bool :=
  let n := GoStrings.code c in
  (n <=? 8)%nat || (n =? 11)%nat || (n =? 12)%nat || ((14 <=? n)%nat && (n <=? 31)%nat).

Definition BOM : string :=
  String (GoStrings.byte_of 239)
    (String (GoStrings.byte_of 187) (String (GoStrings.byte_of 191) "")).

Definition sanitizeXML (data : string) : string :=
  let data := if GoStrings.HasPrefix data BOM then GoStrings.drop 3 data else data in
  GoStrings.filter_bytes (fun c => negb (invalid_xml_byte c)) data.

(** [fixPartialXML]: cut after the last closing item tag found at a
    positive offset, then add a [>] unless the text already ends in one. *)
Definition fixPartialXML (p : FeedParser) (data : string) : string :=
  let closeTagLower := "</" +:+ GoStrings.ToLower (XMLItemPath p) +:+ ">" in
  let str :=
    match GoStrings.LastIndex (GoStrings.ToLower data) closeTagLower with
    | Some (S i) => GoStrings.take (S i + String.length closeTagLower) data
    | _ => data
    end in
  if GoStrings.HasSuffix (GoStrings.TrimSpace str) ">" then str else str +:+ ">".

(** The variables of the token loop of [ParseXMLFull]. *)
Record XMLLoop := {
  currentItem : RawItem;
  inItem : bool;
  itemDepth : nat;
  currentPath : list string
}.

Definition XMLLoop_init : XMLLoop :=
  {| currentItem := ∅; inItem := false; itemDepth := 0; currentPath := [] |}.

(** One turn of the [for] loop of [ParseXMLFull], at its [n]-th call to
    [Token]: [inl err] is a [return err] (or the [break] at [io.EOF], with
    nil), [inr l] the loop variables for the next turn.  A token error
    other than [io.EOF] is skipped with [continue]. *)
Definition xml_turn {S} (p : FeedParser) (data : string)
    (callback : RawItem -> ST S error) (n : nat) (l : XMLLoop) : ST S (error + XMLLoop) :=
  match xml_Token env data n with
  | TokEOF => mret (inl None)
  | TokErr _ => mret (inr l)
  | Tok (StartElement name) =>
      let path := (currentPath l ++ [name])%list in
      mret (inr
        (if GoStrings.EqualFold name (XMLItemPath p)
         then {| currentItem := ∅; inItem := true;
                 itemDepth := List.length path; currentPath := path |}
         else {| currentItem := currentItem l; inItem := inItem l;
                 itemDepth := itemDepth l; currentPath := path |}))
  | Tok (EndElement name) =>
      let pop (l : XMLLoop) :=
        {| currentItem := currentItem l; inItem := inItem l; itemDepth := itemDepth l;
           currentPath := List.removelast (currentPath l) |} in
      if inItem l && GoStrings.EqualFold name (XMLItemPath p)
         && (List.length (currentPath l) =? itemDepth l)%nat
      then
        err ← callback (currentItem l);
        match err with
        | Some e => mret (inl (Some e))
        | None =>
            mret (inr (pop {| currentItem := ∅; inItem := false;
                              itemDepth := itemDepth l; currentPath := currentPath l |}))
        end
      else mret (inr (pop l))
  | Tok (CharData t) =>
      mret (inr
        (if inItem l && (itemDepth l <? List.length (currentPath l))%nat
         then
           let fieldName := List.last (currentPath l) "" in
           let value := GoStrings.TrimSpace t in
           if String.eqb value "" then l
           else {| currentItem := <[fieldName := JString value]> (currentItem l);
                   inItem := inItem l; itemDepth := itemDepth l;
                   currentPath := currentPath l |}
         else l))
  | Tok OtherToken => mret (inr l)
  end.

(** The loop from its [n]-th turn on, for at most [fuel] turns. *)
Fixpoint xml_loop {S} (fuel : nat) (p : FeedParser) (data : string)
    (callback : RawItem -> ST S error) (n : nat) (l : XMLLoop) : ST S error :=
  match fuel with
  | O => fun _ => OutOfFuel
  | Datatypes.S fuel' =>
      r ← xml_turn p data callback n l;
      match r with
      | inl err => mret err
      | inr l' => xml_loop fuel' p data callback (Datatypes.S n) l'
      end
  end.

(** [ParseXMLFull]: the bytes are sanitized and handed to the decoder. *)
Definition ParseXMLFull {S} (fuel : nat) (p : FeedParser) (data : string)
    (callback : RawItem -> ST S error) : ST S error :=
  xml_loop fuel p (sanitizeXML data) callback 0 XMLLoop_init.

(** The record of one CSV row: [item[headers[j]] = value] for every [j]
    below both lengths, in order. *)
Definition csv_item (headers record : list string) : RawItem :=
  List.fold_left (fun (item : RawItem) (hv : string * string) => <[hv.1 := JString hv.2]> item)
    (zip headers record) ∅.

(** The callback on each item in turn, up to its first error. *)
Fixpoint for_each {S A} (callback : A -> ST S error) (items : list A) : ST S error :=
  match items with
  | [] => mret None
  | item :: rest =>
      err ← callback item;
      match err with
      | Some e => mret (Some e)
      | None => for_each callback rest
      end
  end.

Definition index_out_of_range := "runtime error: index out of range [0] with length 0".

(** [ParseCSVFull]. *)
Definition ParseCSVFull {S} (p : FeedParser) (data : string)
    (callback : RawItem -> ST S error) : ST S error :=
  match CSVDelimiter p with
  | EmptyString => panic index_out_of_range
  | String comma _ =>
      match csv_ReadAll env comma data with
      | inl err => mret (Some err)
      | inr [] => mret None
      | inr (headers :: rows) =>
          for_each (fun record => callback (csv_item headers record)) rows
      end
  end.

(** A decoded JSON object as a Go map: a later duplicate key wins. *)
Definition object_map (fields : list (string * JSON)) : RawItem :=
  List.fold_left (fun (m : RawItem) (kv : string * JSON) => <[kv.1 := kv.2]> m) fields ∅.

Definition as_array (v : option JSON) : option (list JSON) :=
  match v with Some (JArray l) => Some l | _ => None end.

(** [findJSONProductsArray]. *)
Definition findJSONProductsArray (data : JSON) : option (list JSON) :=
  match data with
  | JArray arr => Some arr
  | JObject fields =>
      let obj := object_map fields in
      List.fold_right
        (fun key rest =>
           match as_array (obj !! key) with
           | Some arr => Some arr
           | None =>
               match as_array (obj !! GoStrings.ToLower key) with
               | Some arr => Some arr
               | None => rest
               end
           end)
        None ["products"; "items"; "offers"; "data"; "results"; "SHOPITEM"]
  | _ => None
  end.

(** [ParseJSONFull]: elements that are not objects are passed over. *)
Definition ParseJSONFull {S} (p : FeedParser) (data : string)
    (callback : RawItem -> ST S error) : ST S error :=
  match json_Unmarshal env data with
  | inl err => mret (Some err)
  | inr raw =>
      match findJSONProductsArray raw with
      | None => mret (Some "no products array found")
      | Some items =>
          for_each
            (fun item =>
               match item with
               | JObject fields => callback (object_map fields)
               | _ => mret None
               end)
            items
      end
  end.

End Parser.

(** ** Field assignments

    [set_x v r] is the record [r] after [r.x = v]. *)

Definition set_db (v : DB) (w : World) : World :=
  {| db := v; uuids := uuids w; eng := eng w |}.
Definition set_uuids (v : nat) (w : World) : World :=
  {| db := db w; uuids := v; eng := eng w |}.
Definition set_eng (v : ImportEngine) (w : World) : World :=
  {| db := db w; uuids := uuids w; eng := v |}.

Definition set_products (v : list Product) (d : DB) : DB :=
  {| products := v; categories := categories d; import_history := import_history d;
     feeds := feeds d; statements := statements d |}.
Definition set_categories (v : list Category) (d : DB) : DB :=
  {| products := products d; categories := v; import_history := import_history d;
     feeds := feeds d; statements := statements d |}.
Definition set_import_history (v : list ImportHistory) (d : DB) : DB :=
  {| products := products d; categories := categories d; import_history := v; feeds := feeds d;
     statements := statements d |}.
Definition set_feeds (v : list Feed) (d : DB) : DB :=
  {| products := products d; categories := categories d; import_history := import_history d;
     feeds := v; statements := statements d |}.
Definition set_statements (v : nat) (d : DB) : DB :=
  {| products := products d; categories := categories d; import_history := import_history d;
     feeds := feeds d; statements := v |}.

Definition set_parser (v : option FeedParser) (e : ImportEngine) : ImportEngine :=
  {| feed := feed e; parser := v; progress := progress e; historyID := historyID e;
     isRunning := isRunning e; shouldStop := shouldStop e; categoryCache := categoryCache e |}.
Definition set_progress (v : option ImportProgress) (e : ImportEngine) : ImportEngine :=
  {| feed := feed e; parser := parser e; progress := v; historyID := historyID e;
     isRunning := isRunning e; shouldStop := shouldStop e; categoryCache := categoryCache e |}.
Definition set_historyID (v : string) (e : ImportEngine) : ImportEngine :=
  {| feed := feed e; parser := parser e; progress := progress e; historyID := v;
     isRunning := isRunning e; shouldStop := shouldStop e; categoryCache := categoryCache e |}.
Definition set_isRunning (v : bool) (e : ImportEngine) : ImportEngine :=
  {| feed := feed e; parser := parser e; progress := progress e; historyID := historyID e;
     isRunning := v; shouldStop := shouldStop e; categoryCache := categoryCache e |}.
Definition set_shouldStop (v : bool) (e : ImportEngine) : ImportEngine :=
  {| feed := feed e; parser := parser e; progress := progress e; historyID := historyID e;
     isRunning := isRunning e; shouldStop := v; categoryCache := categoryCache e |}.
Definition set_categoryCache (v : gmap string string) (e : ImportEngine) : ImportEngine :=
  {| feed := feed e; parser := parser e; progress := progress e; historyID := historyID e;
     isRunning := isRunning e; shouldStop := shouldStop e; categoryCache := v |}.

Definition set_ip_Status (v : string) (p : ImportProgress) : ImportProgress :=
  {| ip_FeedID := ip_FeedID p; ip_HistoryID := ip_HistoryID p; ip_Status := v;
     ip_Percent := ip_Percent p; ip_Total := ip_Total p; ip_Processed := ip_Processed p;
     ip_Created := ip_Created p; ip_Updated := ip_Updated p; ip_Skipped := ip_Skipped p;
     ip_Errors := ip_Errors p; ip_Message := ip_Message p; ip_CurrentItem := ip_CurrentItem p;
     ip_Logs := ip_Logs p |}.
Definition set_ip_Percent (v : Z) (p : ImportProgress) : ImportProgress :=
  {| ip_FeedID := ip_FeedID p; ip_HistoryID := ip_HistoryID p; ip_Status := ip_Status p;
     ip_Percent := v; ip_Total := ip_Total p; ip_Processed := ip_Processed p;
     ip_Created := ip_Created p; ip_Updated := ip_Updated p; ip_Skipped := ip_Skipped p;
     ip_Errors := ip_Errors p; ip_Message := ip_Message p; ip_CurrentItem := ip_CurrentItem p;
     ip_Logs := ip_Logs p |}.
Definition set_ip_Total (v : Z) (p : ImportProgress) : ImportProgress :=
  {| ip_FeedID := ip_FeedID p; ip_HistoryID := ip_HistoryID p; ip_Status := ip_Status p;
     ip_Percent := ip_Percent p; ip_Total := v; ip_Processed := ip_Processed p;
     ip_Created := ip_Created p; ip_Updated := ip_Updated p; ip_Skipped := ip_Skipped p;
     ip_Errors := ip_Errors p; ip_Message := ip_Message p; ip_CurrentItem := ip_CurrentItem p;
     ip_Logs := ip_Logs p |}.
Definition set_ip_Processed (v : Z) (p : ImportProgress) : ImportProgress :=
  {| ip_FeedID := ip_FeedID p; ip_HistoryID := ip_HistoryID p; ip_Status := ip_Status p;
     ip_Percent := ip_Percent p; ip_Total := ip_Total p; ip_Processed := v;
     ip_Created := ip_Created p; ip_Updated := ip_Updated p; ip_Skipped := ip_Skipped p;
     ip_Errors := ip_Errors p; ip_Message := ip_Message p; ip_CurrentItem := ip_CurrentItem p;
     ip_Logs := ip_Logs p |}.
Definition set_ip_Created (v : Z) (p : ImportProgress) : ImportProgress :=
  {| ip_FeedID := ip_FeedID p; ip_HistoryID := ip_HistoryID p; ip_Status := ip_Status p;
     ip_Percent := ip_Percent p; ip_Total := ip_Total p; ip_Processed := ip_Processed p;
     ip_Created := v; ip_Updated := ip_Updated p; ip_Skipped := ip_Skipped p;
     ip_Errors := ip_Errors p; ip_Message := ip_Message p; ip_CurrentItem := ip_CurrentItem p;
     ip_Logs := ip_Logs p |}.
Definition set_ip_Updated (v : Z) (p : ImportProgress) : ImportProgress :=
  {| ip_FeedID := ip_FeedID p; ip_HistoryID := ip_HistoryID p; ip_Status := ip_Status p;
     ip_Percent := ip_Percent p; ip_Total := ip_Total p; ip_Processed := ip_Processed p;
     ip_Created := ip_Created p; ip_Updated := v; ip_Skipped := ip_Skipped p;
     ip_Errors := ip_Errors p; ip_Message := ip_Message p; ip_CurrentItem := ip_CurrentItem p;
     ip_Logs := ip_Logs p |}.
Definition set_ip_Skipped (v : Z) (p : ImportProgress) : ImportProgress :=
  {| ip_FeedID := ip_FeedID p; ip_HistoryID := ip_HistoryID p; ip_Status := ip_Status p;
     ip_Percent := ip_Percent p; ip_Total := ip_Total p; ip_Processed := ip_Processed p;
     ip_Created := ip_Created p; ip_Updated := ip_Updated p; ip_Skipped := v;
     ip_Errors := ip_Errors p; ip_Message := ip_Message p; ip_CurrentItem := ip_CurrentItem p;
     ip_Logs := ip_Logs p |}.
Definition set_ip_Errors (v : Z) (p : ImportProgress) : ImportProgress :=
  {| ip_FeedID := ip_FeedID p; ip_HistoryID := ip_HistoryID p; ip_Status := ip_Status p;
     ip_Percent := ip_Percent p; ip_Total := ip_Total p; ip_Processed := ip_Processed p;
     ip_Created := ip_Created p; ip_Updated := ip_Updated p; ip_Skipped := ip_Skipped p;
     ip_Errors := v; ip_Message := ip_Message p; ip_CurrentItem := ip_CurrentItem p;
     ip_Logs := ip_Logs p |}.
Definition set_ip_Message (v : string) (p : ImportProgress) : ImportProgress :=
  {| ip_FeedID := ip_FeedID p; ip_HistoryID := ip_HistoryID p; ip_Status := ip_Status p;
     ip_Percent := ip_Percent p; ip_Total := ip_Total p; ip_Processed := ip_Processed p;
     ip_Created := ip_Created p; ip_Updated := ip_Updated p; ip_Skipped := ip_Skipped p;
     ip_Errors := ip_Errors p; ip_Message := v; ip_CurrentItem := ip_CurrentItem p;
     ip_Logs := ip_Logs p |}.
Definition set_ip_CurrentItem (v : string) (p : ImportProgress) : ImportProgress :=
  {| ip_FeedID := ip_FeedID p; ip_HistoryID := ip_HistoryID p; ip_Status := ip_Status p;
     ip_Percent := ip_Percent p; ip_Total := ip_Total p; ip_Processed := ip_Processed p;
     ip_Created := ip_Created p; ip_Updated := ip_Updated p; ip_Skipped := ip_Skipped p;
     ip_Errors := ip_Errors p; ip_Message := ip_Message p; ip_CurrentItem := v;
     ip_Logs := ip_Logs p |}.
Definition set_ip_Logs (v : list LogEntry) (p : ImportProgress) : ImportProgress :=
  {| ip_FeedID := ip_FeedID p; ip_HistoryID := ip_HistoryID p; ip_Status := ip_Status p;
     ip_Percent := ip_Percent p; ip_Total := ip_Total p; ip_Processed := ip_Processed p;
     ip_Created := ip_Created p; ip_Updated := ip_Updated p; ip_Skipped := ip_Skipped p;
     ip_Errors := ip_Errors p; ip_Message := ip_Message p; ip_CurrentItem := ip_CurrentItem p;
     ip_Logs := v |}.

Definition set_Title (v : string) (i : FeedItem) : FeedItem :=
  {| Title := v; Description := Description i; ShortDescription := ShortDescription i;
     Price := Price i; RegularPrice := RegularPrice i; SalePrice := SalePrice i; EAN := EAN i;
     SKU := SKU i; MPN := MPN i; ExternalID := ExternalID i; ImageURL := ImageURL i;
     GalleryImages := GalleryImages i; CategoryPath := CategoryPath i; Brand := Brand i;
     Manufacturer := Manufacturer i; StockStatus := StockStatus i;
     StockQuantity := StockQuantity i; Attributes := Attributes i;
     AffiliateURL := AffiliateURL i; ButtonText := ButtonText i;
     DeliveryTime := DeliveryTime i |}.
Definition set_Description (v : string) (i : FeedItem) : FeedItem :=
  {| Title := Title i; Description := v; ShortDescription := ShortDescription i;
     Price := Price i; RegularPrice := RegularPrice i; SalePrice := SalePrice i; EAN := EAN i;
     SKU := SKU i; MPN := MPN i; ExternalID := ExternalID i; ImageURL := ImageURL i;
     GalleryImages := GalleryImages i; CategoryPath := CategoryPath i; Brand := Brand i;
     Manufacturer := Manufacturer i; StockStatus := StockStatus i;
     StockQuantity := StockQuantity i; Attributes := Attributes i;
     AffiliateURL := AffiliateURL i; ButtonText := ButtonText i;
     DeliveryTime := DeliveryTime i |}.
Definition set_ShortDescription (v : string) (i : FeedItem) : FeedItem :=
  {| Title := Title i; Description := Description i; ShortDescription := v; Price := Price i;
     RegularPrice := RegularPrice i; SalePrice := SalePrice i; EAN := EAN i; SKU := SKU i;
     MPN := MPN i; ExternalID := ExternalID i; ImageURL := ImageURL i;
     GalleryImages := GalleryImages i; CategoryPath := CategoryPath i; Brand := Brand i;
     Manufacturer := Manufacturer i; StockStatus := StockStatus i;
     StockQuantity := StockQuantity i; Attributes := Attributes i;
     AffiliateURL := AffiliateURL i; ButtonText := ButtonText i;
     DeliveryTime := DeliveryTime i |}.
Definition set_Price (v : float64) (i : FeedItem) : FeedItem :=
  {| Title := Title i; Description := Description i; ShortDescription := ShortDescription i;
     Price := v; RegularPrice := RegularPrice i; SalePrice := SalePrice i; EAN := EAN i;
     SKU := SKU i; MPN := MPN i; ExternalID := ExternalID i; ImageURL := ImageURL i;
     GalleryImages := GalleryImages i; CategoryPath := CategoryPath i; Brand := Brand i;
     Manufacturer := Manufacturer i; StockStatus := StockStatus i;
     StockQuantity := StockQuantity i; Attributes := Attributes i;
     AffiliateURL := AffiliateURL i; ButtonText := ButtonText i;
     DeliveryTime := DeliveryTime i |}.
Definition set_RegularPrice (v : float64) (i : FeedItem) : FeedItem :=
  {| Title := Title i; Description := Description i; ShortDescription := ShortDescription i;
     Price := Price i; RegularPrice := v; SalePrice := SalePrice i; EAN := EAN i; SKU := SKU i;
     MPN := MPN i; ExternalID := ExternalID i; ImageURL := ImageURL i;
     GalleryImages := GalleryImages i; CategoryPath := CategoryPath i; Brand := Brand i;
     Manufacturer := Manufacturer i; StockStatus := StockStatus i;
     StockQuantity := StockQuantity i; Attributes := Attributes i;
     AffiliateURL := AffiliateURL i; ButtonText := ButtonText i;
     DeliveryTime := DeliveryTime i |}.
Definition set_SalePrice (v : float64) (i : FeedItem) : FeedItem :=
  {| Title := Title i; Description := Description i; ShortDescription := ShortDescription i;
     Price := Price i; RegularPrice := RegularPrice i; SalePrice := v; EAN := EAN i;
     SKU := SKU i; MPN := MPN i; ExternalID := ExternalID i; ImageURL := ImageURL i;
     GalleryImages := GalleryImages i; CategoryPath := CategoryPath i; Brand := Brand i;
     Manufacturer := Manufacturer i; StockStatus := StockStatus i;
     StockQuantity := StockQuantity i; Attributes := Attributes i;
     AffiliateURL := AffiliateURL i; ButtonText := ButtonText i;
     DeliveryTime := DeliveryTime i |}.
Definition set_EAN (v : string) (i : FeedItem) : FeedItem :=
  {| Title := Title i; Description := Description i; ShortDescription := ShortDescription i;
     Price := Price i; RegularPrice := RegularPrice i; SalePrice := SalePrice i; EAN := v;
     SKU := SKU i; MPN := MPN i; ExternalID := ExternalID i; ImageURL := ImageURL i;
     GalleryImages := GalleryImages i; CategoryPath := CategoryPath i; Brand := Brand i;
     Manufacturer := Manufacturer i; StockStatus := StockStatus i;
     StockQuantity := StockQuantity i; Attributes := Attributes i;
     AffiliateURL := AffiliateURL i; ButtonText := ButtonText i;
     DeliveryTime := DeliveryTime i |}.
Definition set_SKU (v : string) (i : FeedItem) : FeedItem :=
  {| Title := Title i; Description := Description i; ShortDescription := ShortDescription i;
     Price := Price i; RegularPrice := RegularPrice i; SalePrice := SalePrice i; EAN := EAN i;
     SKU := v; MPN := MPN i; ExternalID := ExternalID i; ImageURL := ImageURL i;
     GalleryImages := GalleryImages i; CategoryPath := CategoryPath i; Brand := Brand i;
     Manufacturer := Manufacturer i; StockStatus := StockStatus i;
     StockQuantity := StockQuantity i; Attributes := Attributes i;
     AffiliateURL := AffiliateURL i; ButtonText := ButtonText i;
     DeliveryTime := DeliveryTime i |}.
Definition set_ExternalID (v : string) (i : FeedItem) : FeedItem :=
  {| Title := Title i; Description := Description i; ShortDescription := ShortDescription i;
     Price := Price i; RegularPrice := RegularPrice i; SalePrice := SalePrice i; EAN := EAN i;
     SKU := SKU i; MPN := MPN i; ExternalID := v; ImageURL := ImageURL i;
     GalleryImages := GalleryImages i; CategoryPath := CategoryPath i; Brand := Brand i;
     Manufacturer := Manufacturer i; StockStatus := StockStatus i;
     StockQuantity := StockQuantity i; Attributes := Attributes i;
     AffiliateURL := AffiliateURL i; ButtonText := ButtonText i;
     DeliveryTime := DeliveryTime i |}.
Definition set_ImageURL (v : string) (i : FeedItem) : FeedItem :=
  {| Title := Title i; Description := Description i; ShortDescription := ShortDescription i;
     Price := Price i; RegularPrice := RegularPrice i; SalePrice := SalePrice i; EAN := EAN i;
     SKU := SKU i; MPN := MPN i; ExternalID := ExternalID i; ImageURL := v;
     GalleryImages := GalleryImages i; CategoryPath := CategoryPath i; Brand := Brand i;
     Manufacturer := Manufacturer i; StockStatus := StockStatus i;
     StockQuantity := StockQuantity i; Attributes := Attributes i;
     AffiliateURL := AffiliateURL i; ButtonText := ButtonText i;
     DeliveryTime := DeliveryTime i |}.
Definition set_GalleryImages (v : list string) (i : FeedItem) : FeedItem :=
  {| Title := Title i; Description := Description i; ShortDescription := ShortDescription i;
     Price := Price i; RegularPrice := RegularPrice i; SalePrice := SalePrice i; EAN := EAN i;
     SKU := SKU i; MPN := MPN i; ExternalID := ExternalID i; ImageURL := ImageURL i;
     GalleryImages := v; CategoryPath := CategoryPath i; Brand := Brand i;
     Manufacturer := Manufacturer i; StockStatus := StockStatus i;
     StockQuantity := StockQuantity i; Attributes := Attributes i;
     AffiliateURL := AffiliateURL i; ButtonText := ButtonText i;
     DeliveryTime := DeliveryTime i |}.
Definition set_CategoryPath (v : string) (i : FeedItem) : FeedItem :=
  {| Title := Title i; Description := Description i; ShortDescription := ShortDescription i;
     Price := Price i; RegularPrice := RegularPrice i; SalePrice := SalePrice i; EAN := EAN i;
     SKU := SKU i; MPN := MPN i; ExternalID := ExternalID i; ImageURL := ImageURL i;
     GalleryImages := GalleryImages i; CategoryPath := v; Brand := Brand i;
     Manufacturer := Manufacturer i; StockStatus := StockStatus i;
     StockQuantity := StockQuantity i; Attributes := Attributes i;
     AffiliateURL := AffiliateURL i; ButtonText := ButtonText i;
     DeliveryTime := DeliveryTime i |}.
Definition set_Brand (v : string) (i : FeedItem) : FeedItem :=
  {| Title := Title i; Description := Description i; ShortDescription := ShortDescription i;
     Price := Price i; RegularPrice := RegularPrice i; SalePrice := SalePrice i; EAN := EAN i;
     SKU := SKU i; MPN := MPN i; ExternalID := ExternalID i; ImageURL := ImageURL i;
     GalleryImages := GalleryImages i; CategoryPath := CategoryPath i; Brand := v;
     Manufacturer := Manufacturer i; StockStatus := StockStatus i;
     StockQuantity := StockQuantity i; Attributes := Attributes i;
     AffiliateURL := AffiliateURL i; ButtonText := ButtonText i;
     DeliveryTime := DeliveryTime i |}.
Definition set_Manufacturer (v : string) (i : FeedItem) : FeedItem :=
  {| Title := Title i; Description := Description i; ShortDescription := ShortDescription i;
     Price := Price i; RegularPrice := RegularPrice i; SalePrice := SalePrice i; EAN := EAN i;
     SKU := SKU i; MPN := MPN i; ExternalID := ExternalID i; ImageURL := ImageURL i;
     GalleryImages := GalleryImages i; CategoryPath := CategoryPath i; Brand := Brand i;
     Manufacturer := v; StockStatus := StockStatus i; StockQuantity := StockQuantity i;
     Attributes := Attributes i; AffiliateURL := AffiliateURL i; ButtonText := ButtonText i;
     DeliveryTime := DeliveryTime i |}.
Definition set_StockStatus (v : string) (i : FeedItem) : FeedItem :=
  {| Title := Title i; Description := Description i; ShortDescription := ShortDescription i;
     Price := Price i; RegularPrice := RegularPrice i; SalePrice := SalePrice i; EAN := EAN i;
     SKU := SKU i; MPN := MPN i; ExternalID := ExternalID i; ImageURL := ImageURL i;
     GalleryImages := GalleryImages i; CategoryPath := CategoryPath i; Brand := Brand i;
     Manufacturer := Manufacturer i; StockStatus := v; StockQuantity := StockQuantity i;
     Attributes := Attributes i; AffiliateURL := AffiliateURL i; ButtonText := ButtonText i;
     DeliveryTime := DeliveryTime i |}.
Definition set_StockQuantity (v : Z) (i : FeedItem) : FeedItem :=
  {| Title := Title i; Description := Description i; ShortDescription := ShortDescription i;
     Price := Price i; RegularPrice := RegularPrice i; SalePrice := SalePrice i; EAN := EAN i;
     SKU := SKU i; MPN := MPN i; ExternalID := ExternalID i; ImageURL := ImageURL i;
     GalleryImages := GalleryImages i; CategoryPath := CategoryPath i; Brand := Brand i;
     Manufacturer := Manufacturer i; StockStatus := StockStatus i; StockQuantity := v;
     Attributes := Attributes i; AffiliateURL := AffiliateURL i; ButtonText := ButtonText i;
     DeliveryTime := DeliveryTime i |}.
Definition set_AffiliateURL (v : string) (i : FeedItem) : FeedItem :=
  {| Title := Title i; Description := Description i; ShortDescription := ShortDescription i;
     Price := Price i; RegularPrice := RegularPrice i; SalePrice := SalePrice i; EAN := EAN i;
     SKU := SKU i; MPN := MPN i; ExternalID := ExternalID i; ImageURL := ImageURL i;
     GalleryImages := GalleryImages i; CategoryPath := CategoryPath i; Brand := Brand i;
     Manufacturer := Manufacturer i; StockStatus := StockStatus i;
     StockQuantity := StockQuantity i; Attributes := Attributes i; AffiliateURL := v;
     ButtonText := ButtonText i; DeliveryTime := DeliveryTime i |}.
Definition set_ButtonText (v : string) (i : FeedItem) : FeedItem :=
  {| Title := Title i; Description := Description i; ShortDescription := ShortDescription i;
     Price := Price i; RegularPrice := RegularPrice i; SalePrice := SalePrice i; EAN := EAN i;
     SKU := SKU i; MPN := MPN i; ExternalID := ExternalID i; ImageURL := ImageURL i;
     GalleryImages := GalleryImages i; CategoryPath := CategoryPath i; Brand := Brand i;
     Manufacturer := Manufacturer i; StockStatus := StockStatus i;
     StockQuantity := StockQuantity i; Attributes := Attributes i;
     AffiliateURL := AffiliateURL i; ButtonText := v; DeliveryTime := DeliveryTime i |}.
Definition set_DeliveryTime (v : string) (i : FeedItem) : FeedItem :=
  {| Title := Title i; Description := Description i; ShortDescription := ShortDescription i;
     Price := Price i; RegularPrice := RegularPrice i; SalePrice := SalePrice i; EAN := EAN i;
     SKU := SKU i; MPN := MPN i; ExternalID := ExternalID i; ImageURL := ImageURL i;
     GalleryImages := GalleryImages i; CategoryPath := CategoryPath i; Brand := Brand i;
     Manufacturer := Manufacturer i; StockStatus := StockStatus i;
     StockQuantity := StockQuantity i; Attributes := Attributes i;
     AffiliateURL := AffiliateURL i; ButtonText := ButtonText i; DeliveryTime := v |}.

(** ** ImportEngine *)

Section Engine.

Context (env : Env).

(** *** Access to the engine, its progress record and the database *)

Definition the_engine : M ImportEngine := fun w => Ok (eng w) w.

Definition on_engine (f : ImportEngine -> ImportEngine) : M unit :=
  modify (fun w => set_eng (f (eng w)) w).

(** [e.progress], a pointer: reading through nil panics. *)
Definition the_progress : M ImportProgress := fun w =>
  match progress (eng w) with
  | Some p => Ok p w
  | None => Panic nil_deref
  end.

Definition on_progress (f : ImportProgress -> ImportProgress) : M unit :=
  p ← the_progress; on_engine (set_progress (Some (f p))).

(** [uuid.New().String()]. *)
Definition uuid_New_String : M string := fun w =>
  Ok (uuid_New env (uuids w)) (set_uuids (S (uuids w)) w).

(** One statement sent to the database: it runs, or it fails and leaves
    the tables as they were. *)
Definition statement {A} (run : DB -> A * DB) (failed : A) : M A := fun w =>
  let d := set_statements (S (statements (db w))) (db w) in
  if db_fault env (statements (db w)) then Ok failed (set_db d w)
  else let '(a, d') := run d in Ok a (set_db d' w).

(** [db.Exec]. *)
Definition Exec (f : DB -> DB) : M error :=
  statement (fun d => (None, f d)) (Some "db error").

(** [db.QueryRow(...).Scan(...)]: the first row, [None] when there is no
    row or the statement failed. *)
Definition QueryRow {A} (q : DB -> option A) : M (option A) :=
  statement (fun d => (q d, d)) None.

(** *** Helper functions *)

Definition nullIfEmpty (s : string) : option string :=
  if String.eqb s "" then None else Some s.

Definition nullIfZero (f : float64) : option float64 :=
  if GoNum.is_zero f then None else Some f.

Definition coalesce (s def : string) : string :=
  if String.eqb s "" then def else s.

(** *** Mapping *)

(** [fmt.Sprintf("%v", val)]. *)
Definition sprint_v (val : JSON) : string :=
  match val with
  | JString s => s
  | _ => fmt_v env val
  end.

Fixpoint getFieldValue (raw : RawItem) (keys : list string) : string :=
  match keys with
  | [] => ""
  | key :: rest =>
      match raw !! key with
      | Some val => sprint_v val
      | None =>
          match raw !! GoStrings.ToLower key with
          | Some val => sprint_v val
          | None => getFieldValue raw rest
          end
      end
  end.

(** [applyTransform]; a pattern that does not compile leaves [re] nil and
    the call through it panics. *)
Definition applyTransform {S} (value transformType transformValue : string) : ST S string :=
  if String.eqb transformType "trim" then mret (GoStrings.TrimSpace value)
  else if String.eqb transformType "lowercase" then mret (GoStrings.ToLower value)
  else if String.eqb transformType "uppercase" then mret (GoStrings.ToUpper value)
  else if String.eqb transformType "regex" then
    match GoStrings.Split transformValue "|||" with
    | [pattern; replacement] =>
        match regexp_Compile env pattern with
        | Some ReplaceAllString => mret (ReplaceAllString value replacement)
        | None => panic nil_deref
        end
    | _ => mret value
    end
  else if String.eqb transformType "default" then
    mret (if String.eqb value "" then transformValue else value)
  else mret value.

(** [parsePrice]: keep digits, commas and periods, turn commas into
    periods, parse. *)
Definition parsePrice (value : string) : float64 :=
  let value :=
    GoStrings.filter_bytes
      (fun c => GoStrings.is_digit c || Ascii.eqb c "," || Ascii.eqb c ".") value in
  let value := GoStrings.ReplaceAll value "," "." in
  GoNum.ParseFloat value.

(** The [switch mapping.TargetField] of [mapItem]. *)
Definition set_target (target value : string) (item : FeedItem) : FeedItem :=
  if String.eqb target "title" then set_Title value item
  else if String.eqb target "description" then set_Description value item
  else if String.eqb target "short_description" then set_ShortDescription value item
  else if String.eqb target "price" then set_Price (parsePrice value) item
  else if String.eqb target "regular_price" then set_RegularPrice (parsePrice value) item
  else if String.eqb target "sale_price" then set_SalePrice (parsePrice value) item
  else if String.eqb target "ean" then set_EAN value item
  else if String.eqb target "sku" then set_SKU value item
  else if String.eqb target "external_id" then set_ExternalID value item
  else if String.eqb target "image_url" then set_ImageURL value item
  else if String.eqb target "gallery_images" then set_GalleryImages (GoStrings.Split value "|") item
  else if String.eqb target "category" then set_CategoryPath value item
  else if String.eqb target "brand" then set_Brand value item
  else if String.eqb target "manufacturer" then set_Manufacturer value item
  else if String.eqb target "stock_status" then set_StockStatus value item
  else if String.eqb target "stock_quantity" then set_StockQuantity (GoNum.Atoi value) item
  else if String.eqb target "affiliate_url" then set_AffiliateURL value item
  else if String.eqb target "button_text" then set_ButtonText value item
  else if String.eqb target "delivery_time" then set_DeliveryTime value item
  else item.

Fixpoint apply_mappings {S} (raw : RawItem) (mappings : list FieldMapping) (item : FeedItem)
    : ST S FeedItem :=
  match mappings with
  | [] => mret item
  | mapping :: rest =>
      let value := getFieldValue raw [fm_SourceField mapping] in
      let value :=
        if String.eqb value "" && negb (String.eqb (fm_DefaultValue mapping) "")
        then fm_DefaultValue mapping else value in
      value ← applyTransform value (fm_TransformType mapping) (fm_TransformValue mapping);
      apply_mappings raw rest (set_target (fm_TargetField mapping) value item)
  end.

(** The auto-mapping of [mapItem], used when there are no mappings. *)
Definition auto_map (raw : RawItem) (item : FeedItem) : FeedItem :=
  let item := set_Title (getFieldValue raw ["PRODUCTNAME"; "title"; "name"; "nazov"]) item in
  let item := set_Description (getFieldValue raw ["DESCRIPTION"; "description"; "popis"]) item in
  let item := set_Price (parsePrice (getFieldValue raw ["PRICE_VAT"; "price"; "cena"])) item in
  let item := set_EAN (getFieldValue raw ["EAN"; "ean"; "ean13"; "gtin"]) item in
  let item := set_SKU (getFieldValue raw ["SKU"; "sku"; "ITEMGROUP_ID"; "kod"]) item in
  let item := set_ImageURL (getFieldValue raw ["IMGURL"; "image"; "image_url"; "img_url"]) item in
  let item := set_CategoryPath (getFieldValue raw ["CATEGORYTEXT"; "category"; "kategoria"]) item in
  let item := set_Brand (getFieldValue raw ["MANUFACTURER"; "brand"; "vyrobca"]) item in
  set_AffiliateURL (getFieldValue raw ["URL"; "url"; "link"]) item.

(** [mapItem]; [None] is the nil result.  The feed's mappings are taken as
    the list that the JSON round trip of [FieldMappings] decodes. *)
Definition mapItem (raw : RawItem) : M (option FeedItem) :=
  e ← the_engine;
  let mappings := f_FieldMappings (feed e) in
  item ← apply_mappings raw mappings FeedItem_zero;
  let item := match mappings with [] => auto_map raw item | _ => item end in
  mret (if String.eqb (Title item) "" then None else Some item).

(** *** Fingerprint *)

(** The text [calculateChecksum] hashes:
    [Sprintf("%s|%s|%s|%.2f|%s|%s", ...)]. *)
Definition checksum_data (item : FeedItem) : string :=
  Title item +:+ "|" +:+ Description item +:+ "|" +:+ EAN item +:+ "|"
  +:+ GoNum.fmt_f2 (Price item) +:+ "|" +:+ ImageURL item +:+ "|" +:+ CategoryPath item.

Definition calculateChecksum (item : FeedItem) : string :=
  MD5.EncodeToString (MD5.Sum (checksum_data item)).

(** *** Slugs and categories *)

Definition b2 (x y : nat) : string :=
  String (GoStrings.byte_of x) (String (GoStrings.byte_of y) "").

(** The accented letters of [generateSlug] in UTF-8, with their
    replacements: a-acute, a-diaeresis, c-caron, d-caron, e-acute, i-acute,
    l-acute, l-caron, n-caron, o-acute, o-circumflex, r-acute, s-caron,
    t-caron, u-acute, y-acute, z-caron. *)
Definition replacements : list (string * string) :=
  [ (b2 195 161, "a"); (b2 195 164, "a"); (b2 196 141, "c"); (b2 196 143, "d");
    (b2 195 169, "e"); (b2 195 173, "i"); (b2 196 186, "l"); (b2 196 190, "l");
    (b2 197 136, "n"); (b2 195 179, "o"); (b2 195 180, "o"); (b2 197 149, "r");
    (b2 197 161, "s"); (b2 197 165, "t"); (b2 195 186, "u"); (b2 195 189, "y");
    (b2 197 190, "z") ].

(** [regexp.MustCompile(`[^a-z0-9]+`).ReplaceAllString(slug, "-")]: every
    maximal run of other bytes becomes one hyphen. *)
Fixpoint hyphenate (s : string) (in_run : bool) : string :=
  match s with
  | EmptyString => EmptyString
  | String c s' =>
      if GoStrings.is_lower c || GoStrings.is_digit c then String c (hyphenate s' false)
      else if in_run then hyphenate s' true
      else String "-" (hyphenate s' true)
  end.

(** The part of a slug that depends on the text only. *)
Definition slug_base (text : string) : string :=
  let slug := GoStrings.ToLower text in
  let slug :=
    List.fold_left (fun (s : string) (r : string * string) => GoStrings.ReplaceAll s r.1 r.2)
      replacements slug in
  let slug := hyphenate slug false in
  let slug := GoStrings.Trim slug "-" in
  if (200 <? String.length slug)%nat then GoStrings.take 200 slug else slug.

(** [generateSlug]: the base, a hyphen and the first eight bytes of a new
    UUID. *)
Definition generateSlug (text : string) : M string :=
  u ← uuid_New_String;
  mret (slug_base text +:+ "-" +:+ GoStrings.take 8 u).

(** The [parts] of [getOrCreateCategory]: the later splits are taken only
    when the earlier one has length zero. *)
Definition category_parts (categoryPath : string) : list string :=
  let parts := GoStrings.Split categoryPath "|" in
  let parts :=
    if (List.length parts =? 0)%nat then GoStrings.Split categoryPath " > " else parts in
  if (List.length parts =? 0)%nat then GoStrings.Split categoryPath "/" else parts.

(** [SELECT id FROM categories WHERE slug = $1 AND (parent_id = $2 OR
    (parent_id IS NULL AND $2 IS NULL)) LIMIT 1]. *)
Definition find_category (slug : string) (parentID : option string) (d : DB) : option string :=
  c_id <$> List.find
    (fun c => String.eqb (c_slug c) slug && bool_decide (c_parent_id c = parentID))
    (categories d).

Definition insert_category (c : Category) (d : DB) : DB :=
  set_categories (categories d ++ [c])%list d.

(** The loop of [getOrCreateCategory] over the parts, with its
    [parentID] and [lastID]. *)
Fixpoint resolve_parts (parts : list string) (parentID : option string) (lastID : string)
    : M string :=
  match parts with
  | [] => mret lastID
  | part :: rest =>
      let name := GoStrings.TrimSpace part in
      if String.eqb name "" then resolve_parts rest parentID lastID
      else
        slug ← generateSlug name;
        found ← QueryRow (find_category slug parentID);
        categoryID ←
          match found with
          | Some id => mret id
          | None =>
              id ← uuid_New_String;
              _ ← Exec (insert_category
                          {| c_id := id; c_name := name; c_slug := slug;
                             c_parent_id := parentID; c_product_count := 0;
                             c_is_active := true |});
              mret id
          end;
        if String.eqb categoryID "" then resolve_parts rest parentID lastID
        else resolve_parts rest (Some categoryID) categoryID
  end.

(** [getOrCreateCategory]; [None] is the nil result. *)
Definition getOrCreateCategory (categoryPath : string) : M (option string) :=
  if String.eqb categoryPath "" then mret None
  else
    e ← the_engine;
    match categoryCache e !! categoryPath with
    | Some cachedID => mret (Some cachedID)
    | None =>
        lastID ← resolve_parts (category_parts categoryPath) None "";
        if String.eqb lastID "" then mret None
        else
          on_engine (fun e => set_categoryCache (<[categoryPath := lastID]> (categoryCache e)) e);;
          mret (Some lastID)
    end.

(** *** Products *)

(** The first row of [products] that satisfies the WHERE clause, scanned
    into [id] and [checksum]; a NULL checksum leaves [checksum] empty. *)
Definition scan_product (sel : Product -> bool) : M (string * string) :=
  row ← QueryRow (fun d => List.find sel (products d));
  mret match row with
       | Some p => (p_id p, default "" (p_feed_checksum p))
       | None => ("", "")
       end.

Definition findExistingProduct (item : FeedItem) : M (string * string) :=
  e ← the_engine;
  let matchBy := f_MatchBy (feed e) in
  if String.eqb matchBy MatchByEAN then
    if negb (String.eqb (EAN item) "")
    then scan_product (fun p => bool_decide (p_ean p = Some (EAN item)))
    else mret ("", "")
  else if String.eqb matchBy MatchBySKU then
    if negb (String.eqb (SKU item) "")
    then scan_product (fun p => bool_decide (p_sku p = Some (SKU item)))
    else mret ("", "")
  else if String.eqb matchBy MatchByExternalID then
    if negb (String.eqb (ExternalID item) "")
    then scan_product (fun p => bool_decide (p_external_id p = Some (ExternalID item)))
    else mret ("", "")
  else if String.eqb matchBy MatchByTitle then
    scan_product (fun p => String.eqb (p_title p) (Title item))
  else mret ("", "").

(** "Kupit" with u-acute and t-caron, in UTF-8. *)
Definition button_default : string := "K" +:+ b2 195 186 +:+ "pi" +:+ b2 197 165.

Definition stock_quantity_column (q : Z) : option Z :=
  if (q =? 0)%Z then None else Some q.

(** The row [createProduct] inserts. *)
Definition new_product (id slug : string) (item : FeedItem) (categoryID : option string)
    (feedID checksum : string) : Product :=
  {| p_id := id; p_slug := slug; p_title := Title item; p_description := Description item;
     p_short_description := ShortDescription item; p_price := Price item;
     p_regular_price := nullIfZero (RegularPrice item);
     p_sale_price := nullIfZero (SalePrice item);
     p_ean := nullIfEmpty (EAN item); p_sku := nullIfEmpty (SKU item);
     p_external_id := nullIfEmpty (ExternalID item);
     p_image_url := nullIfEmpty (ImageURL item); p_gallery_images := GalleryImages item;
     p_category_id := categoryID; p_category_path := CategoryPath item;
     p_brand := nullIfEmpty (Brand item); p_manufacturer := nullIfEmpty (Manufacturer item);
     p_stock_status := coalesce (StockStatus item) "instock";
     p_stock_quantity := stock_quantity_column (StockQuantity item);
     p_affiliate_url := nullIfEmpty (AffiliateURL item);
     p_button_text := coalesce (ButtonText item) button_default;
     p_delivery_time := nullIfEmpty (DeliveryTime item); p_attributes := Attributes item;
     p_feed_id := Some feedID; p_feed_checksum := Some checksum; p_is_active := true |}.

Definition createProduct (item : FeedItem) (categoryID : option string) (checksum : string)
    : M error :=
  id ← uuid_New_String;
  slug ← generateSlug (Title item);
  e ← the_engine;
  let row := new_product id slug item categoryID (f_ID (feed e)) checksum in
  Exec (fun d => set_products (products d ++ [row])%list d).

(** The row [updateProduct] leaves: every column of the insert is
    overwritten but the id, the slug, the feed and the active flag. *)
Definition updated_product (item : FeedItem) (categoryID : option string) (checksum : string)
    (p : Product) : Product :=
  let n := new_product (p_id p) (p_slug p) item categoryID "" checksum in
  {| p_id := p_id p; p_slug := p_slug p; p_title := p_title n;
     p_description := p_description n; p_short_description := p_short_description n;
     p_price := p_price n; p_regular_price := p_regular_price n;
     p_sale_price := p_sale_price n; p_ean := p_ean n; p_sku := p_sku n;
     p_external_id := p_external_id n; p_image_url := p_image_url n;
     p_gallery_images := p_gallery_images n; p_category_id := p_category_id n;
     p_category_path := p_category_path n; p_brand := p_brand n;
     p_manufacturer := p_manufacturer n; p_stock_status := p_stock_status n;
     p_stock_quantity := p_stock_quantity n; p_affiliate_url := p_affiliate_url n;
     p_button_text := p_button_text n; p_delivery_time := p_delivery_time n;
     p_attributes := p_attributes n; p_feed_id := p_feed_id p;
     p_feed_checksum := p_feed_checksum n; p_is_active := p_is_active p |}.

Definition updateProduct (id : string) (item : FeedItem) (categoryID : option string)
    (checksum : string) : M error :=
  Exec (fun d =>
          set_products
            (List.map (fun p => if String.eqb (p_id p) id
                                then updated_product item categoryID checksum p else p)
               (products d)) d).

(** [processItem]. *)
Definition processItem (item : FeedItem) : M error :=
  '(existingID, checksum) ← findExistingProduct item;
  let newChecksum := calculateChecksum item in
  if negb (String.eqb existingID "") && String.eqb checksum newChecksum then
    on_progress (fun p => set_ip_Skipped (GoNum.incr (ip_Skipped p)) p);;
    mret None
  else
    categoryID ←
      (if negb (String.eqb (CategoryPath item) "")
       then getOrCreateCategory (CategoryPath item) else mret None);
    if negb (String.eqb existingID "") then
      err ← updateProduct existingID item categoryID newChecksum;
      match err with
      | Some e => mret (Some e)
      | None =>
          on_progress (fun p => set_ip_Updated (GoNum.incr (ip_Updated p)) p);;
          mret None
      end
    else
      err ← createProduct item categoryID newChecksum;
      match err with
      | Some e => mret (Some e)
      | None =>
          on_progress (fun p => set_ip_Created (GoNum.incr (ip_Created p)) p);;
          mret None
      end.

(** *** Progress, log and history *)

(** [updateProgress]; the percentage is integer arithmetic on [int]. *)
Definition updateProgress (message : string) : M unit :=
  on_progress (fun p => set_ip_CurrentItem message (set_ip_Message message p));;
  on_progress (fun p =>
    if (0 <? ip_Total p)%Z
    then set_ip_Percent (Z.quot (GoNum.wrap64 (ip_Processed p * 100)) (ip_Total p)) p
    else p).

Definition updateProgressStats : M unit :=
  p ← the_progress;
  updateProgress ("Processing... (" +:+ GoNum.itoa (ip_Processed p) +:+ "/"
                  +:+ GoNum.itoa (ip_Total p) +:+ ")").

(** [log]: append, then keep the last hundred entries. *)
Definition log (level message : string) : M unit :=
  on_progress (fun p =>
    let logs := (ip_Logs p ++ [{| Level := level; Message := message |}])%list in
    set_ip_Logs
      (if (100 <? List.length logs)%nat then List.skipn (List.length logs - 100) logs else logs)
      p).

(** [saveHistory]: insert, or on a conflict on the id overwrite the columns
    of the ON CONFLICT clause. *)
Definition upsert_history (h : ImportHistory) (d : DB) : DB :=
  if List.existsb (fun r => String.eqb (ih_ID r) (ih_ID h)) (import_history d)
  then
    set_import_history
      (List.map
         (fun r =>
            if String.eqb (ih_ID r) (ih_ID h)
            then {| ih_ID := ih_ID r; ih_FeedID := ih_FeedID r; ih_Duration := ih_Duration h;
                    ih_TotalItems := ih_TotalItems h; ih_Processed := ih_Processed h;
                    ih_Created := ih_Created h; ih_Updated := ih_Updated h;
                    ih_Skipped := ih_Skipped h; ih_Errors := ih_Errors h;
                    ih_Status := ih_Status h; ih_ErrorMessage := ih_ErrorMessage h;
                    ih_TriggeredBy := ih_TriggeredBy r |}
            else r)
         (import_history d)) d
  else set_import_history (import_history d ++ [h])%list d.

Definition saveHistory (history : ImportHistory) : M error :=
  Exec (upsert_history history).

(** The feed row after [UPDATE feeds SET status, last_error,
    total_products]. *)
Definition with_status (status : string) (lastError : option string) (total : Z) (f : Feed)
    : Feed :=
  {| f_ID := f_ID f; f_Name := f_Name f; f_Description := f_Description f;
     f_FeedURL := f_FeedURL f; f_FeedType := f_FeedType f; f_XMLItemPath := f_XMLItemPath f;
     f_CSVDelimiter := f_CSVDelimiter f; f_CSVHasHeader := f_CSVHasHeader f;
     f_ImportMode := f_ImportMode f; f_MatchBy := f_MatchBy f;
     f_DefaultCategory := f_DefaultCategory f; f_ImportImages := f_ImportImages f;
     f_CreateAttributes := f_CreateAttributes f; f_ScheduleEnabled := f_ScheduleEnabled f;
     f_ScheduleCron := f_ScheduleCron f; f_Active := f_Active f; f_Status := status;
     f_LastError := lastError; f_TotalProducts := total;
     f_FieldMappings := f_FieldMappings f |}.

(** [updateFeedStatus]. *)
Definition updateFeedStatus (status errorMsg : string) : M unit :=
  e ← the_engine;
  let id := f_ID (feed e) in
  _ ← Exec (fun d =>
      let total :=
        Z.of_nat (List.length
          (List.filter (fun p => bool_decide (p_feed_id p = Some id)) (products d))) in
      set_feeds
        (List.map
           (fun f => if String.eqb (f_ID f) id
                     then with_status status (nullIfEmpty errorMsg) total f else f)
           (feeds d)) d);
  mret tt.

(** [updateCategoryCounts]: every category's count is taken anew from the
    active products. *)
Definition updateCategoryCounts : M unit :=
  _ ← Exec (fun d =>
      set_categories
        (List.map
           (fun c =>
              {| c_id := c_id c; c_name := c_name c; c_slug := c_slug c;
                 c_parent_id := c_parent_id c;
                 c_product_count :=
                   Z.of_nat (List.length
                     (List.filter
                        (fun p => bool_decide (p_category_id p = Some (c_id c)) && p_is_active p)
                        (products d)));
                 c_is_active := c_is_active c |})
           (categories d)) d);
  mret tt.

(** The history as [completeImport] fills it in from the progress record. *)
Definition completed_history (p : ImportProgress) (history : ImportHistory) : ImportHistory :=
  {| ih_ID := ih_ID history; ih_FeedID := ih_FeedID history;
     ih_Duration := run_seconds env; ih_TotalItems := ih_TotalItems history;
     ih_Processed := ip_Processed p; ih_Created := ip_Created p;
     ih_Updated := ip_Updated p; ih_Skipped := ip_Skipped p; ih_Errors := ip_Errors p;
     ih_Status := ImportStatusCompleted; ih_ErrorMessage := ih_ErrorMessage history;
     ih_TriggeredBy := ih_TriggeredBy history |}.

(** [completeImport]. *)
Definition completeImport (history : ImportHistory) : M (option ImportHistory * error) :=
  p ← the_progress;
  let history := completed_history p history in
  _ ← saveHistory history;
  updateFeedStatus "active" "";;
  updateCategoryCounts;;
  on_progress (fun p => set_ip_Message "Import completed" (set_ip_Status ImportStatusCompleted p));;
  updateProgress "Import completed";;
  p ← the_progress;
  log "info"
    ("Import completed: " +:+ GoNum.itoa (ip_Created p) +:+ " created, "
     +:+ GoNum.itoa (ip_Updated p) +:+ " updated, " +:+ GoNum.itoa (ip_Skipped p)
     +:+ " skipped, " +:+ GoNum.itoa (ip_Errors p) +:+ " errors. Duration: "
     +:+ GoNum.itoa (run_seconds env) +:+ "s");;
  mret (Some history, None).

(** [failImport]: the counters of the history row stay as they are.  The
    returned error is [fmt.Errorf(errorMsg)], which is [errorMsg] for a
    text without formatting verbs. *)
Definition failImport (history : ImportHistory) (errorMsg : string)
    : M (option ImportHistory * error) :=
  let history :=
    {| ih_ID := ih_ID history; ih_FeedID := ih_FeedID history;
       ih_Duration := run_seconds env; ih_TotalItems := ih_TotalItems history;
       ih_Processed := ih_Processed history; ih_Created := ih_Created history;
       ih_Updated := ih_Updated history; ih_Skipped := ih_Skipped history;
       ih_Errors := ih_Errors history; ih_Status := ImportStatusFailed;
       ih_ErrorMessage := Some errorMsg; ih_TriggeredBy := ih_TriggeredBy history |} in
  _ ← saveHistory history;
  updateFeedStatus "error" errorMsg;;
  on_progress (fun p => set_ip_Message errorMsg (set_ip_Status ImportStatusFailed p));;
  updateProgress errorMsg;;
  log "error" ("Import failed: " +:+ errorMsg);;
  mret (Some history, Some errorMsg).

(** [Stop]. *)
Definition Stop : M unit :=
  on_engine (set_shouldStop true);;
  log "info" "Stop requested".

(** *** Run *)

(** The [processCallback] closure of [Run]. *)
Definition processCallback (item : RawItem) : M error :=
  e ← the_engine;
  if shouldStop e then mret (Some "import cancelled")
  else
    on_progress (fun p => set_ip_Processed (GoNum.incr (ip_Processed p)) p);;
    feedItem ← mapItem item;
    match feedItem with
    | None =>
        on_progress (fun p => set_ip_Skipped (GoNum.incr (ip_Skipped p)) p);;
        mret None
    | Some feedItem =>
        if String.eqb (Title feedItem) "" then
          on_progress (fun p => set_ip_Errors (GoNum.incr (ip_Errors p)) p);;
          mret None
        else if GoNum.is_zero (Price feedItem) then
          on_progress (fun p => set_ip_Errors (GoNum.incr (ip_Errors p)) p);;
          mret None
        else
          err ← processItem feedItem;
          match err with
          | Some msg =>
              on_progress (fun p => set_ip_Errors (GoNum.incr (ip_Errors p)) p);;
              log "error" ("Item error (" +:+ Title feedItem +:+ "): " +:+ msg);;
              mret None
          | None =>
              p ← the_progress;
              (if (Z.rem (ip_Processed p) 50 =? 0)%Z then updateProgressStats else mret tt);;
              mret None
          end
    end.

(** The other goroutine: a [Stop()] requested once [stop_after] items have
    been processed takes effect before the next item is handed over. *)
Definition concurrent_stop : M unit :=
  p ← the_progress;
  match stop_after env with
  | Some n => if (ip_Processed p =? n)%Z then Stop else mret tt
  | None => mret tt
  end.

(** The counting closure of [Run], on its [totalCount]. *)
Definition countCallback (item : RawItem) : ST Z error :=
  modify GoNum.incr;; mret None.

(** The first [switch e.feed.FeedType]: the traversal's error is dropped. *)
Definition count_items (fuel : nat) (p : FeedParser) (feedType feedData : string) : M Z :=
  fun w =>
    let counted : Res Z error :=
      if String.eqb feedType FeedTypeXML then ParseXMLFull env fuel p feedData countCallback 0
      else if String.eqb feedType FeedTypeCSV then ParseCSVFull env p feedData countCallback 0
      else if String.eqb feedType FeedTypeJSON then ParseJSONFull env p feedData countCallback 0
      else Ok None 0 in
    match counted with
    | Ok _ totalCount => Ok totalCount w
    | Panic msg => Panic msg
    | OutOfFuel => OutOfFuel
    end.

(** The second [switch e.feed.FeedType]; [err] is nil for any other type. *)
Definition process_items (fuel : nat) (p : FeedParser) (feedType feedData : string) : M error :=
  let callback := fun item => concurrent_stop;; processCallback item in
  if String.eqb feedType FeedTypeXML then ParseXMLFull env fuel p feedData callback
  else if String.eqb feedType FeedTypeCSV then ParseCSVFull env p feedData callback
  else if String.eqb feedType FeedTypeJSON then ParseJSONFull env p feedData callback
  else mret None.

(** [Run] after the guard. *)
Definition run_import (fuel : nat) (triggeredBy : string) : M (option ImportHistory * error) :=
  id ← uuid_New_String;
  on_engine (set_historyID id);;
  e ← the_engine;
  on_engine (set_progress (Some
    {| ip_FeedID := f_ID (feed e); ip_HistoryID := id; ip_Status := ImportStatusRunning;
       ip_Percent := 0; ip_Total := 0; ip_Processed := 0; ip_Created := 0; ip_Updated := 0;
       ip_Skipped := 0; ip_Errors := 0; ip_Message := "Initializing import...";
       ip_CurrentItem := ""; ip_Logs := [] |}));;
  let history :=
    {| ih_ID := id; ih_FeedID := f_ID (feed e); ih_Duration := 0; ih_TotalItems := 0;
       ih_Processed := 0; ih_Created := 0; ih_Updated := 0; ih_Skipped := 0; ih_Errors := 0;
       ih_Status := ImportStatusRunning; ih_ErrorMessage := None;
       ih_TriggeredBy := triggeredBy |} in
  _ ← saveHistory history;
  updateFeedStatus "running" "";;
  log "info" ("Import started for feed: " +:+ f_Name (feed e));;
  updateProgress "Downloading feed...";;
  let p0 := NewFeedParser (f_FeedURL (feed e)) (f_FeedType (feed e)) in
  let p :=
    {| URL := URL p0; Type_ := Type_ p0; XMLItemPath := f_XMLItemPath (feed e);
       CSVDelimiter := f_CSVDelimiter (feed e); CSVHasHeader := CSVHasHeader p0;
       MaxBytes := MaxBytes p0; UserAgent := UserAgent p0 |} in
  on_engine (set_parser (Some p));;
  match http_get env (URL p) with
  | inl err => failImport history ("Download error: " +:+ err)
  | inr feedData =>
      log "info" ("Feed downloaded: "
                  +:+ GoNum.itoa (Z.of_nat (String.length feedData) / 1024) +:+ " KB");;
      updateProgress "Parsing feed...";;
      totalCount ← count_items fuel p (f_FeedType (feed e)) feedData;
      on_progress (set_ip_Total totalCount);;
      let history :=
        {| ih_ID := ih_ID history; ih_FeedID := ih_FeedID history;
           ih_Duration := ih_Duration history; ih_TotalItems := totalCount;
           ih_Processed := ih_Processed history; ih_Created := ih_Created history;
           ih_Updated := ih_Updated history; ih_Skipped := ih_Skipped history;
           ih_Errors := ih_Errors history; ih_Status := ih_Status history;
           ih_ErrorMessage := ih_ErrorMessage history;
           ih_TriggeredBy := ih_TriggeredBy history |} in
      log "info" ("Feed parsed: " +:+ GoNum.itoa totalCount +:+ " items");;
      updateProgress ("Processing " +:+ GoNum.itoa totalCount +:+ " items...");;
      err ← process_items fuel p (f_FeedType (feed e)) feedData;
      match err with
      | Some msg =>
          if negb (GoStrings.Contains msg "cancelled")
          then failImport history msg
          else completeImport history
      | None => completeImport history
      end
  end.

(** [Run]: a run in progress is refused before anything is written; the
    deferred function clears the flag when the run returns. *)
Definition Run (fuel : nat) (triggeredBy : string) : M (option ImportHistory * error) :=
  e ← the_engine;
  if isRunning e then mret (None, Some "import already running")
  else
    on_engine (fun e => set_shouldStop false (set_isRunning true e));;
    r ← run_import fuel triggeredBy;
    on_engine (set_isRunning false);;
    mret r.

End Engine.

(** ** Models of the library calls, for running the engine on concrete feeds

    The engine above takes the standard library through [Env].  The modules
    below give [encoding/csv] as the parser configures it, and
    [encoding/xml] on a fragment of XML, so that a run can be evaluated. *)

Definition LF : string := String (GoStrings.byte_of 10) "".
Definition CR : string := String (GoStrings.byte_of 13) "".

Module GoCSV.

Import GoStrings.

Definition lengthNL (line : string) : nat := if HasSuffix line LF then 1 else 0.

(** The lines [readLine] returns, each with its line feed: a final line
    without one loses a trailing carriage return, and [\r\n] becomes [\n]. *)
Fixpoint read_lines (data cur : string) : list string :=
  match data with
  | EmptyString =>
      match cur with
      | EmptyString => []
      | _ => [rev (if HasPrefix cur CR then drop 1 cur else cur)]
      end
  | String c data' =>
      if Ascii.eqb c (byte_of 10)
      then rev (String c (if HasPrefix cur CR then drop 1 cur else cur)) :: read_lines data' ""
      else read_lines data' (String c cur)
  end.

(** The UTF-8 bytes of the rune [Comma = rune(b)]. *)
Definition comma_bytes (b : ascii) : string :=
  let n := code b in
  if (n <? 128)%nat then String b ""
  else String (byte_of (192 + n / 64)) (String (byte_of (128 + n mod 64)) "").

Definition validDelim (b : ascii) : bool :=
  negb (Ascii.eqb b (byte_of 0) || Ascii.eqb b (byte_of 34) || Ascii.eqb b (byte_of 13)
        || Ascii.eqb b (byte_of 10)).

Definition quote : string := String (byte_of 34) EmptyString.

(** The body of a quoted field with lazy quotes: the field, what is left
    of the line after a closing quote and comma (if the record goes on),
    and the lines not yet read. *)
Fixpoint quoted (fuel : nat) (comma line : string) (rest : list string) (buf : string)
    : string * option string * list string :=
  match fuel with
  | O => (buf, None, rest)
  | S k =>
      match Index line quote with
      | Some i =>
          let buf := buf +:+ take i line in
          let line := drop (S i) line in
          if HasPrefix line quote then quoted k comma (drop 1 line) rest (buf +:+ quote)
          else if HasPrefix line comma then (buf, Some (drop (String.length comma) line), rest)
          else if (String.length line =? lengthNL line)%nat then (buf, None, rest)
          else quoted k comma line rest (buf +:+ quote)
      | None =>
          if (0 <? String.length line)%nat then
            match rest with
            | next :: rest' => quoted k comma next rest' (buf +:+ line)
            | [] => quoted k comma "" [] (buf +:+ line)
            end
          else (buf, None, rest)
      end
  end.

(** The fields of one record, from [line] on. *)
Fixpoint parse_fields (fuel : nat) (comma line : string) (rest : list string)
    (acc : list string) : list string * list string :=
  match fuel with
  | O => (List.rev acc, rest)
  | S k =>
      let line := TrimLeft is_space line in
      if HasPrefix line quote then
        match quoted k comma (drop 1 line) rest "" with
        | (field, Some line', rest') => parse_fields k comma line' rest' (field :: acc)
        | (field, None, rest') => (List.rev (field :: acc), rest')
        end
      else
        match Index line comma with
        | Some i =>
            parse_fields k comma (drop (i + String.length comma) line) rest (take i line :: acc)
        | None =>
            (List.rev (take (String.length line - lengthNL line) line :: acc), rest)
        end
  end.

Definition input_size (lines : list string) : nat :=
  List.fold_right (fun l n => (String.length l + n + 2)%nat) 2%nat lines.

(** The records from [lines] on; [numLine] lines have been read and
    [fieldsPerRecord] is zero until the first record sets it. *)
Fixpoint read_records (fuel : nat) (comma : string) (lines : list string) (numLine : Z)
    (fieldsPerRecord : nat) (acc : list (list string)) : string + list (list string) :=
  match fuel with
  | O => inr (List.rev acc)
  | S k =>
      match lines with
      | [] => inr (List.rev acc)
      | line :: rest =>
          if (String.length line =? lengthNL line)%nat
          then read_records k comma rest (numLine + 1) fieldsPerRecord acc
          else
            let '(record, rest') := parse_fields (input_size lines) comma line rest [] in
            let numLine' := numLine + 1 + Z.of_nat (List.length rest - List.length rest') in
            if (fieldsPerRecord =? 0)%nat
            then read_records k comma rest' numLine' (List.length record) (record :: acc)
            else if (List.length record =? fieldsPerRecord)%nat
            then read_records k comma rest' numLine' fieldsPerRecord (record :: acc)
            else inl ("record on line " +:+ GoNum.itoa (numLine + 1)
                      +:+ ": wrong number of fields")
      end
  end.

(** [ReadAll] of a reader with [Comma = rune(b)], [LazyQuotes],
    [TrimLeadingSpace] and [FieldsPerRecord] zero: every record must have
    as many fields as the first. *)
Definition ReadAll (b : ascii) (data : string) : string + list (list string) :=
  if validDelim b then
    let lines := read_lines data "" in
    read_records (S (List.length lines)) (comma_bytes b) lines 0 0 []
  else inl "csv: invalid field or comment delimiter".

End GoCSV.

Module GoXML.

Import GoStrings.

(** [encoding/xml]'s decoder on a fragment of XML: start tags [<name>] and
    end tags [</name>] whose names are ASCII letters, digits, [_], [-] and
    [.]; processing instructions; character data of printable ASCII, tab
    and line feed without [&] and []]>].  On any other construct this model
    stops with an error, where the decoder itself may go on.  Line numbers
    are left out of the error texts.

    As in the decoder, an error is kept: once [Token] has failed, every
    later call fails the same way, and at the end of the input with
    elements still open every call reports an unexpected EOF. *)
Record Decoder := {
  input : string;
  stk : list string;
  err : option string
}.

Definition NewDecoder (data : string) : Decoder :=
  {| input := data; stk := []; err := None |}.

Definition is_name_byte (c : ascii) : bool :=
  is_lower c || is_upper c || is_digit c
  || Ascii.eqb c "_" || Ascii.eqb c "-" || Ascii.eqb c ".".

Definition is_text_byte (c : ascii) : bool :=
  let n := code c in
  (((32 <=? n)%nat && (n <=? 126)%nat) || (n =? 9)%nat || (n =? 10)%nat)
  && negb (Ascii.eqb c "&").

(** The longest prefix whose bytes satisfy [f], and what follows it. *)
Fixpoint span (f : ascii -> bool) (s : string) : string * string :=
  match s with
  | String c s' =>
      if f c then let '(a, b) := span f s' in (String c a, b) else (EmptyString, s)
  | EmptyString => (EmptyString, EmptyString)
  end.

Fixpoint all_bytes (f : ascii -> bool) (s : string) : bool :=
  match s with
  | String c s' => f c && all_bytes f s'
  | EmptyString => true
  end.

Definition unexpected_EOF := "XML syntax error: unexpected EOF".

Definition fail (msg : string) (d : Decoder) : TokenResult * Decoder :=
  (TokErr msg, {| input := input d; stk := stk d; err := Some msg |}).

Definition advance (t : XMLToken) (rest : string) (stack : list string)
    : TokenResult * Decoder :=
  (Tok t, {| input := rest; stk := stack; err := None |}).

(** One call to [Token]. *)
Definition Token (d : Decoder) : TokenResult * Decoder :=
  match err d with
  | Some msg => (TokErr msg, d)
  | None =>
      match input d with
      | EmptyString =>
          match stk d with
          | [] => (TokEOF, d)
          | _ => (TokErr unexpected_EOF, d)
          end
      | String "<" (String "/" rest) =>
          let '(name, after) := span is_name_byte rest in
          match after with
          | EmptyString => fail unexpected_EOF d
          | String ">" after' =>
              match name, stk d with
              | EmptyString, _ => fail "XML syntax error: expected element name after </" d
              | _, [] => fail ("XML syntax error: unexpected end element </" +:+ name +:+ ">") d
              | _, top :: stack =>
                  if String.eqb top name then advance (EndElement name) after' stack
                  else fail ("XML syntax error: element <" +:+ top +:+ "> closed by </"
                             +:+ name +:+ ">") d
              end
          | _ => fail ("XML syntax error: invalid characters between </" +:+ name +:+ " and >") d
          end
      | String "<" (String "?" rest) =>
          match Index rest "?>" with
          | Some i => advance OtherToken (drop (i + 2) rest) (stk d)
          | None => fail unexpected_EOF d
          end
      | String "<" rest =>
          let '(name, after) := span is_name_byte rest in
          match after with
          | EmptyString => fail unexpected_EOF d
          | String ">" after' =>
              match name with
              | EmptyString => fail "XML syntax error: expected element name after <" d
              | _ => advance (StartElement name) after' (name :: stk d)
              end
          | _ => fail "outside the modelled fragment: a start tag with more than a name" d
          end
      | text =>
          let '(data, after) := span (fun c => negb (Ascii.eqb c "<")) text in
          if Contains data "]]>" then fail "XML syntax error: unescaped ]]> not in CDATA section" d
          else if all_bytes is_text_byte data then advance (CharData data) after (stk d)
          else fail "outside the modelled fragment: character data" d
      end
  end.

(** The decoder after [n] calls. *)
Fixpoint after_calls (n : nat) (d : Decoder) : Decoder :=
  match n with
  | O => d
  | S k => after_calls k (Token d).2
  end.

(** The result of the [n]-th call on [data], counting from zero. *)
Definition nth_Token (data : string) (n : nat) : TokenResult :=
  (Token (after_calls n (NewDecoder data))).1.

End GoXML.

(** ** A laboratory environment

    Version-4 UUIDs are random; here the [n]-th one starts with [n] in
    eight hexadecimal digits, so that all are distinct, as in any real run.
    The database never fails, the feed body is fixed, CSV and XML are read
    by the models above.  JSON feeds and regular expressions are not
    exercised below: every JSON text is refused and no pattern compiles. *)

Fixpoint hex_digits (k : nat) (n : Z) (acc : string) : string :=
  match k with
  | O => acc
  | S k' => hex_digits k' (n / 16) (String (MD5.hex_digit (n mod 16)) acc)
  end.

Definition lab_uuid (n : nat) : string :=
  hex_digits 8 (Z.of_nat n) "" +:+ "-0000-4000-8000-000000000000".

Definition lab (body : string) (stop : option Z) : Env :=
  {| uuid_New := lab_uuid;
     db_fault := fun _ => false;
     http_get := fun _ => inr body;
     xml_Token := GoXML.nth_Token;
     csv_ReadAll := GoCSV.ReadAll;
     json_Unmarshal := fun _ => inl "invalid character";
     fmt_v := fun _ => "";
     regexp_Compile := fun _ => None;
     stop_after := stop;
     run_seconds := 0 |}.

(** ** The StartImport handler *)

Record Handler := {
  h_db : DB;
  importEngines : gmap string ImportEngine;
  (** the feeds whose run a [go] statement has started *)
  goroutines : list string
}.

Record Response := { status_code : Z; body : string }.

(** [SELECT * FROM feeds WHERE id = $1], scanned into a [Feed]. *)
Definition find_feed (feedID : string) (d : DB) : option Feed :=
  List.find (fun f => String.eqb (f_ID f) feedID) (feeds d).

(** [Handler.StartImport]: 404 when the feed row cannot be read, 409 when
    an engine is registered for the feed; otherwise a new engine is stored
    and its run handed to a goroutine. *)
Definition StartImport (env : Env) (feedID : string) (h : Handler) : Response * Handler :=
  let d := set_statements (S (statements (h_db h))) (h_db h) in
  let h' := {| h_db := d; importEngines := importEngines h; goroutines := goroutines h |} in
  match (if db_fault env (statements (h_db h)) then None else find_feed feedID d) with
  | None => ({| status_code := 404; body := "Feed not found" |}, h')
  | Some f =>
      match importEngines h !! feedID with
      | Some _ => ({| status_code := 409; body := "Import already running" |}, h')
      | None =>
          ({| status_code := 200; body := "started" |},
           {| h_db := d;
              importEngines := <[feedID := NewImportEngine f]> (importEngines h);
              goroutines := (goroutines h ++ [feedID])%list |})
      end
  end.

(** ** A small catalogue to run the engine on *)

Definition demo_feed (feedType matchBy importMode : string) : Feed :=
  {| f_ID := "feed-1"; f_Name := "Demo"; f_Description := "";
     f_FeedURL := "http://feeds.example/demo"; f_FeedType := feedType;
     f_XMLItemPath := "SHOPITEM"; f_CSVDelimiter := ";"; f_CSVHasHeader := true;
     f_ImportMode := importMode; f_MatchBy := matchBy; f_DefaultCategory := None;
     f_ImportImages := true; f_CreateAttributes := true; f_ScheduleEnabled := false;
     f_ScheduleCron := ""; f_Active := true; f_Status := "active"; f_LastError := None;
     f_TotalProducts := 0; f_FieldMappings := [] |}.

Definition empty_catalog (f : Feed) : DB :=
  {| products := []; categories := []; import_history := []; feeds := [f]; statements := 0 |}.

(** A new engine on a database, as [StartImport] creates it. *)
Definition new_run (d : DB) (f : Feed) (uuids_used : nat) : World :=
  {| db := d; uuids := uuids_used; eng := NewImportEngine f |}.

(** The engine in the middle of a run, with its counters at zero. *)
Definition mid_run (d : DB) (f : Feed) (uuids_used : nat) : World :=
  {| db := d; uuids := uuids_used;
     eng := set_progress (Some
       {| ip_FeedID := f_ID f; ip_HistoryID := "h"; ip_Status := ImportStatusRunning;
          ip_Percent := 0; ip_Total := 0; ip_Processed := 0; ip_Created := 0;
          ip_Updated := 0; ip_Skipped := 0; ip_Errors := 0; ip_Message := "";
          ip_CurrentItem := ""; ip_Logs := [] |}) (set_isRunning true (NewImportEngine f)) |}.

(** The state a call leaves, if it returns. *)
Definition state_after {S A} (r : Res S A) : option S :=
  match r with Ok _ s => Some s | _ => None end.

Definition value_of {S A} (r : Res S A) : option A :=
  match r with Ok a _ => Some a | _ => None end.

(** A first run of the feed on the empty catalogue, started as
    [StartImport] starts it. *)
Definition first_run (env : Env) (f : Feed) : Res World (option ImportHistory * error) :=
  Run env 0 "manual" (new_run (empty_catalog f) f 0).

(** The next run of the feed, by a new engine on the database the previous
    run left, with the feed row as it now is. *)
Definition next_run (env : Env) (feedID : string) {A} (previous : Res World A)
    : Res World (option ImportHistory * error) :=
  match previous with
  | Ok _ w =>
      match find_feed feedID (db w) with
      | Some f => Run env 0 "manual" (new_run (db w) f (uuids w))
      | None => Panic "no such feed"
      end
  | Panic msg => Panic msg
  | OutOfFuel => OutOfFuel
  end.

(** What a run reports: status, error message, and the processed,
    created, updated, skipped and errors counters of its history row. *)
Definition report (r : Res World (option ImportHistory * error))
    : option (string * option string * (Z * Z * Z * Z * Z)) :=
  match r with
  | Ok (Some h, _) _ =>
      Some (ih_Status h, ih_ErrorMessage h,
            (ih_Processed h, ih_Created h, ih_Updated h, ih_Skipped h, ih_Errors h))
  | _ => None
  end.

(** The state after resolving a category path, and the leaf it returned. *)
Definition resolved (env : Env) (categoryPath : string) (w : World) : World * option string :=
  match getOrCreateCategory env categoryPath w with
  | Ok leaf w' => (w', leaf)
  | _ => (w, None)
  end.

(** A callback that records the items it is given. *)
Definition record_item (item : RawItem) : ST (list RawItem) error :=
  modify (fun seen => seen ++ [item])%list;; mret None.

(** *** Feeds *)

Definition csv_lines (lines : list string) : string :=
  List.fold_right (fun l rest => l +:+ LF +:+ rest) "" lines.

Definition three_items : string :=
  csv_lines ["title;price;ean"; "Phone;19,99;8590001"; "Case;4,50;8590002";
             "Cable;2,00;8590003"].

Definition phone_at (price : string) : string :=
  csv_lines ["title;price;ean"; "Phone;" +:+ price +:+ ";8590001"].

Definition csv_parser (delimiter : string) : FeedParser :=
  {| URL := ""; Type_ := FeedTypeCSV; XMLItemPath := "SHOPITEM"; CSVDelimiter := delimiter;
     CSVHasHeader := true; MaxBytes := 500 * 1024 * 1024; UserAgent := "EshopBuilder/3.0" |}.

Definition xml_parser (itemPath : string) : FeedParser :=
  {| URL := ""; Type_ := FeedTypeXML; XMLItemPath := itemPath; CSVDelimiter := ";";
     CSVHasHeader := true; MaxBytes := 500 * 1024 * 1024; UserAgent := "EshopBuilder/3.0" |}.

Definition first_item : string :=
  "<SHOPITEM><PRODUCTNAME>Phone</PRODUCTNAME><PRICE_VAT>19,99</PRICE_VAT></SHOPITEM>".

(** A feed cut in the middle of its second item. *)
Definition truncated_feed : string := "<SHOP>" +:+ first_item +:+ "<SHOPITEM><PRODUCTNAME>Ca".

Definition first_record : RawItem :=
  {[ "PRODUCTNAME" := JString "Phone"; "PRICE_VAT" := JString "19,99" ]}.

(** The item of EAN 8590001, and a catalogue that holds it as a feed left
    it. *)
Definition phone : FeedItem :=
  set_CategoryPath "Electronics|Phones"
    (set_Price (parsePrice "19.99") (set_EAN "8590001" (set_Title "Phone" FeedItem_zero))).

Definition catalog_with_phone (f : Feed) : DB :=
  set_products
    [new_product "p-1" "phone-0a1b2c3d" phone None (f_ID f) (calculateChecksum phone)]
    (empty_catalog f).

(** ** The vocabulary of the properties *)

(** The six fields the fingerprint is computed from. *)
Definition fingerprint_fields (i : FeedItem)
    : string * string * string * float64 * string * string :=
  (Title i, Description i, EAN i, Price i, ImageURL i, CategoryPath i).

(** *** What a call leaves alone, and whether it returns *)

(** Every state a call can return in is related to the state it started
    in. *)
Definition preserves {A} (R : World -> World -> Prop) (m : M A) : Prop :=
  forall w a w', m w = Ok a w' -> R w w'.

(** From every state that satisfies [P] the call returns, in a state that
    satisfies [P]. *)
Definition returns {A} (P : World -> Prop) (m : M A) : Prop :=
  forall w, P w -> exists a w', m w = Ok a w' /\ P w'.

(** The tables are as before; only the count of statements sent may have
    grown. *)
Definition same_tables (d d' : DB) : Prop :=
  products d' = products d /\ categories d' = categories d
  /\ import_history d' = import_history d /\ feeds d' = feeds d.

(** Nothing but queries was sent: tables, engine and UUID supply are as
    before. *)
Definition only_queried (w w' : World) : Prop :=
  same_tables (db w) (db w') /\ eng w' = eng w /\ uuids w' = uuids w.

(** The engine is as before. *)
Definition same_engine (w w' : World) : Prop := eng w' = eng w.

(** Every regular-expression transform of the mappings has a pattern that
    compiles. *)
Definition patterns_compile (env : Env) (mappings : list FieldMapping) : bool :=
  forallb
    (fun m =>
       if String.eqb (fm_TransformType m) "regex" then
         match GoStrings.Split (fm_TransformValue m) "|||" with
         | [pattern; _] => bool_decide (is_Some (regexp_Compile env pattern))
         | _ => true
         end
       else true)
    mappings.

(** The engine is in a run (it has a progress record) and its feed asks
    for no transform that panics. *)
Definition in_run (env : Env) (w : World) : Prop :=
  is_Some (progress (eng w)) /\ patterns_compile env (f_FieldMappings (feed (eng w))) = true.

(** *** Counters *)

Inductive Counter := Created | Updated | Skipped | Errors.

(** The five counters of a progress record: processed, created, updated,
    skipped, errors. *)
Definition counters (p : ImportProgress) : Z * Z * Z * Z * Z :=
  (ip_Processed p, ip_Created p, ip_Updated p, ip_Skipped p, ip_Errors p).

(** The counters of the engine, if it has a progress record. *)
Definition cnt (w : World) : option (Z * Z * Z * Z * Z) := counters <$> progress (eng w).

(** [c++] for one of the four outcome counters. *)
Definition bump (c : Counter) (t : Z * Z * Z * Z * Z) : Z * Z * Z * Z * Z :=
  let '(pr, cr, up, sk, er) := t in
  match c with
  | Created => (pr, GoNum.incr cr, up, sk, er)
  | Updated => (pr, cr, GoNum.incr up, sk, er)
  | Skipped => (pr, cr, up, GoNum.incr sk, er)
  | Errors => (pr, cr, up, sk, GoNum.incr er)
  end.

(** [Processed++] and [c++]. *)
Definition count_item (c : Counter) (t : Z * Z * Z * Z * Z) : Z * Z * Z * Z * Z :=
  let '(pr, cr, up, sk, er) := bump c t in (GoNum.incr pr, cr, up, sk, er).

(** [processed == created + updated + skipped + errors], in [int]
    arithmetic. *)
Definition accounted (t : Z * Z * Z * Z * Z) : Prop :=
  let '(pr, cr, up, sk, er) := t in
  pr = GoNum.add64 (GoNum.add64 (GoNum.add64 cr up) sk) er.

Definition same_counters (w w' : World) : Prop := cnt w' = cnt w.

(** The accounting identity on the engine's counters, when it has a
    progress record. *)
Definition accounted_world (w : World) : Prop :=
  match cnt w with
  | Some t => accounted t
  | None => True
  end.

(** *** The token loop, turn by turn *)

(** At most [k] turns of the loop of [ParseXMLFull] from the [n]-th on:
    [inl err] if the loop returned within them, else the loop variables
    after them. *)
Fixpoint xml_turns {S} (env : Env) (k : nat) (p : FeedParser) (data : string)
    (callback : RawItem -> ST S error) (n : nat) (l : XMLLoop) : ST S (error + XMLLoop) :=
  match k with
  | O => mret (inr l)
  | Datatypes.S k' =>
      r ← xml_turn env p data callback n l;
      match r with
      | inl err => mret (inl err)
      | inr l' => xml_turns env k' p data callback (Datatypes.S n) l'
      end
  end.

Definition fails (r : TokenResult) : bool :=
  match r with TokErr _ => true | _ => false end.

(** What the callback has recorded when the loop has not returned. *)
Definition still_looping {S} (r : Res S (error + XMLLoop)) : option S :=
  match r with
  | Ok (inr _) s => Some s
  | _ => None
  end.

(** The loop does not return within [k] turns, whatever the fuel. *)
Definition spins_below {S} (env : Env) (k : nat) (p : FeedParser) (data : string)
    (callback : RawItem -> ST S error) (s : S) : bool :=
  forallb (fun fuel =>
             match ParseXMLFull env fuel p data callback s with
             | OutOfFuel => true
             | _ => false
             end) (List.seq 0 k).

(** ** Classes of bytes *)

(** Every byte of [s] satisfies [f]. *)
Fixpoint bytes_all (f : ascii -> bool) (s : string) : bool :=
  match s with
  | EmptyString => true
  | String c s' => f c && bytes_all f s'
  end.

(** A lower-case hexadecimal digit. *)
Definition is_hex (c : ascii) : bool :=
  GoStrings.is_digit c || ((97 <=? GoStrings.code c)%nat && (GoStrings.code c <=? 102)%nat).

(** The bytes a slug is made of: [a-z], [0-9] and the hyphen. *)
Definition is_slug_byte (c : ascii) : bool :=
  GoStrings.is_lower c || GoStrings.is_digit c || Ascii.eqb c "-".

(** ** The accent table of [generateSlug], pair by pair *)

(** The loop [for from, to := range replacements] of [generateSlug], with
    the pairs visited in the order [order]: Go leaves the order of a range
    over a map unspecified. *)
Definition replace_accents (order : list (string * string)) (slug : string) : string :=
  List.fold_left (fun (s : string) (r : string * string) => GoStrings.ReplaceAll s r.1 r.2)
    order slug.

(** One pass over [s] that rewrites every byte pair in the table, left to
    right. *)
Fixpoint translit (tbl : ascii -> ascii -> option ascii) (s : string) : string :=
  match s with
  | String a s1 =>
      match s1 with
      | String b s2 =>
          match tbl a b with
          | Some o => String o (translit tbl s2)
          | None => String a (translit tbl s1)
          end
      | EmptyString => s
      end
  | EmptyString => s
  end.

(** The table of a list of two-byte keys with one-byte replacements; the
    first pair with the key counts. *)
Fixpoint pair_table (rs : list (string * string)) (a b : ascii) : option ascii :=
  match rs with
  | [] => None
  | (String a' (String b' EmptyString), String o EmptyString) :: rest =>
      if Ascii.eqb a' a && Ascii.eqb b' b then Some o else pair_table rest a b
  | _ :: rest => pair_table rest a b
  end.

(** The first byte of a two-byte UTF-8 sequence, a continuation byte, and
    an ASCII byte. *)
Definition is_lead2 (c : ascii) : bool :=
  (192 <=? GoStrings.code c)%nat && (GoStrings.code c <=? 223)%nat.
Definition is_cont (c : ascii) : bool :=
  (128 <=? GoStrings.code c)%nat && (GoStrings.code c <=? 191)%nat.
Definition is_ascii_byte (c : ascii) : bool := (GoStrings.code c <? 128)%nat.

(** A two-byte UTF-8 letter with an ASCII replacement. *)
Definition accent_pair (r : string * string) : bool :=
  match r with
  | (String a (String b EmptyString), String o EmptyString) =>
      is_lead2 a && is_cont b && is_ascii_byte o
  | _ => false
  end.

(** ** Statements, mappings and category rows *)

(** The database after one more statement has been sent. *)
Definition sent (d : DB) : DB := set_statements (S (statements d)) d.

(** A feed whose mappings never assign the title. *)
Definition maps_no_title (f : Feed) : Prop :=
  f_FieldMappings f <> [] /\ Forall (fun m => fm_TargetField m <> "title") (f_FieldMappings f).

(** A part of a category path that names nothing. *)
Definition blank (part : string) : Prop := GoStrings.TrimSpace part = "".

(** A row as [getOrCreateCategory] inserts it for one of the [parts]. *)
Definition created_for (parts : list string) (c : Category) : Prop :=
  c_name c <> "" /\ In (c_name c) (GoStrings.TrimSpace <$> parts)
  /\ c_product_count c = 0 /\ c_is_active c = true.

(** The lookup of [findExistingProduct] cannot match: the feed matches by
    a field the item leaves empty, or by none of the four known fields. *)
Definition unmatchable (f : Feed) (item : FeedItem) : bool :=
  if String.eqb (f_MatchBy f) MatchByEAN then String.eqb (EAN item) ""
  else if String.eqb (f_MatchBy f) MatchBySKU then String.eqb (SKU item) ""
  else if String.eqb (f_MatchBy f) MatchByExternalID then String.eqb (ExternalID item) ""
  else negb (String.eqb (f_MatchBy f) MatchByTitle).

(** A database whose statements fail at the given positions. *)
Definition lab_failing (failing : list nat) : Env :=
  {| uuid_New := lab_uuid;
     db_fault := fun n => bool_decide (n ∈ failing);
     http_get := fun _ => inl "connection refused";
     xml_Token := GoXML.nth_Token;
     csv_ReadAll := GoCSV.ReadAll;
     json_Unmarshal := fun _ => inl "invalid character";
     fmt_v := fun _ => "";
     regexp_Compile := fun _ => None;
     stop_after := None;
     run_seconds := 0 |}.

(** ** The lookup of a product *)

(** The WHERE clause of [findExistingProduct] for a feed and an item, when
    a query is sent. *)
Definition match_clause (f : Feed) (item : FeedItem) : Product -> bool :=
  if String.eqb (f_MatchBy f) MatchByEAN then fun p => bool_decide (p_ean p = Some (EAN item))
  else if String.eqb (f_MatchBy f) MatchBySKU then fun p => bool_decide (p_sku p = Some (SKU item))
  else if String.eqb (f_MatchBy f) MatchByExternalID
  then fun p => bool_decide (p_external_id p = Some (ExternalID item))
  else fun p => String.eqb (p_title p) (Title item).

(** What [findExistingProduct] scans from the row its query returned. *)
Definition scanned (row : option Product) : string * string :=
  match row with
  | Some p => (p_id p, default "" (p_feed_checksum p))
  | None => ("", "")
  end.

(** ** The record of a run *)

(** The status of the progress record is as before. *)
Definition same_status (w w' : World) : Prop :=
  ip_Status <$> progress (eng w') = ip_Status <$> progress (eng w).

(** The five counters of a history row. *)
Definition history_counters (h : ImportHistory) : Z * Z * Z * Z * Z :=
  (ih_Processed h, ih_Created h, ih_Updated h, ih_Skipped h, ih_Errors h).

(** The engine has its progress record. *)
Definition ready (w : World) : Prop := is_Some (progress (eng w)).

(** The engine has its progress record, and no item has been counted. *)
Definition nothing_counted (w : World) : Prop := cnt w = Some (0, 0, 0, 0, 0).

(** The feed of the engine is as before. *)
Definition same_feed (w w' : World) : Prop := feed (eng w') = feed (eng w).

(** The parser [Run] sets up for a feed. *)
Definition run_parser (f : Feed) : FeedParser :=
  let p := NewFeedParser (f_FeedURL f) (f_FeedType f) in
  {| URL := URL p; Type_ := Type_ p; XMLItemPath := f_XMLItemPath f;
     CSVDelimiter := f_CSVDelimiter f; CSVHasHeader := CSVHasHeader p;
     MaxBytes := MaxBytes p; UserAgent := UserAgent p |}.

(** A feed type for which [Run] has a parser. *)
Definition known_type (feedType : string) : bool :=
  String.eqb feedType FeedTypeXML || String.eqb feedType FeedTypeCSV
  || String.eqb feedType FeedTypeJSON.

(** ** FeedParser: detection and preview *)

(** [strings.Count s sep] for a non-empty [sep]: one less than the number
    of pieces of [strings.Split], which is how [Split] sizes its result. *)
Definition Count (s sep : string) : Z := Z.of_nat (List.length (GoStrings.Split s sep)) - 1.

Definition TAB : string := String (GoStrings.byte_of 9) "".

Record ParseResult := {
  Items : list RawItem;
  Fields : list string;
  TotalCount : Z;
  ItemPath : string;
  Encoding : string;
  FeedType : string;
  Error : string;
  ParsedBytes : Z
}.

Record AutoMapping := {
  am_SourceField : string;
  am_TargetField : string;
  am_Confidence : float64
}.


Definition set_CSVDelimiter (v : string) (p : FeedParser) : FeedParser :=
  {| URL := URL p; Type_ := Type_ p; XMLItemPath := XMLItemPath p; CSVDelimiter := v;
     CSVHasHeader := CSVHasHeader p; MaxBytes := MaxBytes p; UserAgent := UserAgent p |}.

(** [detectXMLItemPath]: the first of the candidate names whose lower-case
    form follows a [<] somewhere in the lower-cased data. *)
Definition detectXMLItemPath (data : string) : string :=
  let lowerData := GoStrings.ToLower data in
  default "SHOPITEM"
    (List.find (fun path => GoStrings.Contains lowerData ("<" +:+ GoStrings.ToLower path))
       ["SHOPITEM"; "product"; "item"; "offer"; "entry"; "PRODUCT"; "ITEM"]).

Definition slice_out_of_range (high capacity : Z) : string :=
  "runtime error: slice bounds out of range [:" +:+ GoNum.itoa high +:+ "] with capacity "
  +:+ GoNum.itoa capacity.

(** [lines[1:5]]: the slice [Split] returns has its length for capacity, so
    fewer than five lines is a panic. *)
Definition lines_1_5 {S} (lines : list string) : ST S (list string) :=
  if (List.length lines <? 5)%nat
  then panic (slice_out_of_range 5 (Z.of_nat (List.length lines)))
  else mret (List.firstn 4 (List.skipn 1 lines)).

(** The body of the loop over the delimiters of [detectCSVDelimiter], for
    one delimiter [d], on [maxScore] and [best]. *)
Definition score_delimiter {S} (lines : list string) (d : string) (acc : Z * string)
    : ST S (Z * string) :=
  let '(maxScore, best) := acc in
  let firstCount := Count (List.hd "" lines) d in
  if (0 <? firstCount)%Z then
    sample ← lines_1_5 lines;
    let score :=
      Z.of_nat (List.length (List.filter (fun line => (Count line d =? firstCount)%Z) sample)) in
    mret (if (maxScore <? score)%Z then (score, d) else (maxScore, best))
  else mret (maxScore, best).

Fixpoint score_delimiters {S} (lines : list string) (ds : list string) (acc : Z * string)
    : ST S (Z * string) :=
  match ds with
  | [] => mret acc
  | d :: rest => acc' ← score_delimiter lines d acc; score_delimiters lines rest acc'
  end.

(** [detectCSVDelimiter]. *)
Definition detectCSVDelimiter {S} (data : string) : ST S string :=
  let lines := GoStrings.Split data LF in
  if (List.length lines <? 2)%nat then mret ";"
  else
    r ← score_delimiters lines [";"; ","; TAB; "|"] (0, ";");
    mret r.2.




Section Preview.

Context (env : Env).

(** The order in which a [range] over a Go map visits its keys. *)
Context (range_keys : gset string -> list string).

Definition the_parser : ST FeedParser FeedParser := fun p => Ok p p.








(** [previewCSV]. *)
Definition previewCSV (data : string) (limit : Z) : ST FeedParser (option ParseResult * error) :=
  p ← the_parser;
  (if String.eqb (CSVDelimiter p) ""
   then d ← detectCSVDelimiter data; modify (set_CSVDelimiter d)
   else mret tt);;
  p ← the_parser;
  match CSVDelimiter p with
  | EmptyString => panic index_out_of_range
  | String comma _ =>
      match csv_ReadAll env comma data with
      | inl err => mret (None, Some err)
      | inr records =>
          let result (items : list RawItem) (fields : list string) (total : Z) :=
            {| Items := items; Fields := fields; TotalCount := total; ItemPath := "";
               Encoding := ""; FeedType := "csv"; Error := "";
               ParsedBytes := Z.of_nat (String.length data) |} in
          match records with
          | [] => mret (Some (result [] [] 0), None)
          | headers :: rows =>
              mret (Some (result (csv_item headers <$> List.firstn (Z.to_nat limit) rows)
                            headers (Z.of_nat (List.length records) - 1)),
                    None)
          end
      end
  end.

(** The elements of a JSON array that are objects, as Go maps. *)
Definition objects (items : list JSON) : list RawItem :=
  omap (fun item => match item with JObject fields => Some (object_map fields) | _ => None end)
    items.

(** [previewJSON]. *)
Definition previewJSON (data : string) (limit : Z) : ST FeedParser (option ParseResult * error) :=
  match json_Unmarshal env data with
  | inl err => mret (None, Some ("JSON parse error: " +:+ err))
  | inr raw =>
      match findJSONProductsArray raw with
      | None => mret (None, Some "no products array found")
      | Some items =>
          let shown := objects (List.firstn (Z.to_nat limit) items) in
          let fieldsMap : gset string :=
            List.fold_left (fun (m : gset string) (item : RawItem) => m ∪ dom item) shown ∅ in
          mret (Some {| Items := shown; Fields := range_keys fieldsMap;
                        TotalCount := Z.of_nat (List.length items); ItemPath := "";
                        Encoding := ""; FeedType := "json"; Error := "";
                        ParsedBytes := Z.of_nat (String.length data) |},
                None)
      end
  end.

End Preview.

(** The table of [AutoDetectMappings]: for each target field the literals
    of its patterns [^literal$]. *)
Definition auto_patterns : list (string * list string) :=
  [ ("ean", ["ean"; "ean13"; "gtin"; "barcode"; "ITEM_ID"]);
    ("sku", ["sku"; "productno"; "kod"; "item_id"; "ITEMGROUP_ID"]);
    ("external_id", ["id"; "external_id"; "ext_id"]);
    ("title", ["productname"; "product"; "title"; "name"; "nazov"; "PRODUCTNAME"]);
    ("description", ["description"; "popis"; "desc"; "DESCRIPTION"]);
    ("price", ["price_vat"; "price"; "cena"; "PRICE_VAT"]);
    ("image_url", ["imgurl"; "img_url"; "image"; "foto"; "IMGURL"]);
    ("gallery_images", ["imgurl_alternative"; "gallery"; "images"]);
    ("affiliate_url", ["url"; "link"; "product_url"; "URL"]);
    ("category", ["categorytext"; "category"; "kategoria"; "CATEGORYTEXT"]);
    ("brand", ["manufacturer"; "brand"; "vyrobca"; "MANUFACTURER"]);
    ("stock_quantity", ["stock"; "quantity"; "sklad"; "STOCK_QUANTITY"]);
    ("delivery_time", ["delivery"; "delivery_date"; "dodanie"; "DELIVERY_DATE"]);
    ("attributes", ["param"; "params"; "PARAM"]) ].

(** [regexp.MatchString("(?i)^literal$", s)] for a literal of ASCII
    letters, digits and underscores and an ASCII [s]: equality up to the
    case of the letters. *)
Definition matches_literal (literal s : string) : bool := GoStrings.EqualFold literal s.

(** The target the loops over the table find for one field, with the
    targets visited in the order [order]. *)
Definition auto_target (order : list (string * list string)) (field : string) : option string :=
  let fieldLower := GoStrings.ToLower field in
  fst <$> List.find (fun tg => List.existsb (fun lit => matches_literal lit fieldLower) tg.2) order.

(** [AutoDetectMappings] from the [i]-th field on, with the range over the
    map of patterns taken in the order [order i] for the [i]-th field: Go
    leaves the order of each range over a map unspecified. *)
Fixpoint auto_mappings_from (order : nat -> list (string * list string)) (i : nat)
    (fields : list string) : list AutoMapping :=
  match fields with
  | [] => []
  | field :: rest =>
      match auto_target (order i) field with
      | Some target =>
          {| am_SourceField := field; am_TargetField := target;
             am_Confidence := GoNum.ParseFloat "0.9" |}
          :: auto_mappings_from order (S i) rest
      | None => auto_mappings_from order (S i) rest
      end
  end.

Definition AutoDetectMappings (order : nat -> list (string * list string))
    (fields : list string) : list AutoMapping :=
  auto_mappings_from order 0 fields.

(** ** Callbacks and whole feeds *)

(** A callback that returns in every state. *)
Definition always_returns {S} (callback : RawItem -> ST S error) : Prop :=
  forall item s, exists e s', callback item s = Ok e s'.

(** A feed with one item, whole. *)
Definition whole_feed : string := "<SHOP>" +:+ first_item +:+ "</SHOP>".

(** ** The loop of [previewXML], turn by turn *)



(** ** Delimiters, array keys and pattern targets *)

(** The delimiters [detectCSVDelimiter] tries, in its order. *)
Definition delimiters : list string := [";"; ","; TAB; "|"].

(** The first line of the data holds one of the delimiters. *)
Definition delimited (lines : list string) : bool :=
  List.existsb (fun d => (0 <? Count (List.hd "" lines) d)%Z) delimiters.

(** The keys under which [findJSONProductsArray] looks up the array of an
    object: each key of its list, and the lower-case form of each. *)
Definition array_keys : list string :=
  ["products"; "items"; "offers"; "data"; "results"; "SHOPITEM"; "shopitem"].

(** No two targets of the table share a pattern that matches [key]. *)
Definition one_target (key : string) : Prop :=
  forall t1 t2, t1 ∈ auto_patterns -> t2 ∈ auto_patterns ->
    List.existsb (fun lit => matches_literal lit key) t1.2 = true ->
    List.existsb (fun lit => matches_literal lit key) t2.2 = true ->
    t1 = t2.

(** * Properties *)

(** ** The library models on known values *)

Example Split_pipe :
  GoStrings.Split "Electronics|Phones|Smartphones" "|" = ["Electronics"; "Phones"; "Smartphones"].
Proof. reflexivity. Qed.

Example Split_arrow : GoStrings.Split "A > B > C" " > " = ["A"; "B"; "C"].
Proof. reflexivity. Qed.

Example Split_absent : GoStrings.Split "A > B" "|" = ["A > B"].
Proof. reflexivity. Qed.

Example Split_empty : GoStrings.Split "" "|" = [""].
Proof. reflexivity. Qed.

Example Split_regex_payload : GoStrings.Split "a+|||b" "|||" = ["a+"; "b"].
Proof. reflexivity. Qed.

Example LastIndex_ex : GoStrings.LastIndex "<a></a><a></a><a>" "</a>" = Some 10%nat.
Proof. reflexivity. Qed.

Example TrimSpace_ex : GoStrings.TrimSpace "  Phones " = "Phones".
Proof. reflexivity. Qed.

Example ReplaceAll_ex : GoStrings.ReplaceAll "1,234,5" "," "." = "1.234.5".
Proof. reflexivity. Qed.

Example itoa_ex : GoNum.itoa 1024 = "1024" /\ GoNum.itoa 0 = "0" /\ GoNum.itoa (-37) = "-37".
Proof. repeat split. Qed.

Example Atoi_ex :
  GoNum.Atoi "12" = 12 /\ GoNum.Atoi "-7" = -7 /\ GoNum.Atoi "1x" = 0 /\ GoNum.Atoi "" = 0.
Proof. repeat split. Qed.

(** 19.99 is the double 0x4033FD70A3D70A3D. *)
Example ParseFloat_1999 :
  GoNum.ParseFloat "19.99" = S754_finite false 5626684784446013 (-48).
Proof. vm_compute. reflexivity. Qed.

Example ParseFloat_bad : GoNum.ParseFloat "1.234.56" = S754_zero false.
Proof. reflexivity. Qed.

Example fmt_f2_ex :
  GoNum.fmt_f2 (GoNum.ParseFloat "19.99") = "19.99"
  /\ GoNum.fmt_f2 (GoNum.ParseFloat "5") = "5.00"
  /\ GoNum.fmt_f2 (GoNum.ParseFloat "0.125") = "0.12"
  /\ GoNum.fmt_f2 (GoNum.ParseFloat "0.375") = "0.38"
  /\ GoNum.fmt_f2 (GoNum.ParseFloat "1.005") = "1.00"
  /\ GoNum.fmt_f2 (GoNum.ParseFloat "2.675") = "2.67"
  /\ GoNum.fmt_f2 (GoNum.ParseFloat "1234567.891") = "1234567.89".
Proof. vm_compute. repeat split. Qed.

(** The test suite of RFC 1321. *)
Example md5_rfc1321 :
  MD5.EncodeToString (MD5.Sum "") = "d41d8cd98f00b204e9800998ecf8427e"
  /\ MD5.EncodeToString (MD5.Sum "a") = "0cc175b9c0f1b6a831c399e269772661"
  /\ MD5.EncodeToString (MD5.Sum "abc") = "900150983cd24fb0d6963f7d28e17f72"
  /\ MD5.EncodeToString (MD5.Sum "message digest") = "f96b697d7cb7938d525a2f31aaf161d0"
  /\ MD5.EncodeToString
       (MD5.Sum "12345678901234567890123456789012345678901234567890123456789012345678901234567890")
     = "57edf4a22be3c955ac49da2e2107b67a".
Proof. vm_compute. repeat split. Qed.

Example csv_ReadAll_plain :
  GoCSV.ReadAll ";" ("a;b;c" +:+ LF +:+ "1;2;3" +:+ CR +:+ LF +:+ LF +:+ "4; 5;6")
  = inr [["a"; "b"; "c"]; ["1"; "2"; "3"]; ["4"; "5"; "6"]].
Proof. vm_compute. reflexivity. Qed.

Example csv_ReadAll_quoted :
  let q := GoCSV.quote in
  GoCSV.ReadAll "," ("h1,h2" +:+ LF +:+ q +:+ "x,1" +:+ q +:+ "," +:+ q +:+ "say " +:+ q +:+ q
                     +:+ "hi" +:+ q +:+ q +:+ q +:+ LF)
  = inr [["h1"; "h2"]; ["x,1"; "say " +:+ q +:+ "hi" +:+ q]].
Proof. vm_compute. reflexivity. Qed.

Example csv_ReadAll_short_row :
  GoCSV.ReadAll ";" ("a;b;c" +:+ LF +:+ "1;2" +:+ LF)
  = inl "record on line 2: wrong number of fields".
Proof. vm_compute. reflexivity. Qed.

Example xml_tokens_small :
  List.map (GoXML.nth_Token "<S><I><A>1</A></I></S>") (List.seq 0 10)
  = [Tok (StartElement "S"); Tok (StartElement "I"); Tok (StartElement "A");
     Tok (CharData "1"); Tok (EndElement "A"); Tok (EndElement "I");
     Tok (EndElement "S"); TokEOF; TokEOF; TokEOF].
Proof. vm_compute. reflexivity. Qed.

Example xml_tokens_truncated :
  List.map (GoXML.nth_Token "<S><I><A>1") (List.seq 0 7)
  = [Tok (StartElement "S"); Tok (StartElement "I"); Tok (StartElement "A");
     Tok (CharData "1"); TokErr GoXML.unexpected_EOF; TokErr GoXML.unexpected_EOF;
     TokErr GoXML.unexpected_EOF].
Proof. vm_compute. reflexivity. Qed.

(** ** Byte strings *)

Lemma append_length (a b : string) :
  String.length (a +:+ b) = (String.length a + String.length b)%nat.
Proof. induction a as [|c a IH]; simpl; [reflexivity | now rewrite IH]. Qed.

Lemma append_inv_head (p a b : string) : p +:+ a = p +:+ b -> a = b.
Proof. induction p as [|c p IH]; simpl; intros H; [exact H | injection H; auto]. Qed.

Lemma append_inv_tail (t a b : string) : a +:+ t = b +:+ t -> a = b.
Proof.
  revert b; induction a as [|c a IH]; intros [|c' b] H; simpl in H.
  - reflexivity.
  - apply (f_equal String.length) in H; simpl in H; rewrite ?append_length in H; simpl in H; lia.
  - apply (f_equal String.length) in H; simpl in H; rewrite ?append_length in H; simpl in H; lia.
  - injection H as -> H; f_equal; auto.
Qed.

Lemma split_from_not_nil (sep s : string) (skip : nat) (cur : string) :
  GoStrings.split_from sep s skip cur <> [].
Proof.
  revert skip cur; induction s as [|c s IH]; intros [|k] cur; simpl; try discriminate.
  - match goal with |- (if ?b then _ else _) <> _ => destruct b end;
      [discriminate | apply IH].
  - apply IH.
Qed.

(** [strings.Split] with a non-empty separator returns at least one piece. *)
Lemma Split_length_pos (s sep : string) : (List.length (GoStrings.Split s sep) =? 0)%nat = false.
Proof.
  unfold GoStrings.Split.
  destruct (GoStrings.split_from sep s 0 "") eqn:E; [|reflexivity].
  now apply split_from_not_nil in E.
Qed.

(** ** The state monad *)

Lemma bind_Ok {S A B} (m : ST S A) (f : A -> ST S B) (s s' : S) (a : A) :
  m s = Ok a s' -> (m ≫= f) s = f a s'.
Proof. intros H; unfold mbind, ST_bind; now rewrite H. Qed.

(** Splitting a successful bind into its two halves. *)
Lemma bind_inv {S A B} (m : ST S A) (f : A -> ST S B) (s s' : S) (b : B) :
  (m ≫= f) s = Ok b s' -> exists a s1, m s = Ok a s1 /\ f a s1 = Ok b s'.
Proof.
  unfold mbind, ST_bind; destruct (m s) as [a s1| |] eqn:E; intros H; try discriminate.
  eauto.
Qed.

(** ** Category paths (C5) *)

(** The two fallback splits are dead code: the pieces are always those of
    the split on the vertical bar. *)
Lemma category_parts_is_pipe_split (path : string) :
  category_parts path = GoStrings.Split path "|".
Proof. unfold category_parts; now rewrite !Split_length_pos. Qed.

(** C5, at a failing input.  The claim: a path with [" > "] and no ["|"] is
    resolved segment by segment.  The code: [strings.Split] never returns
    an empty slice, so the tests [len(parts) == 0] never fire; the path
    "Phones > Smartphones" stays one segment and one category of that name
    is created (likewise for "/"). *)
Theorem C5_arrow_path_is_one_segment :
  let f := demo_feed FeedTypeCSV MatchByEAN ImportModeCreateUpdate in
  let w := mid_run (empty_catalog f) f 0 in
  category_parts "Phones > Smartphones" = ["Phones > Smartphones"]
  /\ category_parts "Phones/Smartphones" = ["Phones/Smartphones"]
  /\ c_name <$> categories (db (resolved (lab "" None) "Phones > Smartphones" w).1)
     = ["Phones > Smartphones"]
  /\ c_name <$> categories (db (resolved (lab "" None) "Phones/Smartphones" w).1)
     = ["Phones/Smartphones"]
  /\ c_name <$> categories (db (resolved (lab "" None) "Phones|Smartphones" w).1)
     = ["Phones"; "Smartphones"].
Proof. vm_compute. repeat split. Qed.

(** ** Fingerprints (C6) *)

Ltac strip_common_prefix H :=
  repeat match type of H with
         | ?p +:+ _ = ?p +:+ _ => apply append_inv_head in H
         end.

Ltac field_projections :=
  cbn [Title Description EAN Price ImageURL CategoryPath] in *.

Lemma checksum_data_deterministic (a b : FeedItem) :
  fingerprint_fields a = fingerprint_fields b -> checksum_data a = checksum_data b.
Proof.
  unfold fingerprint_fields, checksum_data; intros H.
  injection H as -> -> -> -> -> ->; reflexivity.
Qed.

(** C6, counterexample.  The upstream price moves from 19.99 to 19.994 and
    nothing else changes: the two prices are different doubles, both are
    printed as "19.99" by [%.2f], and the fingerprints are equal. *)
Lemma C6_price_change_keeps_fingerprint :
  let a := set_Price (parsePrice "19.99") (set_EAN "8590001" (set_Title "Phone" FeedItem_zero)) in
  let b := set_Price (parsePrice "19.994") a in
  Price a <> Price b
  /\ (Title a, Description a, EAN a, ImageURL a, CategoryPath a)
     = (Title b, Description b, EAN b, ImageURL b, CategoryPath b)
  /\ calculateChecksum a = calculateChecksum b.
Proof. vm_compute. repeat split. discriminate. Qed.

(** C6, amended.  Equal values of the six fields give equal fingerprints.
    Changing one of the five text fields alone changes the text that is
    hashed; changing the price alone changes it exactly when the price
    printed with two decimals changes, and a price with the same two
    decimals leaves the fingerprint as it was. *)
Theorem C6_fingerprint_determinism (a b : FeedItem) :
  (fingerprint_fields a = fingerprint_fields b -> calculateChecksum a = calculateChecksum b)
  /\ (forall v, v <> Title a -> checksum_data (set_Title v a) <> checksum_data a)
  /\ (forall v, v <> Description a -> checksum_data (set_Description v a) <> checksum_data a)
  /\ (forall v, v <> EAN a -> checksum_data (set_EAN v a) <> checksum_data a)
  /\ (forall v, v <> ImageURL a -> checksum_data (set_ImageURL v a) <> checksum_data a)
  /\ (forall v, v <> CategoryPath a -> checksum_data (set_CategoryPath v a) <> checksum_data a)
  /\ (forall p, checksum_data (set_Price p a) = checksum_data a
                <-> GoNum.fmt_f2 p = GoNum.fmt_f2 (Price a))
  /\ (forall p, GoNum.fmt_f2 p = GoNum.fmt_f2 (Price a)
                -> calculateChecksum (set_Price p a) = calculateChecksum a).
Proof.
  assert (Hprice : forall p, checksum_data (set_Price p a) = checksum_data a
                             <-> GoNum.fmt_f2 p = GoNum.fmt_f2 (Price a)).
  { intros p; unfold checksum_data, set_Price; field_projections; split; intros H.
    - strip_common_prefix H. exact (append_inv_tail _ _ _ H).
    - now rewrite H. }
  repeat split.
  - intros H; unfold calculateChecksum; now rewrite (checksum_data_deterministic a b H).
  - intros v Hv H; apply Hv; unfold checksum_data, set_Title in H; field_projections.
    exact (append_inv_tail _ _ _ H).
  - intros v Hv H; apply Hv; unfold checksum_data, set_Description in H; field_projections.
    strip_common_prefix H. exact (append_inv_tail _ _ _ H).
  - intros v Hv H; apply Hv; unfold checksum_data, set_EAN in H; field_projections.
    strip_common_prefix H. exact (append_inv_tail _ _ _ H).
  - intros v Hv H; apply Hv; unfold checksum_data, set_ImageURL in H; field_projections.
    strip_common_prefix H. exact (append_inv_tail _ _ _ H).
  - intros v Hv H; apply Hv; unfold checksum_data, set_CategoryPath in H; field_projections.
    strip_common_prefix H. exact H.
  - apply Hprice.
  - apply Hprice.
  - intros p Hp; unfold calculateChecksum; now rewrite (proj2 (Hprice p) Hp).
Qed.

(** ** What a call leaves alone *)

Section Preserves.

Context (R : World -> World -> Prop) `{!PreOrder R}.

Lemma preserves_ret {A} (a : A) : preserves R (mret a).
Proof. intros w a' w' H; injection H as _ <-; reflexivity. Qed.

Lemma preserves_bind {A B} (m : M A) (f : A -> M B) :
  preserves R m -> (forall a, preserves R (f a)) -> preserves R (m ≫= f).
Proof.
  intros Hm Hf w b w' H.
  destruct (bind_inv _ _ _ _ _ H) as (a & w1 & H1 & H2).
  etransitivity; [exact (Hm _ _ _ H1) | exact (Hf _ _ _ _ H2)].
Qed.

Lemma preserves_panic {A} (msg : string) : preserves R (panic msg : M A).
Proof. intros w a w' H; discriminate H. Qed.

Lemma preserves_the_engine : preserves R the_engine.
Proof. intros w a w' H; injection H as _ <-; reflexivity. Qed.

Lemma preserves_the_progress : preserves R the_progress.
Proof.
  intros w a w' H; unfold the_progress in H.
  destruct (progress (eng w)); [injection H as _ <-; reflexivity | discriminate H].
Qed.

Lemma preserves_modify (f : World -> World) :
  (forall w, R w (f w)) -> preserves R (modify f).
Proof. intros Hf w a w' H; injection H as _ <-; apply Hf. Qed.

End Preserves.

Create HintDb keeps.

#[global] Hint Resolve preserves_ret preserves_panic preserves_the_engine
  preserves_the_progress : keeps.

(** Goes through a computation built from binds, matches and
    conditionals, leaving the calls it does not know. *)
Ltac keeps :=
  repeat first
    [ solve [eauto with keeps typeclass_instances]
    | apply preserves_bind; try exact _; [| intros ?]
    | match goal with
      | |- preserves _ (match ?x with _ => _ end) => destruct x
      end ].

#[global] Instance same_tables_preorder : PreOrder same_tables.
Proof.
  split.
  - intros d; now repeat split.
  - intros a b c (H1 & H2 & H3 & H4) (K1 & K2 & K3 & K4); repeat split; congruence.
Qed.

#[global] Instance only_queried_preorder : PreOrder only_queried.
Proof.
  split.
  - intros w; repeat split; reflexivity.
  - intros a b c (H1 & H2 & H3) (K1 & K2 & K3); split; [|split; congruence].
    etransitivity; eassumption.
Qed.

Lemma QueryRow_only_queried env {A} (q : DB -> option A) :
  preserves only_queried (QueryRow env q).
Proof.
  intros w a w' H; unfold QueryRow, statement in H.
  destruct (db_fault env (statements (db w))); injection H as _ <-; now repeat split.
Qed.

#[global] Hint Resolve QueryRow_only_queried : keeps.

Lemma findExistingProduct_only_queried env (item : FeedItem) :
  preserves only_queried (findExistingProduct env item).
Proof. unfold findExistingProduct, scan_product; keeps. Qed.

(** ** The checksum short-circuit (C3) *)

Lemma on_progress_Ok (f : ImportProgress -> ImportProgress) (w : World) (p : ImportProgress) :
  progress (eng w) = Some p ->
  on_progress f w = Ok tt (set_eng (set_progress (Some (f p)) (eng w)) w).
Proof. intros H; unfold on_progress, the_progress, mbind, ST_bind; now rewrite H. Qed.

(** C3.  When the lookup by the feed's match field finds a product whose
    stored fingerprint is the item's, [processItem] returns nil, no table is
    written, no UUID is drawn, the category cache is as before, and of the
    engine only the skipped counter has changed.  The feed of [w] is
    arbitrary, so this holds in every import mode. *)
Theorem C3_unchanged_item_is_skipped (env : Env) (w w1 : World) (item : FeedItem)
    (id : string) (p : ImportProgress) :
  progress (eng w) = Some p ->
  findExistingProduct env item w = Ok (id, calculateChecksum item) w1 ->
  id <> "" ->
  exists w',
    processItem env item w = Ok None w'
    /\ same_tables (db w) (db w')
    /\ uuids w' = uuids w
    /\ eng w' = set_progress (Some (set_ip_Skipped (GoNum.incr (ip_Skipped p)) p)) (eng w).
Proof.
  intros Hp Hfind Hid.
  destruct (findExistingProduct_only_queried env item _ _ _ Hfind) as (Htab & Heng & Huuid).
  assert (Hp1 : progress (eng w1) = Some p) by now rewrite Heng.
  eexists; split.
  - unfold processItem. rewrite (bind_Ok _ _ _ _ _ Hfind).
    rewrite String.eqb_refl, (proj2 (String.eqb_neq id "") Hid); simpl.
    unfold mbind at 1, ST_bind at 1.
    rewrite (on_progress_Ok _ _ _ Hp1). reflexivity.
  - simpl. rewrite Heng. repeat split; try apply Htab; assumption.
Qed.

Lemma C3_unchanged_item_is_skipped_witness :
  let f := demo_feed "csv" "ean" "create_only" in
  let w := mid_run (catalog_with_phone f) f 0 in
  exists w',
    processItem (lab "" None) phone w = Ok None w'
    /\ same_tables (db w) (db w')
    /\ uuids w' = uuids w
    /\ (ip_Processed <$> progress (eng w'), ip_Created <$> progress (eng w'),
        ip_Updated <$> progress (eng w'), ip_Skipped <$> progress (eng w'),
        ip_Errors <$> progress (eng w'))
       = (Some 0, Some 0, Some 0, Some 1, Some 0).
Proof.
  intros f w.
  destruct (C3_unchanged_item_is_skipped (lab "" None) w
              (set_db (set_statements 1 (db w)) w) phone "p-1"
              (default (Build_ImportProgress "" "" "" 0 0 0 0 0 0 0 "" "" [])
                 (progress (eng w))))
    as (w' & H1 & H2 & H3 & H4).
  - reflexivity.
  - vm_compute. reflexivity.
  - discriminate.
  - exists w'; split; [exact H1 | split; [exact H2 | split; [exact H3 |]]].
    rewrite H4; vm_compute; reflexivity.
Defined.

(** ** Counter accounting (C10) *)

Lemma count_item_accounted (c : Counter) (t : Z * Z * Z * Z * Z) :
  accounted t -> accounted (count_item c t).
Proof.
  destruct t as [[[[pr cr] up] sk] er]; unfold accounted, count_item, bump; intros ->.
  destruct c; unfold GoNum.incr, GoNum.add64, GoNum.wrap64;
    change (2 ^ 63) with 9223372036854775808;
    change (2 ^ 64) with 18446744073709551616;
    Z.div_mod_to_equations; lia.
Qed.

#[global] Instance same_counters_preorder : PreOrder same_counters.
Proof. split; unfold same_counters; [intros w | intros a b c]; congruence. Qed.

Lemma on_engine_same_counters (f : ImportEngine -> ImportEngine) :
  (forall e, progress (f e) = progress e) -> preserves same_counters (on_engine f).
Proof.
  intros Hf; apply preserves_modify; intros w.
  unfold same_counters, cnt; simpl; now rewrite Hf.
Qed.

Lemma on_progress_inv (f : ImportProgress -> ImportProgress) (w w' : World) (u : unit) :
  on_progress f w = Ok u w' ->
  exists p, progress (eng w) = Some p /\ w' = set_eng (set_progress (Some (f p)) (eng w)) w.
Proof.
  unfold on_progress, the_progress, mbind, ST_bind.
  destruct (progress (eng w)) as [p|] eqn:E; [|discriminate].
  intros H; injection H as <-; eauto.
Qed.

(** An assignment to the progress record acts on the counters as [g]. *)
Lemma on_progress_cnt (f : ImportProgress -> ImportProgress) (g : Z * Z * Z * Z * Z -> _)
    (w w' : World) (u : unit) :
  (forall p, counters (f p) = g (counters p)) ->
  on_progress f w = Ok u w' ->
  exists t, cnt w = Some t /\ cnt w' = Some (g t).
Proof.
  intros Hf H; destruct (on_progress_inv _ _ _ _ H) as (p & Hp & ->).
  exists (counters p); unfold cnt; simpl; rewrite Hp; simpl; now rewrite Hf.
Qed.

Lemma on_progress_same_counters (f : ImportProgress -> ImportProgress) :
  (forall p, counters (f p) = counters p) -> preserves same_counters (on_progress f).
Proof.
  intros Hf w u w' H.
  destruct (on_progress_cnt f (fun t => t) _ _ _ Hf H) as (t & H1 & H2).
  unfold same_counters; congruence.
Qed.

Lemma statement_same_counters env {A} (run : DB -> A * DB) (failed : A) :
  preserves same_counters (statement env run failed).
Proof.
  intros w a w' H; unfold statement in H.
  destruct (db_fault env (statements (db w))); [injection H as _ <-; reflexivity|].
  destruct (run _) as [a' d']; injection H as _ <-; reflexivity.
Qed.

Lemma uuid_same_counters env : preserves same_counters (uuid_New_String env).
Proof. intros w a w' H; injection H as _ <-; reflexivity. Qed.

Lemma applyTransform_pure env (value tt tv : string) (w w' : World) (r : string) :
  applyTransform env value tt tv w = Ok r w' -> w' = w.
Proof.
  unfold applyTransform; intros H.
  repeat match type of H with
         | (if ?b then _ else _) _ = _ => destruct b
         | (match ?x with _ => _ end) _ = _ => destruct x
         end;
    solve [injection H as _ <-; reflexivity | discriminate H].
Qed.

Lemma applyTransform_same_counters env (value tt tv : string) :
  preserves same_counters (applyTransform env value tt tv).
Proof. intros w a w' H; apply applyTransform_pure in H; subst; reflexivity. Qed.

#[global] Hint Resolve statement_same_counters uuid_same_counters
  applyTransform_same_counters : keeps.
#[global] Hint Extern 1 (preserves same_counters (Exec _ _)) =>
  apply statement_same_counters : keeps.
#[global] Hint Extern 1 (preserves same_counters (QueryRow _ _)) =>
  apply statement_same_counters : keeps.
#[global] Hint Extern 1 (preserves same_counters (on_engine _)) =>
  apply on_engine_same_counters; intros; reflexivity : keeps.
#[global] Hint Extern 1 (preserves same_counters (on_progress _)) =>
  apply on_progress_same_counters; intros; reflexivity : keeps.

Lemma generateSlug_same_counters env (text : string) :
  preserves same_counters (generateSlug env text).
Proof. unfold generateSlug; keeps. Qed.

#[global] Hint Resolve generateSlug_same_counters : keeps.

Lemma resolve_parts_same_counters env (parts : list string) :
  forall parentID lastID, preserves same_counters (resolve_parts env parts parentID lastID).
Proof.
  induction parts as [|part rest IH]; intros parentID lastID; simpl.
  - keeps.
  - destruct (String.eqb (GoStrings.TrimSpace part) ""); [apply IH|].
    unfold Exec; keeps; apply IH.
Qed.

#[global] Hint Resolve resolve_parts_same_counters : keeps.

Lemma getOrCreateCategory_same_counters env (categoryPath : string) :
  preserves same_counters (getOrCreateCategory env categoryPath).
Proof. unfold getOrCreateCategory; keeps. Qed.

Lemma findExistingProduct_same_counters env (item : FeedItem) :
  preserves same_counters (findExistingProduct env item).
Proof. unfold findExistingProduct, scan_product; keeps. Qed.

Lemma createProduct_same_counters env (item : FeedItem) (categoryID : option string)
    (checksum : string) :
  preserves same_counters (createProduct env item categoryID checksum).
Proof. unfold createProduct; keeps. Qed.

Lemma updateProduct_same_counters env (id : string) (item : FeedItem)
    (categoryID : option string) (checksum : string) :
  preserves same_counters (updateProduct env id item categoryID checksum).
Proof. unfold updateProduct; keeps. Qed.

Lemma apply_mappings_same_counters env (raw : RawItem) (mappings : list FieldMapping) :
  forall item, preserves same_counters (apply_mappings env raw mappings item).
Proof.
  induction mappings as [|m rest IH]; intros item; simpl; keeps; apply IH.
Qed.

#[global] Hint Resolve apply_mappings_same_counters : keeps.

Lemma mapItem_same_counters env (raw : RawItem) : preserves same_counters (mapItem env raw).
Proof. unfold mapItem; keeps. Qed.

Lemma log_same_counters (level message : string) : preserves same_counters (log level message).
Proof. unfold log; keeps. Qed.

Lemma updateProgress_same_counters (message : string) :
  preserves same_counters (updateProgress message).
Proof.
  unfold updateProgress; apply preserves_bind; try exact _.
  - apply on_progress_same_counters; intros p; reflexivity.
  - intros _; apply on_progress_same_counters; intros p; now destruct (0 <? ip_Total p)%Z.
Qed.

#[global] Hint Resolve getOrCreateCategory_same_counters findExistingProduct_same_counters
  createProduct_same_counters updateProduct_same_counters mapItem_same_counters
  log_same_counters updateProgress_same_counters : keeps.

Lemma updateProgressStats_same_counters : preserves same_counters updateProgressStats.
Proof. unfold updateProgressStats; keeps. Qed.

Lemma Stop_same_counters : preserves same_counters Stop.
Proof. unfold Stop; keeps. Qed.

#[global] Hint Resolve updateProgressStats_same_counters Stop_same_counters : keeps.

Lemma concurrent_stop_same_counters env : preserves same_counters (concurrent_stop env).
Proof. unfold concurrent_stop; keeps. Qed.

(** Splits a hypothesis [(m ≫= f) w = Ok r w'] into the two calls: [H1]
    for [m], which returns [a] in state [s], and [H] for [f a]. *)
Tactic Notation "bind_inv" hyp(H) "as" simple_intropattern(a) ident(s) ident(H1) :=
  apply bind_inv in H; destruct H as (a & s & H1 & H).

Lemma ret_inv {S A} (a b : A) (s s' : S) :
  (mret a : ST S A) s = Ok b s' -> b = a /\ s' = s.
Proof. intros H; injection H as <- <-; auto. Qed.

(** [processItem] bumps one of created, updated and skipped when it
    returns nil, and no counter when it returns an error. *)
Lemma processItem_counters env (item : FeedItem) (w w' : World) (err : error) :
  processItem env item w = Ok err w' ->
  match err with
  | Some _ => cnt w' = cnt w
  | None => exists c t, c <> Errors /\ cnt w = Some t /\ cnt w' = Some (bump c t)
  end.
Proof.
  unfold processItem; intros H.
  bind_inv H as [existingID checksum] w0 Hfind.
  pose proof (findExistingProduct_same_counters env item _ _ _ Hfind) as K0.
  destruct (negb (String.eqb existingID "") && String.eqb checksum (calculateChecksum item)).
  { bind_inv H as u w1 Hskip. apply ret_inv in H as [-> ->].
    apply (on_progress_cnt _ (bump Skipped)) in Hskip as (t & E1 & E2); [|intros p; reflexivity].
    exists Skipped, t; repeat split; [discriminate | congruence | exact E2]. }
  bind_inv H as categoryID w1 Hcat.
  assert (K1 : same_counters w0 w1).
  { destruct (negb (String.eqb (CategoryPath item) "")).
    - exact (getOrCreateCategory_same_counters env _ _ _ _ Hcat).
    - apply ret_inv in Hcat as [_ ->]; reflexivity. }
  destruct (negb (String.eqb existingID "")).
  - bind_inv H as e w2 Hupd.
    pose proof (updateProduct_same_counters env _ _ _ _ _ _ _ Hupd) as K2.
    destruct e as [e|].
    + apply ret_inv in H as [-> ->]. unfold same_counters in *; congruence.
    + bind_inv H as u w3 Hinc. apply ret_inv in H as [-> ->].
      apply (on_progress_cnt _ (bump Updated)) in Hinc as (t & E1 & E2); [|intros p; reflexivity].
      exists Updated, t; repeat split; [discriminate | | exact E2].
      unfold same_counters in *; congruence.
  - bind_inv H as e w2 Hnew.
    pose proof (createProduct_same_counters env _ _ _ _ _ _ Hnew) as K2.
    destruct e as [e|].
    + apply ret_inv in H as [-> ->]. unfold same_counters in *; congruence.
    + bind_inv H as u w3 Hinc. apply ret_inv in H as [-> ->].
      apply (on_progress_cnt _ (bump Created)) in Hinc as (t & E1 & E2); [|intros p; reflexivity].
      exists Created, t; repeat split; [discriminate | | exact E2].
      unfold same_counters in *; congruence.
Qed.

Lemma bump_after_processed (c : Counter) (t : Z * Z * Z * Z * Z) :
  bump c (let '(pr, cr, up, sk, er) := t in (GoNum.incr pr, cr, up, sk, er)) = count_item c t.
Proof. destruct t as [[[[pr cr] up] sk] er]; destruct c; reflexivity. Qed.

(** The callback leaves the counters alone when it returns an error (the
    stop request), and otherwise counts the item once as processed and once
    under one outcome. *)
Lemma processCallback_counters env (item : RawItem) (w w' : World) (err : error) :
  processCallback env item w = Ok err w' ->
  match err with
  | Some _ => cnt w' = cnt w
  | None => exists c t, cnt w = Some t /\ cnt w' = Some (count_item c t)
  end.
Proof.
  unfold processCallback; intros H.
  bind_inv H as e w0 He. apply ret_inv in He as [-> ->].
  destruct (shouldStop (eng w)); [apply ret_inv in H as [-> ->]; reflexivity|].
  bind_inv H as u w1 Hproc.
  apply (on_progress_cnt _ (fun '(pr, cr, up, sk, er) => (GoNum.incr pr, cr, up, sk, er)))
    in Hproc as (t & E0 & E1); [|intros p; reflexivity].
  bind_inv H as feedItem w2 Hmap.
  pose proof (mapItem_same_counters env _ _ _ _ Hmap) as K; unfold same_counters in K.
  assert (Hone : forall c u' w3,
            on_progress (fun p => match c with
                                  | Skipped => set_ip_Skipped (GoNum.incr (ip_Skipped p)) p
                                  | _ => set_ip_Errors (GoNum.incr (ip_Errors p)) p
                                  end) w2 = Ok u' w3 ->
            (c = Skipped \/ c = Errors) ->
            cnt w3 = Some (count_item c t)).
  { intros c u' w3 Hc Hor.
    apply (on_progress_cnt _ (bump c)) in Hc as (t' & E2 & E3);
      [|intros p; destruct Hor as [-> | ->]; reflexivity].
    rewrite E3; f_equal. rewrite <- bump_after_processed; f_equal. congruence. }
  destruct feedItem as [feedItem|].
  2:{ bind_inv H as u' w3 Hinc. apply ret_inv in H as [-> ->].
      exists Skipped, t; split; [exact E0 | exact (Hone Skipped _ _ Hinc (or_introl eq_refl))]. }
  destruct (String.eqb (Title feedItem) "").
  { bind_inv H as u' w3 Hinc. apply ret_inv in H as [-> ->].
    exists Errors, t; split; [exact E0 | exact (Hone Errors _ _ Hinc (or_intror eq_refl))]. }
  destruct (GoNum.is_zero (Price feedItem)).
  { bind_inv H as u' w3 Hinc. apply ret_inv in H as [-> ->].
    exists Errors, t; split; [exact E0 | exact (Hone Errors _ _ Hinc (or_intror eq_refl))]. }
  bind_inv H as perr w3 Hitem. pose proof (processItem_counters env _ _ _ _ Hitem) as KI.
  destruct perr as [msg|].
  - bind_inv H as u' w4 Hinc. bind_inv H as u'' w5 Hlog.
    apply ret_inv in H as [-> ->].
    pose proof (log_same_counters _ _ _ _ _ Hlog) as KL; unfold same_counters in KL.
    apply (on_progress_cnt _ (bump Errors)) in Hinc as (t' & E2 & E3); [|intros p; reflexivity].
    exists Errors, t; split; [exact E0|].
    rewrite KL, E3; f_equal. rewrite <- bump_after_processed; f_equal. congruence.
  - destruct KI as (c & t' & _ & E2 & E3).
    bind_inv H as p w4 Hp. bind_inv H as u' w5 Hstats. apply ret_inv in H as [-> ->].
    apply preserves_the_progress with (R := same_counters) in Hp; try exact _.
    assert (K4 : same_counters w4 w5).
    { destruct (Z.rem (ip_Processed p) 50 =? 0)%Z.
      - exact (updateProgressStats_same_counters _ _ _ Hstats).
      - apply ret_inv in Hstats as [_ ->]; reflexivity. }
    unfold same_counters in *.
    exists c, t; split; [exact E0|].
    rewrite K4, Hp, E3; f_equal. rewrite <- bump_after_processed; f_equal. congruence.
Qed.

Lemma for_each_invariant {S A} (Inv : S -> Prop) (callback : A -> ST S error) :
  (forall item s e s', callback item s = Ok e s' -> Inv s -> Inv s') ->
  forall items s e s', for_each callback items s = Ok e s' -> Inv s -> Inv s'.
Proof.
  intros Hcb items; induction items as [|item rest IH]; intros s e s' H Hs; simpl in H.
  - apply ret_inv in H as [_ ->]; exact Hs.
  - bind_inv H as a s1 H1.
    pose proof (Hcb _ _ _ _ H1 Hs) as Hs1.
    destruct a; [apply ret_inv in H as [_ ->]; exact Hs1 | eauto].
Qed.

Lemma callback_accounted env (item : RawItem) (w : World) (err : error) (w' : World) :
  (concurrent_stop env;; processCallback env item) w = Ok err w' ->
  accounted_world w -> accounted_world w'.
Proof.
  intros H Hw. bind_inv H as u w0 Hstop.
  pose proof (concurrent_stop_same_counters env _ _ _ Hstop) as K0.
  pose proof (processCallback_counters env _ _ _ _ H) as K1.
  unfold accounted_world, same_counters in *.
  destruct err as [msg|].
  - now rewrite K1, K0.
  - destruct K1 as (c & t & E1 & E2). rewrite E2. apply count_item_accounted.
    rewrite <- K0, E1 in Hw. exact Hw.
Qed.

(** *** The callback returns *)

Lemma returns_ret {A} (P : World -> Prop) (a : A) : returns P (mret a).
Proof. intros w Hw; exists a, w; split; [reflexivity | exact Hw]. Qed.

Lemma returns_bind {A B} (P : World -> Prop) (m : M A) (f : A -> M B) :
  returns P m -> (forall a, returns P (f a)) -> returns P (m ≫= f).
Proof.
  intros Hm Hf w Hw. destruct (Hm w Hw) as (a & w1 & H1 & Hw1).
  destruct (Hf a w1 Hw1) as (b & w2 & H2 & Hw2).
  exists b, w2; split; [|exact Hw2]. unfold mbind, ST_bind; now rewrite H1.
Qed.

Lemma returns_the_engine (P : World -> Prop) : returns P the_engine.
Proof. intros w Hw; exists (eng w), w; split; [reflexivity | exact Hw]. Qed.

Lemma returns_the_progress env : returns (in_run env) the_progress.
Proof.
  intros w Hw; pose proof Hw as [[p Hp] _]. exists p, w; split; [|exact Hw].
  unfold the_progress; now rewrite Hp.
Qed.

Lemma returns_on_engine env (f : ImportEngine -> ImportEngine) :
  (forall e, feed (f e) = feed e /\ (is_Some (progress e) -> is_Some (progress (f e)))) ->
  returns (in_run env) (on_engine f).
Proof.
  intros Hf w [Hp Hm]; exists tt, (set_eng (f (eng w)) w); split; [reflexivity|].
  destruct (Hf (eng w)) as [Hfeed Hprog]; split; simpl; [auto | now rewrite Hfeed].
Qed.

Lemma returns_on_progress env (f : ImportProgress -> ImportProgress) :
  returns (in_run env) (on_progress f).
Proof.
  intros w Hw; pose proof Hw as [[p Hp] Hm]. eexists; eexists; split.
  - apply on_progress_Ok; exact Hp.
  - split; simpl; [eauto | exact Hm].
Qed.

Lemma returns_statement env {A} (run : DB -> A * DB) (failed : A) :
  returns (in_run env) (statement env run failed).
Proof.
  intros w Hw; unfold statement.
  destruct (db_fault env (statements (db w))); [eexists; eexists; split; [reflexivity | exact Hw]|].
  destruct (run _) as [a d]; eexists; eexists; split; [reflexivity | exact Hw].
Qed.

Lemma returns_uuid env : returns (in_run env) (uuid_New_String env).
Proof. intros w Hw; eexists; eexists; split; [reflexivity | exact Hw]. Qed.

Create HintDb total.

#[global] Hint Resolve returns_ret returns_the_engine returns_the_progress
  returns_on_progress returns_statement returns_uuid : total.
#[global] Hint Extern 1 (returns _ (Exec _ _)) => apply returns_statement : total.
#[global] Hint Extern 1 (returns _ (QueryRow _ _)) => apply returns_statement : total.
#[global] Hint Extern 1 (returns _ (on_engine _)) =>
  apply returns_on_engine; intros; split; [reflexivity | simpl; auto] : total.

Ltac total :=
  repeat first
    [ solve [eauto with total]
    | apply returns_bind; [| intros ?]
    | match goal with
      | |- returns _ (match ?x with _ => _ end) => destruct x
      end ].

Lemma returns_generateSlug env (text : string) : returns (in_run env) (generateSlug env text).
Proof. unfold generateSlug; total. Qed.

#[global] Hint Resolve returns_generateSlug : total.

Lemma returns_resolve_parts env (parts : list string) :
  forall parentID lastID, returns (in_run env) (resolve_parts env parts parentID lastID).
Proof.
  induction parts as [|part rest IH]; intros parentID lastID; simpl.
  - total.
  - destruct (String.eqb (GoStrings.TrimSpace part) ""); [apply IH|].
    unfold Exec; total; apply IH.
Qed.

#[global] Hint Resolve returns_resolve_parts : total.

Lemma returns_getOrCreateCategory env (categoryPath : string) :
  returns (in_run env) (getOrCreateCategory env categoryPath).
Proof. unfold getOrCreateCategory; total. Qed.

Lemma returns_findExistingProduct env (item : FeedItem) :
  returns (in_run env) (findExistingProduct env item).
Proof. unfold findExistingProduct, scan_product; total. Qed.

Lemma returns_createProduct env (item : FeedItem) (categoryID : option string)
    (checksum : string) :
  returns (in_run env) (createProduct env item categoryID checksum).
Proof. unfold createProduct; total. Qed.

Lemma returns_updateProduct env (id : string) (item : FeedItem) (categoryID : option string)
    (checksum : string) :
  returns (in_run env) (updateProduct env id item categoryID checksum).
Proof. unfold updateProduct; total. Qed.

#[global] Hint Resolve returns_getOrCreateCategory returns_findExistingProduct
  returns_createProduct returns_updateProduct : total.

Lemma returns_processItem env (item : FeedItem) : returns (in_run env) (processItem env item).
Proof. unfold processItem; total. Qed.

Lemma returns_log env (level message : string) : returns (in_run env) (log level message).
Proof. unfold log; total. Qed.

Lemma returns_updateProgress env (message : string) :
  returns (in_run env) (updateProgress message).
Proof. unfold updateProgress; total. Qed.

#[global] Hint Resolve returns_processItem returns_log returns_updateProgress : total.

Lemma returns_updateProgressStats env : returns (in_run env) updateProgressStats.
Proof. unfold updateProgressStats; total. Qed.

Lemma applyTransform_returns env (value tt tv : string) (w : World) :
  patterns_compile env [{| fm_SourceField := ""; fm_TargetField := ""; fm_TransformType := tt;
                           fm_TransformValue := tv; fm_DefaultValue := "";
                           fm_IsRequired := false |}] = true ->
  exists r, applyTransform env value tt tv w = Ok r w.
Proof.
  unfold patterns_compile, applyTransform; simpl; intros H.
  repeat match goal with
         | |- exists r, (if ?b then _ else _) _ = _ => destruct b eqn:?
         end; try (eexists; reflexivity).
  destruct (GoStrings.Split tv "|||") as [|pattern [|replacement [|]]];
    try (eexists; reflexivity).
  rewrite andb_true_r in H. apply bool_decide_eq_true in H as [re ->].
  eexists; reflexivity.
Qed.

Lemma apply_mappings_returns env (raw : RawItem) (mappings : list FieldMapping) :
  patterns_compile env mappings = true ->
  forall item (w : World), exists r, apply_mappings env raw mappings item w = Ok r w.
Proof.
  induction mappings as [|m rest IH]; intros H item w; simpl; [eexists; reflexivity|].
  unfold patterns_compile in H; simpl in H; apply andb_true_iff in H as [Hm Hrest].
  edestruct (applyTransform_returns env) as [v Hv];
    [|unfold mbind, ST_bind; rewrite Hv; apply (IH Hrest)].
  unfold patterns_compile; simpl. rewrite andb_true_r. exact Hm.
Qed.

Lemma returns_mapItem env (raw : RawItem) : returns (in_run env) (mapItem env raw).
Proof.
  intros w Hw; pose proof Hw as [_ Hm]. unfold mapItem, mbind, ST_bind, the_engine.
  destruct (apply_mappings_returns env raw _ Hm FeedItem_zero w) as [item ->].
  eexists; eexists; split; [reflexivity | exact Hw].
Qed.

#[global] Hint Resolve returns_updateProgressStats returns_mapItem : total.

(** In a run whose feed asks for no transform that panics, the callback
    returns for every item. *)
Lemma returns_processCallback env (item : RawItem) :
  returns (in_run env) (processCallback env item).
Proof. unfold processCallback; total. Qed.

(** C10.  An invocation of the item callback that is not cut short by a
    stop request counts the item once as processed and once under exactly
    one of created, updated, skipped and errors; whatever items a traversal
    hands over, and wherever a stop request ends it, the identity
    [processed == created + updated + skipped + errors] is kept (it holds
    at the start of a run, where all counters are zero); and in a run the
    callback does return, unless a regular-expression transform of the feed
    has a pattern that does not compile. *)
Theorem C10_counter_accounting (env : Env) :
  (forall item w w',
      processCallback env item w = Ok None w' ->
      exists c t, cnt w = Some t /\ cnt w' = Some (count_item c t))
  /\ (forall items w err w',
        accounted_world w ->
        for_each (fun item => concurrent_stop env;; processCallback env item) items w
        = Ok err w' ->
        accounted_world w')
  /\ (forall item w,
        in_run env w -> exists err w', processCallback env item w = Ok err w').
Proof.
  split; [|split].
  - intros item w w' H. exact (processCallback_counters env _ _ _ _ H).
  - intros items w err w' Hw H.
    exact (for_each_invariant accounted_world _ (callback_accounted env) _ _ _ _ H Hw).
  - intros item w Hw. destruct (returns_processCallback env item w Hw) as (err & w' & H & _).
    eauto.
Qed.

Lemma C10_counter_accounting_witness :
  let env := lab "" None in
  let f := demo_feed "csv" "ean" "create_update" in
  let w := mid_run (empty_catalog f) f 0 in
  let item := csv_item ["title"; "price"; "ean"] ["Phone"; "19,99"; "8590001"] in
  let w' := default w (state_after (processCallback env item w)) in
  let items := [item; csv_item ["title"] ["Case"]; item] in
  let callback := fun item => concurrent_stop env;; processCallback env item in
  (exists c t, cnt w = Some t /\ cnt w' = Some (count_item c t))
  /\ accounted_world (default w (state_after (for_each callback items w)))
  /\ cnt (default w (state_after (for_each callback items w))) = Some (3, 1, 0, 1, 1).
Proof.
  intros env f w item w' items callback.
  destruct (C10_counter_accounting env) as (Hstep & Hall & _).
  split; [|split].
  - apply (Hstep item w w'). vm_compute. reflexivity.
  - apply (Hall items w None).
    + vm_compute. reflexivity.
    + vm_compute. reflexivity.
  - vm_compute. reflexivity.
Defined.

(** ** Cancellation (C1) *)

(** Takes a hypothesis [H : m w = Ok r w'] on a run one call further,
    down to the call that produces the result. *)
Ltac run_step H :=
  cbv beta zeta in H;
  lazymatch type of H with
  | (match ?x with _ => _ end) _ = Ok _ _ => destruct x
  | (_ ≫= _) _ = Ok _ _ => apply bind_inv in H; destruct H as (? & ? & _ & H)
  end.

Lemma completeImport_outcome env (history : ImportHistory) (w w' : World)
    (r : option ImportHistory * error) :
  completeImport env history w = Ok r w' ->
  exists h, r = (Some h, None) /\ ih_Status h = ImportStatusCompleted.
Proof.
  unfold completeImport; intros H. repeat run_step H.
  apply ret_inv in H as [-> _]. eexists; split; reflexivity.
Qed.

Lemma failImport_outcome env (history : ImportHistory) (msg : string) (w w' : World)
    (r : option ImportHistory * error) :
  failImport env history msg w = Ok r w' ->
  exists h, r = (Some h, Some msg) /\ ih_Status h = ImportStatusFailed.
Proof.
  unfold failImport; intros H. repeat run_step H.
  apply ret_inv in H as [-> _]. eexists; split; reflexivity.
Qed.

(** Whatever the feed and the environment, a run that returns a history
    returns it as completed or as failed. *)
Lemma Run_outcome env (fuel : nat) (triggeredBy : string) (w w' : World)
    (h : ImportHistory) (e : error) :
  Run env fuel triggeredBy w = Ok (Some h, e) w' ->
  ih_Status h = ImportStatusCompleted \/ ih_Status h = ImportStatusFailed.
Proof.
  unfold Run; intros H.
  apply bind_inv in H; destruct H as (en & w0 & _ & H).
  destruct (isRunning en); [apply ret_inv in H as [H _]; discriminate H|].
  apply bind_inv in H; destruct H as (? & ? & _ & H).
  apply bind_inv in H; destruct H as (r & w1 & Hrun & H).
  apply bind_inv in H; destruct H as (? & ? & _ & H).
  apply ret_inv in H as [<- _].
  unfold run_import in Hrun.
  repeat lazymatch type of Hrun with
         | completeImport _ _ _ = Ok _ _ =>
             apply completeImport_outcome in Hrun as (h' & Hr & Hs)
         | failImport _ _ _ _ = Ok _ _ =>
             apply failImport_outcome in Hrun as (h' & Hr & Hs)
         | _ => run_step Hrun
         end;
    injection Hr as -> _; auto.
Qed.

(** C1, at a failing input.  The claim: a run stopped after N items ends
    with status [cancelled], never [completed], with N or N+1 items
    processed.  The code: a three-item feed is stopped after one item; the
    callback's "import cancelled" error ends the traversal and is not taken
    for a failure (no error message is recorded, one item is processed), but
    [Run] then calls [completeImport], and the history row, the progress
    record and the returned history all say [completed], with a nil error.
    No run of any feed returns a history with another status than
    [completed] or [failed]: [ImportStatusCancelled] is never assigned. *)
Theorem C1_stopped_run_reports_completed :
  let f := demo_feed FeedTypeCSV MatchByEAN ImportModeCreateUpdate in
  let r := first_run (lab three_items (Some 1)) f in
  report r = Some (ImportStatusCompleted, None, (1, 1, 0, 0, 0))
  /\ snd <$> value_of r = Some None
  /\ (fun w => ih_Status <$> import_history (db w)) <$> state_after r
     = Some [ImportStatusCompleted]
  /\ (fun w => ip_Status <$> progress (eng w)) <$> state_after r
     = Some (Some ImportStatusCompleted)
  /\ report (first_run (lab three_items None) f)
     = Some (ImportStatusCompleted, None, (3, 3, 0, 0, 0))
  /\ (forall env fuel triggeredBy w w' h e,
        Run env fuel triggeredBy w = Ok (Some h, e) w' ->
        ih_Status h = ImportStatusCompleted \/ ih_Status h = ImportStatusFailed).
Proof.
  intros f r.
  split; [vm_compute; reflexivity|].
  split; [vm_compute; reflexivity|].
  split; [vm_compute; reflexivity|].
  split; [vm_compute; reflexivity|].
  split; [vm_compute; reflexivity|].
  intros env fuel triggeredBy w w' h e H. exact (Run_outcome env _ _ _ _ _ _ H).
Qed.

(** ** Import modes (C2) *)

(** C2, at a failing input.  The claim: a [create_only] feed counts a
    changed item as skipped and does not update it; an [update_only] feed
    counts an unmatched item as skipped and does not create it.  The code
    never reads [ImportMode]: the second run of a [create_only] feed, after
    the price moved from 19,99 to 24,99, reports one item updated and none
    skipped, and the product row carries the new price; the first run of an
    [update_only] feed on an empty catalogue creates the product. *)
Theorem C2_import_mode_is_ignored :
  let create_only := demo_feed FeedTypeCSV MatchByEAN ImportModeCreateOnly in
  let update_only := demo_feed FeedTypeCSV MatchByEAN ImportModeUpdateOnly in
  let second := next_run (lab (phone_at "24,99") None) "feed-1"
                  (first_run (lab (phone_at "19,99") None) create_only) in
  let only := first_run (lab (phone_at "19,99") None) update_only in
  report second = Some (ImportStatusCompleted, None, (1, 0, 1, 0, 0))
  /\ (fun w => GoNum.fmt_f2 ∘ p_price <$> products (db w)) <$> state_after second
     = Some ["24.99"]
  /\ report only = Some (ImportStatusCompleted, None, (1, 1, 0, 0, 0))
  /\ (fun w => p_title <$> products (db w)) <$> state_after only = Some ["Phone"].
Proof. vm_compute. repeat split. Qed.

(** ** Category resolution across runs (C4) *)

#[global] Instance same_engine_preorder : PreOrder same_engine.
Proof. split; unfold same_engine; [intros w | intros a b c]; congruence. Qed.

Lemma statement_same_engine env {A} (run : DB -> A * DB) (failed : A) :
  preserves same_engine (statement env run failed).
Proof.
  intros w a w' H; unfold statement in H.
  destruct (db_fault env (statements (db w))); [injection H as _ <-; reflexivity|].
  destruct (run _) as [a' d']; injection H as _ <-; reflexivity.
Qed.

Lemma uuid_same_engine env : preserves same_engine (uuid_New_String env).
Proof. intros w a w' H; injection H as _ <-; reflexivity. Qed.

#[global] Hint Resolve statement_same_engine uuid_same_engine : keeps.
#[global] Hint Extern 1 (preserves same_engine (Exec _ _)) =>
  apply statement_same_engine : keeps.
#[global] Hint Extern 1 (preserves same_engine (QueryRow _ _)) =>
  apply statement_same_engine : keeps.

(** Resolving the parts of a path writes to the database only. *)
Lemma resolve_parts_same_engine env (parts : list string) :
  forall parentID lastID, preserves same_engine (resolve_parts env parts parentID lastID).
Proof.
  induction parts as [|part rest IH]; intros parentID lastID; simpl.
  - keeps.
  - destruct (String.eqb (GoStrings.TrimSpace part) ""); [apply IH|].
    unfold generateSlug, Exec; keeps; apply IH.
Qed.

(** A leaf that [getOrCreateCategory] returns is in the cache under the
    path it was asked for. *)
Lemma getOrCreateCategory_caches env (categoryPath id : string) (w w' : World) :
  getOrCreateCategory env categoryPath w = Ok (Some id) w' ->
  categoryCache (eng w') !! categoryPath = Some id.
Proof.
  unfold getOrCreateCategory; intros H.
  destruct (String.eqb categoryPath ""); [apply ret_inv in H as [H _]; discriminate H|].
  bind_inv H as e w0 He. apply ret_inv in He as [-> ->].
  destruct (categoryCache (eng w) !! categoryPath) as [cachedID|] eqn:Hc.
  - apply ret_inv in H as [H ->]. congruence.
  - bind_inv H as lastID w1 Hparts.
    destruct (String.eqb lastID ""); [apply ret_inv in H as [H _]; discriminate H|].
    bind_inv H as u w2 Hput. apply ret_inv in H as [H ->].
    injection Hput as _ <-. injection H as ->. simpl. apply lookup_insert_eq.
Qed.

Lemma getOrCreateCategory_cached env (categoryPath cachedID : string) (w : World) :
  categoryPath <> "" ->
  categoryCache (eng w) !! categoryPath = Some cachedID ->
  getOrCreateCategory env categoryPath w = Ok (Some cachedID) w.
Proof.
  intros Hne Hc; unfold getOrCreateCategory.
  rewrite (proj2 (String.eqb_neq _ _) Hne).
  unfold mbind, ST_bind, the_engine; now rewrite Hc.
Qed.

(** Within one run a path resolves to one leaf: asked again, the engine
    answers from its cache and writes nothing. *)
Lemma getOrCreateCategory_again env (categoryPath id : string) (w w' : World) :
  getOrCreateCategory env categoryPath w = Ok (Some id) w' ->
  getOrCreateCategory env categoryPath w' = Ok (Some id) w'.
Proof.
  intros H. apply getOrCreateCategory_cached.
  - intros ->. discriminate H.
  - exact (getOrCreateCategory_caches env _ _ _ _ H).
Qed.

(** C4, at a failing input.  The claim: the path creates three nodes in a
    first run and none in a second.  The code: the first resolution on an
    empty catalogue creates three nodes and a repeat in the same run is
    answered from the cache with the same leaf and no new node; but every
    slug ends in eight bytes of a new UUID, so the look-up by slug of a
    second run (a new engine, with an empty cache, on the same database)
    finds none of the three and creates three more. *)
Theorem C4_second_run_creates_three_more :
  let f := demo_feed FeedTypeCSV MatchByEAN ImportModeCreateUpdate in
  let env := lab "" None in
  let path := "Electronics|Phones|Smartphones" in
  let '(w1, leaf1) := resolved env path (mid_run (empty_catalog f) f 0) in
  let '(w2, leaf2) := resolved env path w1 in
  let '(w3, leaf3) := resolved env path (mid_run (db w2) f (uuids w2)) in
  c_name <$> categories (db w1) = ["Electronics"; "Phones"; "Smartphones"]
  /\ c_slug <$> categories (db w1)
     = ["electronics-00000000"; "phones-00000002"; "smartphones-00000004"]
  /\ (leaf2 = leaf1 /\ categories (db w2) = categories (db w1))
  /\ c_name <$> categories (db w3)
     = ["Electronics"; "Phones"; "Smartphones"; "Electronics"; "Phones"; "Smartphones"]
  /\ leaf3 <> leaf1.
Proof. vm_compute. repeat split. discriminate. Qed.

(** ** Short CSV rows (C8) *)

Lemma for_each_fmap {S A B} (g : A -> B) (callback : B -> ST S error) (items : list A) :
  for_each (fun a => callback (g a)) items = for_each callback (g <$> items).
Proof. induction items as [|a rest IH]; simpl; [reflexivity | now rewrite IH]. Qed.

(** The rows after the header become records keyed by header name, when
    the reader returns them. *)
Lemma ParseCSVFull_records env (p : FeedParser) (data : string) (comma : ascii)
    (delim : string) (headers : list string) (rows : list (list string)) {S}
    (callback : RawItem -> ST S error) :
  CSVDelimiter p = String comma delim ->
  csv_ReadAll env comma data = inr (headers :: rows) ->
  ParseCSVFull env p data callback
  = for_each callback (csv_item headers <$> rows).
Proof.
  intros Hd Hr; unfold ParseCSVFull; rewrite Hd, Hr. apply for_each_fmap.
Qed.

(** C8, at a failing input.  The claim: a data row with fewer fields than
    the header gives a record without the trailing fields and never makes
    the parse fail.  The code: the zip loop would do so ([csv_item] leaves
    [c] absent), but the reader is left at [FieldsPerRecord = 0], so
    [ReadAll] refuses the short row: [ParseCSVFull] returns the reader's
    error and the callback is never invoked, not even for the complete
    rows. *)
Theorem C8_short_row_fails_the_parse :
  let data := csv_lines ["a;b;c"; "1;2;3"; "4;5"; "6;7;8"] in
  ParseCSVFull (lab "" None) (csv_parser ";") data record_item []
  = Ok (Some "record on line 3: wrong number of fields") []
  /\ csv_item ["a"; "b"; "c"] ["4"; "5"] = {[ "a" := JString "4"; "b" := JString "5" ]}
  /\ ParseCSVFull (lab "" None) (csv_parser ";") (csv_lines ["a;b;c"; "1;2;3"; "6;7;8"])
       record_item []
     = Ok None [csv_item ["a"; "b"; "c"] ["1"; "2"; "3"]; csv_item ["a"; "b"; "c"] ["6"; "7"; "8"]].
Proof. vm_compute. repeat split. Qed.

(** ** Truncated XML (C7) *)

(** A loop with [k + fuel] turns is [k] turns followed by a loop with
    [fuel] turns. *)
Lemma xml_loop_add {S} (env : Env) (p : FeedParser) (data : string)
    (callback : RawItem -> ST S error) (k fuel : nat) :
  forall n l s,
    xml_loop env (k + fuel) p data callback n l s
    = match xml_turns env k p data callback n l s with
      | Ok (inl err) s' => Ok err s'
      | Ok (inr l') s' => xml_loop env fuel p data callback (k + n) l' s'
      | Panic msg => Panic msg
      | OutOfFuel => OutOfFuel
      end.
Proof.
  induction k as [|k IH]; intros n l s; [reflexivity|].
  cbn [Nat.add xml_loop xml_turns]. unfold mbind, ST_bind.
  destruct (xml_turn env p data callback n l s) as [[err|l'] s'| |]; try reflexivity.
  rewrite IH. now rewrite Nat.add_succ_r.
Qed.

(** Once every later call to [Token] fails, the loop only spins: no
    amount of fuel makes it return. *)
Lemma xml_loop_stuck {S} (env : Env) (p : FeedParser) (data : string)
    (callback : RawItem -> ST S error) (n0 : nat) :
  (forall n, (n0 <= n)%nat -> exists msg, xml_Token env data n = TokErr msg) ->
  forall fuel n l s, (n0 <= n)%nat -> xml_loop env fuel p data callback n l s = OutOfFuel.
Proof.
  intros Herr fuel; induction fuel as [|fuel IH]; intros n l s Hn; [reflexivity|].
  cbn [xml_loop]. unfold mbind, ST_bind, xml_turn.
  destruct (Herr n Hn) as [msg ->]. cbn. apply IH. lia.
Qed.

Lemma after_calls_add (j k : nat) (d : GoXML.Decoder) :
  GoXML.after_calls (j + k) d = GoXML.after_calls k (GoXML.after_calls j d).
Proof. revert d; induction j as [|j IH]; intros d; [reflexivity | apply IH]. Qed.

(** A decoder whose call fails without moving fails in every later call. *)
Lemma decoder_error_is_kept (d : GoXML.Decoder) :
  (GoXML.Token d).2 = d -> forall k, GoXML.after_calls k d = d.
Proof. intros H k; induction k as [|k IH]; [reflexivity | simpl; now rewrite H]. Qed.

Lemma nth_Token_stuck (data : string) (n0 : nat) :
  let d := GoXML.after_calls n0 (GoXML.NewDecoder data) in
  fails (GoXML.Token d).1 = true ->
  (GoXML.Token d).2 = d ->
  forall n, (n0 <= n)%nat -> exists msg, GoXML.nth_Token data n = TokErr msg.
Proof.
  intros d Hfail Hkept n Hn; unfold GoXML.nth_Token.
  replace n with (n0 + (n - n0))%nat by lia.
  rewrite after_calls_add. fold d. rewrite (decoder_error_is_kept d Hkept).
  destruct (GoXML.Token d).1; try discriminate Hfail; eauto.
Qed.

(** If the loop is still going after [k] turns and the decoder then fails
    for good, [ParseXMLFull] returns for no amount of fuel. *)
Lemma ParseXMLFull_never_returns {S} (p : FeedParser) (data : string)
    (callback : RawItem -> ST S error) (s : S) (k : nat) (body : string) (stop : option Z) :
  let env := lab body stop in
  let d := GoXML.after_calls k (GoXML.NewDecoder (sanitizeXML data)) in
  is_Some (still_looping (xml_turns env k p (sanitizeXML data) callback 0 XMLLoop_init s)) ->
  spins_below env k p data callback s = true ->
  fails (GoXML.Token d).1 = true ->
  (GoXML.Token d).2 = d ->
  forall fuel, ParseXMLFull env fuel p data callback s = OutOfFuel.
Proof.
  intros env d [s' Hk] Hsmall Hfail Hkept fuel.
  destruct (Nat.lt_ge_cases fuel k) as [Hlt | Hge].
  - unfold spins_below in Hsmall. rewrite forallb_forall in Hsmall.
    specialize (Hsmall fuel).
    destruct (ParseXMLFull env fuel p data callback s); try reflexivity;
      discriminate Hsmall; apply in_seq; lia.
  - replace fuel with (k + (fuel - k))%nat by lia.
    unfold ParseXMLFull. rewrite xml_loop_add.
    destruct (xml_turns env k p (sanitizeXML data) callback 0 XMLLoop_init s)
      as [[err|l] s1| |]; try discriminate Hk.
    apply xml_loop_stuck with (n0 := k); [|lia].
    exact (nth_Token_stuck _ _ Hfail Hkept).
Qed.

(** C7, at a failing input.  The claim: a document truncated in the middle
    of an item parses successfully, the callback being invoked once for
    each complete item, because the bytes are repaired first.  The code:
    [ParseXMLFull] only sanitizes (the repair is in [previewXML]); on the
    truncated feed the callback is invoked for the complete item within
    twelve turns, then the decoder reports the unexpected EOF at every
    call, each is skipped with [continue], and the loop never returns.
    The repair would not help: [fixPartialXML] cuts after the last closing
    item tag and, the text then ending in [>], adds no closing root tag, so
    the loop does not return on the repaired text either.  The whole
    document does parse. *)
Theorem C7_truncated_document_never_returns :
  let env := lab "" None in
  let p := xml_parser "SHOPITEM" in
  still_looping (xml_turns env 12 p (sanitizeXML truncated_feed) record_item 0 XMLLoop_init [])
  = Some [first_record]
  /\ (forall fuel, ParseXMLFull env fuel p truncated_feed record_item [] = OutOfFuel)
  /\ fixPartialXML p truncated_feed = "<SHOP>" +:+ first_item
  /\ (forall fuel,
        ParseXMLFull env fuel p (fixPartialXML p truncated_feed) record_item [] = OutOfFuel)
  /\ ParseXMLFull env 20 p ("<SHOP>" +:+ first_item +:+ "</SHOP>") record_item []
     = Ok None [first_record].
Proof.
  intros env p. split; [|split; [|split; [|split]]].
  - vm_compute. reflexivity.
  - apply (ParseXMLFull_never_returns p truncated_feed record_item [] 12 "" None).
    + vm_compute. eexists. reflexivity.
    + vm_compute. reflexivity.
    + vm_compute. reflexivity.
    + vm_compute. reflexivity.
  - vm_compute. reflexivity.
  - apply (ParseXMLFull_never_returns p _ record_item [] 9 "" None).
    + vm_compute. eexists. reflexivity.
    + vm_compute. reflexivity.
    + vm_compute. reflexivity.
    + vm_compute. reflexivity.
  - vm_compute. reflexivity.
Qed.

(** ** The guard against a second run (C9) *)

(** C9.  While an engine is registered for the feed, [StartImport] starts
    nothing: it answers 409 "Import already running" when the feed row can
    be read (404 when it cannot), and leaves the tables, the registered
    engines and the started goroutines as they were; and [Run] on an engine
    whose run is in progress returns the "import already running" error at
    once, in the very state it was called in: no history row, no feed
    status, no counter and no progress record is written. *)
Theorem C9_run_in_progress_is_refused (env : Env) (feedID : string) (h : Handler)
    (e : ImportEngine) (w : World) (fuel : nat) (triggeredBy : string) :
  importEngines h !! feedID = Some e ->
  isRunning (eng w) = true ->
  (forall f, db_fault env (statements (h_db h)) = false ->
             find_feed feedID (h_db h) = Some f ->
             (StartImport env feedID h).1
             = {| status_code := 409; body := "Import already running" |})
  /\ (status_code (StartImport env feedID h).1 = 409
      \/ status_code (StartImport env feedID h).1 = 404)
  /\ same_tables (h_db h) (h_db (StartImport env feedID h).2)
  /\ importEngines (StartImport env feedID h).2 = importEngines h
  /\ goroutines (StartImport env feedID h).2 = goroutines h
  /\ Run env fuel triggeredBy w = Ok (None, Some "import already running") w.
Proof.
  intros Heng Hrun.
  assert (Hfind : forall n, find_feed feedID (set_statements n (h_db h))
                            = find_feed feedID (h_db h)) by reflexivity.
  split; [|split; [|split; [|split; [|split]]]].
  - intros f Hdb Hfeed. unfold StartImport. now rewrite Hdb, Hfind, Hfeed, Heng.
  - unfold StartImport. rewrite Hfind, Heng.
    destruct (db_fault env _); [now right|]. destruct (find_feed feedID (h_db h)); auto.
  - unfold StartImport. rewrite Hfind, Heng.
    destruct (db_fault env _); [now repeat split|].
    destruct (find_feed feedID (h_db h)); now repeat split.
  - unfold StartImport. rewrite Hfind, Heng.
    destruct (db_fault env _); [reflexivity|]. now destruct (find_feed feedID (h_db h)).
  - unfold StartImport. rewrite Hfind, Heng.
    destruct (db_fault env _); [reflexivity|]. now destruct (find_feed feedID (h_db h)).
  - unfold Run, mbind, ST_bind, the_engine. now rewrite Hrun.
Qed.

Lemma C9_run_in_progress_is_refused_witness :
  let f := demo_feed FeedTypeCSV MatchByEAN ImportModeCreateUpdate in
  let h := {| h_db := empty_catalog f;
              importEngines := {[ "feed-1" := set_isRunning true (NewImportEngine f) ]};
              goroutines := ["feed-1"] |} in
  let w := mid_run (empty_catalog f) f 0 in
  (StartImport (lab three_items None) "feed-1" h).1
  = {| status_code := 409; body := "Import already running" |}
  /\ same_tables (h_db h) (h_db (StartImport (lab three_items None) "feed-1" h).2)
  /\ importEngines (StartImport (lab three_items None) "feed-1" h).2 = importEngines h
  /\ goroutines (StartImport (lab three_items None) "feed-1" h).2 = goroutines h
  /\ Run (lab three_items None) 0 "manual" w = Ok (None, Some "import already running") w.
Proof.
  intros f h w.
  destruct (C9_run_in_progress_is_refused (lab three_items None) "feed-1" h
              (set_isRunning true (NewImportEngine f)) w 0 "manual" eq_refl eq_refl)
    as (H409 & _ & Htables & Hengines & Hgo & HRun).
  split; [exact (H409 f eq_refl eq_refl)|].
  split; [exact Htables|]. split; [exact Hengines|]. split; [exact Hgo | exact HRun].
Defined.

(** ** The shape of a fingerprint *)

Lemma hex_digit_is_hex (n : Z) : 0 <= n < 16 -> is_hex (MD5.hex_digit n) = true.
Proof.
  intros H. rewrite <- (Z2Nat.id n) by lia.
  assert (Hk : (Z.to_nat n < 16)%nat) by lia.
  revert Hk; generalize (Z.to_nat n) as k; intros k Hk.
  do 16 (destruct k as [|k]; [reflexivity|]). lia.
Qed.

Lemma EncodeToString_hex (bs : list Z) :
  Forall (fun b => 0 <= b < 256) bs ->
  String.length (MD5.EncodeToString bs) = (2 * List.length bs)%nat
  /\ bytes_all is_hex (MD5.EncodeToString bs) = true.
Proof.
  induction 1 as [|b bs Hb _ [IH1 IH2]]; [split; reflexivity|].
  cbn [MD5.EncodeToString String.length bytes_all List.length]. split; [lia|].
  rewrite !hex_digit_is_hex, IH2; [reflexivity | |].
  - apply Z.mod_pos_bound; lia.
  - split; [apply Z.div_pos; lia | apply Z.div_lt_upper_bound; lia].
Qed.

Lemma le_bytes_range (n : nat) (z : Z) : Forall (fun b => 0 <= b < 256) (MD5.le_bytes n z).
Proof.
  revert z; induction n as [|n IH]; intros z; simpl; constructor; [|apply IH].
  apply Z.mod_pos_bound; lia.
Qed.

Lemma le_bytes_length (n : nat) (z : Z) : List.length (MD5.le_bytes n z) = n.
Proof. revert z; induction n as [|n IH]; intros z; simpl; [reflexivity | now rewrite IH]. Qed.

Lemma calculateChecksum_hex (item : FeedItem) :
  String.length (calculateChecksum item) = 32%nat
  /\ bytes_all is_hex (calculateChecksum item) = true.
Proof.
  unfold calculateChecksum, MD5.Sum.
  destruct (MD5.blocks _ _ _) as [[[a b] c] d].
  destruct (EncodeToString_hex
              (MD5.le_bytes 4 a ++ MD5.le_bytes 4 b ++ MD5.le_bytes 4 c ++ MD5.le_bytes 4 d))
    as [H1 H2].
  - rewrite !Forall_app; repeat split; apply le_bytes_range.
  - split; [|exact H2]. rewrite H1, !length_app, !le_bytes_length. reflexivity.
Qed.

(** X1.  The fingerprint of an item is 32 lower-case hexadecimal digits,
    whatever the item holds. *)
Theorem calculateChecksum_is_32_hex_digits (item : FeedItem) :
  String.length (calculateChecksum item) = 32%nat
  /\ bytes_all is_hex (calculateChecksum item) = true.
Proof. exact (calculateChecksum_hex item). Qed.

(** ** The shape of a slug *)

Lemma bytes_all_rev_acc (f : ascii -> bool) (s acc : string) :
  bytes_all f (GoStrings.rev_acc s acc) = bytes_all f s && bytes_all f acc.
Proof.
  revert acc; induction s as [|c s IH]; intros acc; simpl; [reflexivity|].
  rewrite IH; simpl. now destruct (f c), (bytes_all f s), (bytes_all f acc).
Qed.

Lemma bytes_all_rev (f : ascii -> bool) (s : string) :
  bytes_all f (GoStrings.rev s) = bytes_all f s.
Proof. unfold GoStrings.rev; rewrite bytes_all_rev_acc; simpl; apply andb_true_r. Qed.

Lemma bytes_all_TrimLeft (f g : ascii -> bool) (s : string) :
  bytes_all f s = true -> bytes_all f (GoStrings.TrimLeft g s) = true.
Proof.
  induction s as [|c s IH]; simpl; [auto|]. intros H.
  destruct (g c); [apply IH; now apply andb_true_iff in H | exact H].
Qed.

Lemma bytes_all_TrimFunc (f g : ascii -> bool) (s : string) :
  bytes_all f s = true -> bytes_all f (GoStrings.TrimFunc g s) = true.
Proof.
  intros H; unfold GoStrings.TrimFunc, GoStrings.TrimRight.
  rewrite bytes_all_rev. apply bytes_all_TrimLeft. rewrite bytes_all_rev.
  now apply bytes_all_TrimLeft.
Qed.

Lemma bytes_all_take (f : ascii -> bool) (n : nat) (s : string) :
  bytes_all f s = true -> bytes_all f (GoStrings.take n s) = true.
Proof.
  revert s; induction n as [|n IH]; intros [|c s]; simpl; auto.
  intros H; apply andb_true_iff in H as [-> H]; simpl; auto.
Qed.

Lemma take_length (n : nat) (s : string) : (String.length (GoStrings.take n s) <= n)%nat.
Proof. revert s; induction n as [|n IH]; intros [|c s]; simpl; try lia. specialize (IH s); lia. Qed.

Lemma hyphenate_slug_bytes (s : string) (in_run : bool) :
  bytes_all is_slug_byte (hyphenate s in_run) = true.
Proof.
  revert in_run; induction s as [|c s IH]; intros in_run; simpl; [reflexivity|].
  destruct (GoStrings.is_lower c || GoStrings.is_digit c) eqn:E.
  - simpl. rewrite IH. unfold is_slug_byte. now rewrite E.
  - destruct in_run; [apply IH | simpl; now rewrite IH].
Qed.

Lemma slug_base_shape (text : string) :
  bytes_all is_slug_byte (slug_base text) = true /\ (String.length (slug_base text) <= 200)%nat.
Proof.
  unfold slug_base.
  set (s := GoStrings.Trim _ _).
  assert (Hs : bytes_all is_slug_byte s = true)
    by (apply bytes_all_TrimFunc, hyphenate_slug_bytes).
  destruct (200 <? String.length s)%nat eqn:E.
  - split; [now apply bytes_all_take | apply take_length].
  - split; [exact Hs | apply Nat.ltb_ge in E; exact E].
Qed.

(** X2.  [generateSlug] draws one UUID and returns a base of at most 200 bytes
    of [a-z0-9-], a hyphen and the first eight bytes of the UUID: at most 209
    bytes, whatever the text. *)
Theorem generateSlug_shape (env : Env) (text : string) (w : World) :
  exists base,
    generateSlug env text w
    = Ok (base +:+ "-" +:+ GoStrings.take 8 (uuid_New env (uuids w))) (set_uuids (S (uuids w)) w)
    /\ bytes_all is_slug_byte base = true
    /\ (String.length base <= 200)%nat
    /\ (String.length (base +:+ "-" +:+ GoStrings.take 8 (uuid_New env (uuids w))) <= 209)%nat.
Proof.
  exists (slug_base text). destruct (slug_base_shape text) as [H1 H2].
  split; [reflexivity|]. split; [exact H1|]. split; [exact H2|].
  rewrite !append_length. pose proof (take_length 8 (uuid_New env (uuids w))) as H3.
  change (String.length "-") with 1%nat. lia.
Qed.

(** ** The order of the accent replacements *)

Lemma translit_cons2 (tbl : ascii -> ascii -> option ascii) (a b : ascii) (s2 : string) :
  translit tbl (String a (String b s2))
  = match tbl a b with
    | Some o => String o (translit tbl s2)
    | None => String a (translit tbl (String b s2))
    end.
Proof. reflexivity. Qed.

Lemma replace_from_cons2 (old new : string) (x y : ascii) (s2 : string) :
  GoStrings.replace_from old new (String x (String y s2)) 0
  = if GoStrings.HasPrefix (String x (String y s2)) old
    then new +:+ GoStrings.replace_from old new (String y s2) (String.length old - 1)
    else String x (GoStrings.replace_from old new (String y s2) 0).
Proof. reflexivity. Qed.

(** Induction on the length of the string [s], two bytes at a time: the
    goal is left for [String x (String y s2)], with the induction
    hypothesis [IH] for every string of length at most [n] and the bound
    [Hn] on the length of the string at hand. *)
Tactic Notation "by_length" constr(s) "as" ident(x) ident(y) ident(s2) ident(IH) ident(Hn) :=
  let K := fresh "K" in
  let n := fresh "n" in
  match goal with
  | |- ?G =>
      assert (K : forall n s', (String.length s' <= n)%nat ->
                               ltac:(let g := eval pattern s in G in
                                     match g with ?P _ => exact (P s') end));
      [ intros n; induction n as [|n IH]; intros [|x [|y s2]] Hn;
        try reflexivity; try (simpl in Hn; lia); simpl in Hn
      | exact (K _ s (le_n _)) ]
  end.

Lemma translit_ext (t1 t2 : ascii -> ascii -> option ascii) (s : string) :
  (forall a b, t1 a b = t2 a b) -> translit t1 s = translit t2 s.
Proof.
  intros H. by_length s as a b s2 IH Hn.
  rewrite !translit_cons2, H. destruct (t2 a b); f_equal; apply IH; simpl; lia.
Qed.

Lemma lead_not_cont (c : ascii) : is_lead2 c = true -> is_cont c = false.
Proof. unfold is_lead2, is_cont; intros H. apply andb_true_iff in H as [H1 H2].
  apply Nat.leb_le in H1. apply andb_false_iff; right. apply Nat.leb_gt. lia. Qed.

Lemma ascii_not_lead (c : ascii) : is_ascii_byte c = true -> is_lead2 c = false.
Proof. unfold is_lead2, is_ascii_byte; intros H. apply Nat.ltb_lt in H.
  apply andb_false_iff; left. apply Nat.leb_gt. lia. Qed.

Lemma ascii_not_cont (c : ascii) : is_ascii_byte c = true -> is_cont c = false.
Proof. unfold is_cont, is_ascii_byte; intros H. apply Nat.ltb_lt in H.
  apply andb_false_iff; left. apply Nat.leb_gt. lia. Qed.

Lemma HasPrefix_pair (a b x y : ascii) (s : string) :
  GoStrings.HasPrefix (String x (String y s)) (String a (String b ""))
  = Ascii.eqb a x && Ascii.eqb b y.
Proof.
  simpl. destruct (Ascii.eqb a x); [|reflexivity].
  destruct (Ascii.eqb b y); [|reflexivity]. now destruct s.
Qed.

(** One [ReplaceAll] of a two-byte key is one pass of [translit]. *)
Lemma ReplaceAll_translit (a b o : ascii) (s : string) :
  GoStrings.ReplaceAll s (String a (String b "")) (String o "")
  = translit (fun x y => if Ascii.eqb a x && Ascii.eqb b y then Some o else None) s.
Proof.
  unfold GoStrings.ReplaceAll. by_length s as x y s2 IH Hn.
  - simpl. now destruct (Ascii.eqb a x).
  - rewrite translit_cons2, replace_from_cons2, HasPrefix_pair.
    destruct (Ascii.eqb a x && Ascii.eqb b y).
    + change (GoStrings.replace_from (String a (String b "")) (String o "") (String y s2)
                (String.length (String a (String b "")) - 1))
        with (GoStrings.replace_from (String a (String b "")) (String o "") s2 0).
      change (String o "" +:+ ?x) with (String o x). f_equal. apply IH; simpl; lia.
    + f_equal. apply (IH (String y s2)); simpl; lia.
Qed.

Section Merge.

Context (t1 t2 : ascii -> ascii -> option ascii).
Hypothesis dom1 : forall a b o, t1 a b = Some o -> is_lead2 a = true /\ is_cont b = true.
Hypothesis dom2 : forall a b o, t2 a b = Some o -> is_lead2 a = true /\ is_cont b = true.
Hypothesis out2 : forall a b o, t2 a b = Some o -> is_ascii_byte o = true.

Lemma t1_none_lead (a b : ascii) : is_lead2 a = false -> t1 a b = None.
Proof. intros H; destruct (t1 a b) eqn:E; [|reflexivity]. apply dom1 in E as [E _]; congruence. Qed.

Lemma t1_none_cont (a b : ascii) : is_cont b = false -> t1 a b = None.
Proof. intros H; destruct (t1 a b) eqn:E; [|reflexivity]. apply dom1 in E as [_ E]; congruence. Qed.

Lemma t2_none_lead (a b : ascii) : is_lead2 a = false -> t2 a b = None.
Proof. intros H; destruct (t2 a b) eqn:E; [|reflexivity]. apply dom2 in E as [E _]; congruence. Qed.

(** The first byte of what [translit t2] makes of a string that starts
    with [b] is [b] or a replacement. *)
Lemma translit_head (b : ascii) (s : string) :
  exists c rest, translit t2 (String b s) = String c rest
                 /\ (c = b \/ is_ascii_byte c = true).
Proof.
  destruct s as [|y s2]; simpl; [eauto|].
  destruct (t2 b y) eqn:E; [apply out2 in E|]; eauto.
Qed.

(** Two passes are one pass with the merged table, the table of the first
    pass taking precedence. *)
Lemma translit_merge (s : string) :
  translit t1 (translit t2 s)
  = translit (fun a b => match t2 a b with Some o => Some o | None => t1 a b end) s.
Proof.
  by_length s as a b s2 IH Hn.
  rewrite (translit_cons2 t2 a b s2).
  rewrite (translit_cons2 (fun a b => match t2 a b with Some o => Some o | None => t1 a b end)).
  destruct (t2 a b) as [o|] eqn:E2.
  - pose proof (out2 _ _ _ E2) as Ho.
    rewrite <- (IH s2) by (simpl; lia).
    destruct (translit t2 s2) as [|x X]; [reflexivity|].
    rewrite translit_cons2. now rewrite (t1_none_lead o x (ascii_not_lead _ Ho)).
  - destruct (t1 a b) as [o|] eqn:E1.
    + destruct (dom1 _ _ _ E1) as [_ Hb].
      assert (Hb' : is_lead2 b = false).
      { destruct (is_lead2 b) eqn:L; [|reflexivity]. apply lead_not_cont in L; congruence. }
      rewrite <- (IH s2) by (simpl; lia).
      destruct s2 as [|y s3]; [simpl; now rewrite E1|].
      rewrite (translit_cons2 t2 b y s3), (t2_none_lead b y Hb').
      rewrite translit_cons2. now rewrite E1.
    + rewrite <- (IH (String b s2)) by (simpl; lia).
      destruct (translit_head b s2) as (c & rest & -> & Hc).
      rewrite translit_cons2. destruct Hc as [-> | Hc]; [now rewrite E1|].
      now rewrite (t1_none_cont a c (ascii_not_cont _ Hc)).
Qed.

End Merge.

Lemma pair_table_dom (rs : list (string * string)) (a b o : ascii) :
  forallb accent_pair rs = true ->
  pair_table rs a b = Some o ->
  is_lead2 a = true /\ is_cont b = true /\ is_ascii_byte o = true.
Proof.
  induction rs as [|[k v] rs IH]; simpl; [discriminate|]. intros H.
  apply andb_true_iff in H as [Hr Hrs].
  destruct k as [|a' [|b' [|]]]; try discriminate Hr.
  destruct v as [|o' [|]]; try discriminate Hr. simpl in Hr.
  apply andb_true_iff in Hr as [Hr Ho]. apply andb_true_iff in Hr as [Ha Hb].
  destruct (Ascii.eqb a' a) eqn:Ea; simpl; [|auto].
  destruct (Ascii.eqb b' b) eqn:Eb; simpl; [|auto].
  apply Ascii.eqb_eq in Ea, Eb; subst. intros [= <-]. auto.
Qed.

(** The replacement loop is one pass with the table of the pairs. *)
Lemma replace_accents_translit (rs : list (string * string)) :
  forallb accent_pair rs = true ->
  forall s, replace_accents rs s = translit (pair_table rs) s.
Proof.
  unfold replace_accents.
  induction rs as [|[k v] rs IH]; intros H s; simpl.
  - clear H. by_length s as a b s2 IH' Hn. rewrite translit_cons2. f_equal.
    apply (IH' (String b s2)); simpl; lia.
  - simpl in H. apply andb_true_iff in H as [Hr Hrs].
    rewrite (IH Hrs).
    destruct k as [|a' [|b' [|]]]; try discriminate Hr.
    destruct v as [|o' [|]]; try discriminate Hr. simpl in Hr.
    apply andb_true_iff in Hr as [Hr Ho]. apply andb_true_iff in Hr as [Ha Hb].
    rewrite ReplaceAll_translit, translit_merge.
    + apply translit_ext; intros a b. now destruct (Ascii.eqb a' a && Ascii.eqb b' b).
    + intros a b o E; apply (pair_table_dom rs) in E as (? & ? & ?); auto.
    + intros a b o E. destruct (Ascii.eqb a' a) eqn:Ea; [|discriminate].
      destruct (Ascii.eqb b' b) eqn:Eb; [|discriminate].
      apply Ascii.eqb_eq in Ea, Eb; subst; auto.
    + intros a b o E. destruct (Ascii.eqb a' a && Ascii.eqb b' b); [|discriminate].
      now injection E as <-.
Qed.

Lemma pair_table_In (rs : list (string * string)) (a b : ascii) :
  forallb accent_pair rs = true ->
  NoDup rs.*1 ->
  forall o, pair_table rs a b = Some o <-> In (String a (String b ""), String o "") rs.
Proof.
  induction rs as [|[k v] rs IH]; simpl; intros H Hnd o; [split; [discriminate | tauto]|].
  apply andb_true_iff in H as [Hr Hrs]. apply NoDup_cons in Hnd as [Hk Hnd].
  destruct k as [|a' [|b' [|]]]; try discriminate Hr.
  destruct v as [|o' [|]]; try discriminate Hr.
  destruct (Ascii.eqb a' a) eqn:Ea; simpl.
  - destruct (Ascii.eqb b' b) eqn:Eb; simpl.
    + apply Ascii.eqb_eq in Ea, Eb; subst. split.
      * intros [= <-]; now left.
      * intros [[= <-] | Hin]; [reflexivity|].
        exfalso; apply Hk. apply list_elem_of_fmap. eexists; split; [|apply list_elem_of_In; exact Hin].
        reflexivity.
    + rewrite (IH Hrs Hnd). apply Ascii.eqb_neq in Eb. split; [auto|].
      intros [[= ? ?] | Hin]; [congruence | exact Hin].
  - rewrite (IH Hrs Hnd). apply Ascii.eqb_neq in Ea. split; [auto|].
    intros [[= ? ?] | Hin]; [congruence | exact Hin].
Qed.

Lemma replacements_accent_pairs : forallb accent_pair replacements = true.
Proof. reflexivity. Qed.

Lemma replacements_NoDup : NoDup replacements.*1.
Proof. apply (bool_decide_eq_true_1 (NoDup replacements.*1)). vm_compute. reflexivity. Qed.

(** X3.  In whatever order the range over the map of accented letters visits
    its pairs, the replacement loop of [generateSlug] gives the same
    text. *)
Theorem replacements_order_is_immaterial (order : list (string * string)) (slug : string) :
  order ≡ₚ replacements ->
  replace_accents order slug = replace_accents replacements slug.
Proof.
  intros Hp.
  assert (Hok : forallb accent_pair order = true).
  { apply forallb_forall; intros r Hr. 
    apply (proj1 (forallb_forall _ _) replacements_accent_pairs).
    apply list_elem_of_In. rewrite <- Hp. now apply list_elem_of_In. }
  assert (Hnd : NoDup order.*1) by (rewrite Hp; exact replacements_NoDup).
  rewrite (replace_accents_translit _ Hok), (replace_accents_translit _ replacements_accent_pairs).
  apply translit_ext; intros a b.
  destruct (pair_table order a b) as [o|] eqn:E1.
  - symmetry. apply (pair_table_In _ _ _ replacements_accent_pairs replacements_NoDup).
    apply (pair_table_In _ _ _ Hok Hnd) in E1.
    apply list_elem_of_In. rewrite <- Hp. now apply list_elem_of_In.
  - destruct (pair_table replacements a b) as [o|] eqn:E2; [|reflexivity].
    apply (pair_table_In _ _ _ replacements_accent_pairs replacements_NoDup) in E2.
    apply list_elem_of_In in E2. rewrite <- Hp in E2. apply list_elem_of_In in E2.
    apply (pair_table_In _ _ _ Hok Hnd) in E2. congruence.
Qed.

Lemma slug_base_replace_accents (text : string) :
  slug_base text
  = let slug := GoStrings.Trim (hyphenate (replace_accents replacements (GoStrings.ToLower text)) false) "-" in
    if (200 <? String.length slug)%nat then GoStrings.take 200 slug else slug.
Proof. reflexivity. Qed.

Lemma replacements_order_is_immaterial_witness :
  replace_accents (List.rev replacements) (b2 197 161 +:+ "t" +:+ b2 195 180 +:+ "l" +:+ b2 196 141)
  = "stolc".
Proof.
  rewrite (replacements_order_is_immaterial (List.rev replacements)).
  - vm_compute. reflexivity.
  - symmetry. apply Permutation_rev.
Defined.

(** ** The database calls, read back from their results *)

Lemma statement_inv env {A} (run : DB -> A * DB) (failed : A) (w w' : World) (a : A) :
  statement env run failed w = Ok a w' ->
  eng w' = eng w /\ uuids w' = uuids w
  /\ ((db_fault env (statements (db w)) = true /\ a = failed /\ db w' = sent (db w))
      \/ (db_fault env (statements (db w)) = false /\ (a, db w') = run (sent (db w)))).
Proof.
  unfold statement, sent; intros H.
  destruct (db_fault env (statements (db w))).
  - injection H as <- <-. repeat split. left; repeat split.
  - destruct (run _) as [a' d'] eqn:E. injection H as <- <-. repeat split.
    right; split; reflexivity.
Qed.

Lemma Exec_inv env (f : DB -> DB) (w w' : World) (e : error) :
  Exec env f w = Ok e w' ->
  eng w' = eng w /\ uuids w' = uuids w
  /\ ((e = Some "db error" /\ db w' = sent (db w)) \/ (e = None /\ db w' = f (sent (db w)))).
Proof.
  intros H; apply statement_inv in H as (He & Hu & [(_ & -> & Hd) | (_ & Hd)]).
  - repeat split; auto.
  - injection Hd as -> ->. repeat split; auto.
Qed.

Lemma QueryRow_inv env {A} (q : DB -> option A) (w w' : World) (r : option A) :
  QueryRow env q w = Ok r w' ->
  eng w' = eng w /\ uuids w' = uuids w /\ db w' = sent (db w)
  /\ (r = None \/ (db_fault env (statements (db w)) = false /\ r = q (sent (db w)))).
Proof.
  intros H; apply statement_inv in H as (He & Hu & [(_ & -> & Hd) | (Hf & Hd)]).
  - repeat split; auto.
  - injection Hd as -> ->. repeat split; auto.
Qed.

Lemma uuid_inv env (w w' : World) (u : string) :
  uuid_New_String env w = Ok u w' ->
  u = uuid_New env (uuids w) /\ w' = set_uuids (S (uuids w)) w.
Proof. intros H; injection H as <- <-; auto. Qed.

(** ** Mappings *)

Lemma set_target_keeps_title (target value : string) (item : FeedItem) :
  target <> "title" -> Title (set_target target value item) = Title item.
Proof.
  intros H; unfold set_target. rewrite (proj2 (String.eqb_neq _ _) H).
  repeat match goal with |- context [if ?b then _ else _] => destruct b end; reflexivity.
Qed.

Lemma apply_mappings_keeps_title env (raw : RawItem) (mappings : list FieldMapping) :
  Forall (fun m => fm_TargetField m <> "title") mappings ->
  forall item (w w' : World) r,
    apply_mappings env raw mappings item w = Ok r w' -> Title r = Title item /\ w' = w.
Proof.
  induction 1 as [|m rest Hm _ IH]; intros item w w' r H; simpl in H.
  - apply ret_inv in H as [-> ->]; auto.
  - bind_inv H as v w1 Hv. apply applyTransform_pure in Hv as ->.
    apply IH in H as [-> ->]. split; [|reflexivity]. now apply set_target_keeps_title.
Qed.

Lemma mapItem_no_title env (raw : RawItem) (w w' : World) (r : option FeedItem) :
  maps_no_title (feed (eng w)) ->
  mapItem env raw w = Ok r w' -> r = None /\ w' = w.
Proof.
  intros [Hne Hall] H; unfold mapItem in H.
  bind_inv H as e w0 He. apply ret_inv in He as [-> ->].
  bind_inv H as item w1 Hmap.
  apply (apply_mappings_keeps_title env raw _ Hall) in Hmap as [Ht ->].
  destruct (f_FieldMappings (feed (eng w))); [congruence|].
  rewrite Ht in H. apply ret_inv in H as [-> ->]. auto.
Qed.

(** X4.  A feed with field mappings of which none assigns the title imports
    nothing: whatever the record holds, the callback counts it as processed
    and skipped, and sends no statement to the database. *)
Theorem feed_without_title_mapping_skips_every_item (env : Env) (raw : RawItem)
    (w w' : World) (err : error) :
  maps_no_title (feed (eng w)) ->
  shouldStop (eng w) = false ->
  processCallback env raw w = Ok err w' ->
  err = None /\ db w' = db w /\ uuids w' = uuids w
  /\ exists t, cnt w = Some t /\ cnt w' = Some (count_item Skipped t).
Proof.
  intros Hmaps Hstop H; unfold processCallback in H.
  bind_inv H as e w0 He. apply ret_inv in He as [-> ->]. rewrite Hstop in H.
  bind_inv H as u w1 Hproc. apply on_progress_inv in Hproc as (p & Hp & ->).
  bind_inv H as feedItem w2 Hmap.
  apply mapItem_no_title in Hmap as [-> ->]; [|exact Hmaps].
  bind_inv H as u' w3 Hskip. apply on_progress_inv in Hskip as (p' & Hp' & ->).
  apply ret_inv in H as [-> ->]. simpl in Hp'. injection Hp' as <-.
  repeat split. exists (counters p). unfold cnt; simpl. rewrite Hp. split; reflexivity.
Qed.

Lemma feed_without_title_mapping_skips_every_item_witness :
  let f := demo_feed FeedTypeCSV MatchByEAN ImportModeCreateUpdate in
  let f := with_status "active" None 0 f in
  let price := {| fm_SourceField := "price"; fm_TargetField := "price"; fm_TransformType := "";
                  fm_TransformValue := ""; fm_DefaultValue := ""; fm_IsRequired := true |} in
  let f := {| f_ID := f_ID f; f_Name := f_Name f; f_Description := f_Description f;
              f_FeedURL := f_FeedURL f; f_FeedType := f_FeedType f;
              f_XMLItemPath := f_XMLItemPath f; f_CSVDelimiter := f_CSVDelimiter f;
              f_CSVHasHeader := f_CSVHasHeader f; f_ImportMode := f_ImportMode f;
              f_MatchBy := f_MatchBy f; f_DefaultCategory := f_DefaultCategory f;
              f_ImportImages := f_ImportImages f; f_CreateAttributes := f_CreateAttributes f;
              f_ScheduleEnabled := f_ScheduleEnabled f; f_ScheduleCron := f_ScheduleCron f;
              f_Active := f_Active f; f_Status := f_Status f; f_LastError := f_LastError f;
              f_TotalProducts := f_TotalProducts f; f_FieldMappings := [price] |} in
  let w := mid_run (empty_catalog f) f 0 in
  let raw := csv_item ["title"; "price"] ["Phone"; "19,99"] in
  let w' := default w (state_after (processCallback (lab "" None) raw w)) in
  db w' = db w /\ cnt w' = Some (1, 0, 0, 1, 0).
Proof.
  intros f0 f1 price f w raw w'.
  destruct (feed_without_title_mapping_skips_every_item (lab "" None) raw w w' None)
    as (_ & Hdb & _ & t & Ht & Ht').
  - split; [discriminate|]. repeat constructor. discriminate.
  - reflexivity.
  - vm_compute. reflexivity.
  - split; [exact Hdb|]. rewrite Ht'. vm_compute in Ht. injection Ht as <-. reflexivity.
Defined.

(** ** Categories *)

Lemma resolve_parts_blank env (parts : list string) (parentID : option string)
    (lastID : string) (w : World) :
  Forall blank parts -> resolve_parts env parts parentID lastID w = Ok lastID w.
Proof.
  induction 1 as [|part rest Hb _ IH]; simpl; [reflexivity|].
  unfold blank in Hb. now rewrite Hb.
Qed.

(** X5.  A path whose parts are all blank (such as [" | "]) resolves to no
    category: nothing is looked up, inserted or cached, and the state is as
    before. *)
Theorem blank_category_path_resolves_to_nil (env : Env) (categoryPath : string) (w : World) :
  Forall blank (GoStrings.Split categoryPath "|") ->
  categoryCache (eng w) !! categoryPath = None ->
  getOrCreateCategory env categoryPath w = Ok None w.
Proof.
  intros Hb Hc; unfold getOrCreateCategory.
  destruct (String.eqb categoryPath ""); [reflexivity|].
  unfold mbind at 1, ST_bind at 1, the_engine. rewrite Hc.
  unfold mbind, ST_bind. rewrite category_parts_is_pipe_split, (resolve_parts_blank _ _ _ _ _ Hb).
  reflexivity.
Qed.

Lemma blank_category_path_resolves_to_nil_witness :
  let f := demo_feed FeedTypeCSV MatchByEAN ImportModeCreateUpdate in
  let w := mid_run (empty_catalog f) f 0 in
  getOrCreateCategory (lab "" None) " | | " w = Ok None w.
Proof.
  intros f w. apply blank_category_path_resolves_to_nil.
  - repeat constructor.
  - reflexivity.
Defined.

Lemma created_for_cons (part : string) (parts : list string) (c : Category) :
  created_for parts c -> created_for (part :: parts) c.
Proof.
  intros (H1 & H2 & H3 & H4); split; [exact H1|]. split; [|split; assumption].
  rewrite fmap_cons. now right.
Qed.

(** The loop over the parts only appends to [categories]: one row at most
    for each part, named after it. *)
Lemma resolve_parts_appends env (parts : list string) :
  forall parentID lastID (w w' : World) r,
    resolve_parts env parts parentID lastID w = Ok r w' ->
    eng w' = eng w
    /\ products (db w') = products (db w)
    /\ import_history (db w') = import_history (db w)
    /\ feeds (db w') = feeds (db w)
    /\ exists new, categories (db w') = (categories (db w) ++ new)%list
                   /\ (List.length new <= List.length parts)%nat
                   /\ Forall (created_for parts) new.
Proof.
  induction parts as [|part rest IH]; intros parentID lastID w w' r H; simpl in H.
  - apply ret_inv in H as [_ ->]. repeat split. exists []. rewrite app_nil_r. repeat split; auto.
  - assert (Hrest : forall parentID lastID w0,
              eng w0 = eng w -> products (db w0) = products (db w) ->
              import_history (db w0) = import_history (db w) -> feeds (db w0) = feeds (db w) ->
              forall mid, categories (db w0) = (categories (db w) ++ mid)%list ->
              (List.length mid <= 1)%nat -> Forall (created_for (part :: rest)) mid ->
              resolve_parts env rest parentID lastID w0 = Ok r w' ->
              eng w' = eng w
              /\ products (db w') = products (db w)
              /\ import_history (db w') = import_history (db w)
              /\ feeds (db w') = feeds (db w)
              /\ exists new, categories (db w') = (categories (db w) ++ new)%list
                             /\ (List.length new <= S (List.length rest))%nat
                             /\ Forall (created_for (part :: rest)) new).
    { intros parentID' lastID' w0 E1 E2 E3 E4 mid E5 Hlen Hmid H0.
      apply IH in H0 as (K1 & K2 & K3 & K4 & new & K5 & K6 & K7).
      repeat split; try congruence.
      exists (mid ++ new)%list. rewrite K5, E5, app_assoc. split; [reflexivity|].
      split; [rewrite length_app; lia|].
      apply Forall_app; split; [exact Hmid|].
      eapply Forall_impl; [exact K7 | intros c; apply created_for_cons]. }
    destruct (String.eqb (GoStrings.TrimSpace part) "") eqn:Ename.
    { apply (Hrest _ _ w) with (mid := []) in H; auto. now rewrite app_nil_r. }
    bind_inv H as slug w1 Hslug. unfold generateSlug in Hslug.
    bind_inv Hslug as u w0 Hu. apply uuid_inv in Hu as [_ ->]. apply ret_inv in Hslug as [_ ->].
    bind_inv H as found w2 Hfind. apply QueryRow_inv in Hfind as (F1 & F2 & F3 & _).
    bind_inv H as categoryID w3 Hmk.
    assert (Hmid : eng w3 = eng w /\ products (db w3) = products (db w)
                   /\ import_history (db w3) = import_history (db w)
                   /\ feeds (db w3) = feeds (db w)
                   /\ exists mid, categories (db w3) = (categories (db w) ++ mid)%list
                                  /\ (List.length mid <= 1)%nat
                                  /\ Forall (created_for (part :: rest)) mid).
    { destruct found as [id|].
      - apply ret_inv in Hmk as [_ ->]. rewrite F1, F3. repeat split.
        exists []. rewrite app_nil_r. repeat split; auto.
      - bind_inv Hmk as id w4 Hid. apply uuid_inv in Hid as [-> ->].
        bind_inv Hmk as e w5 Hins. apply ret_inv in Hmk as [_ ->].
        apply Exec_inv in Hins as (G1 & G2 & [(_ & G3) | (_ & G3)]); simpl in *.
        + rewrite G1, G3, F1, F3. repeat split. exists []. rewrite app_nil_r. repeat split; auto.
        + rewrite G1, G3, F1, F3. repeat split. eexists [_]. split; [reflexivity|].
          split; [simpl; lia|]. constructor; [|constructor].
          split; [|split; [|split; reflexivity]]; simpl.
          * intros E; rewrite E in Ename; discriminate Ename.
          * now left. }
    destruct Hmid as (E1 & E2 & E3 & E4 & mid & E5 & Hlen & Hmid).
    destruct (String.eqb categoryID ""); eapply Hrest in H; eauto.
Qed.

Lemma getOrCreateCategory_appends (env : Env) (categoryPath : string)
    (w w' : World) (leaf : option string) :
  getOrCreateCategory env categoryPath w = Ok leaf w' ->
  products (db w') = products (db w)
  /\ import_history (db w') = import_history (db w)
  /\ feeds (db w') = feeds (db w)
  /\ exists new,
       categories (db w') = (categories (db w) ++ new)%list
       /\ (List.length new <= List.length (GoStrings.Split categoryPath "|"))%nat
       /\ Forall (created_for (GoStrings.Split categoryPath "|")) new.
Proof.
  unfold getOrCreateCategory; intros H.
  assert (Hsame : products (db w) = products (db w)
            /\ import_history (db w) = import_history (db w)
            /\ feeds (db w) = feeds (db w)
            /\ exists new,
                 categories (db w) = (categories (db w) ++ new)%list
                 /\ (List.length new <= List.length (GoStrings.Split categoryPath "|"))%nat
                 /\ Forall (created_for (GoStrings.Split categoryPath "|")) new).
  { repeat split. exists []. rewrite app_nil_r. repeat split; [simpl; lia | constructor]. }
  destruct (String.eqb categoryPath ""); [apply ret_inv in H as [_ ->]; exact Hsame|].
  bind_inv H as e w0 He. apply ret_inv in He as [-> ->].
  destruct (categoryCache (eng w) !! categoryPath).
  { apply ret_inv in H as [_ ->]; exact Hsame. }
  bind_inv H as lastID w1 Hparts. rewrite category_parts_is_pipe_split in Hparts.
  apply resolve_parts_appends in Hparts as (K1 & K2 & K3 & K4 & new & K5 & K6 & K7).
  assert (Hdb : db w' = db w1).
  { destruct (String.eqb lastID ""); [apply ret_inv in H as [_ ->]; reflexivity|].
    bind_inv H as u w2 Hput. apply ret_inv in H as [_ ->].
    injection Hput as _ Hw2. now rewrite <- Hw2. }
  rewrite Hdb. repeat split; auto. exists new; auto.
Qed.



(** ** The resolver and the engine's record *)

Lemma getOrCreateCategory_engine env (categoryPath : string) (w w' : World)
    (leaf : option string) :
  getOrCreateCategory env categoryPath w = Ok leaf w' ->
  feed (eng w') = feed (eng w) /\ progress (eng w') = progress (eng w).
Proof.
  unfold getOrCreateCategory; intros H.
  destruct (String.eqb categoryPath ""); [apply ret_inv in H as [_ ->]; auto|].
  bind_inv H as e w0 He. apply ret_inv in He as [-> ->].
  destruct (categoryCache (eng w) !! categoryPath); [apply ret_inv in H as [_ ->]; auto|].
  bind_inv H as lastID w1 Hparts. apply resolve_parts_appends in Hparts as (K1 & _).
  destruct (String.eqb lastID ""); [apply ret_inv in H as [_ ->]; now rewrite K1|].
  bind_inv H as u w2 Hput. apply ret_inv in H as [_ ->].
  injection Hput as _ Hw2. rewrite <- Hw2; simpl. now rewrite K1.
Qed.

(** ** A failed INSERT into categories *)



(** ** Items that cannot be matched *)

Lemma findExistingProduct_unmatchable env (item : FeedItem) (w : World) :
  unmatchable (feed (eng w)) item = true -> findExistingProduct env item w = Ok ("", "") w.
Proof.
  unfold unmatchable, findExistingProduct, mbind, ST_bind, the_engine.
  destruct (String.eqb (f_MatchBy (feed (eng w))) MatchByEAN); [intros ->; reflexivity|].
  destruct (String.eqb (f_MatchBy (feed (eng w))) MatchBySKU); [intros ->; reflexivity|].
  destruct (String.eqb (f_MatchBy (feed (eng w))) MatchByExternalID); [intros ->; reflexivity|].
  destruct (String.eqb (f_MatchBy (feed (eng w))) MatchByTitle); [discriminate | reflexivity].
Qed.

Lemma findExistingProduct_matchable env (item : FeedItem) (w : World) :
  unmatchable (feed (eng w)) item = false ->
  findExistingProduct env item w = scan_product env (match_clause (feed (eng w)) item) w.
Proof.
  unfold unmatchable, findExistingProduct, match_clause.
  unfold mbind at 1, ST_bind at 1, the_engine.
  destruct (String.eqb (f_MatchBy (feed (eng w))) MatchByEAN); [intros ->; reflexivity|].
  destruct (String.eqb (f_MatchBy (feed (eng w))) MatchBySKU); [intros ->; reflexivity|].
  destruct (String.eqb (f_MatchBy (feed (eng w))) MatchByExternalID); [intros ->; reflexivity|].
  destruct (String.eqb (f_MatchBy (feed (eng w))) MatchByTitle); [reflexivity | discriminate].
Qed.

Lemma createProduct_inv env (item : FeedItem) (categoryID : option string) (checksum : string)
    (w w' : World) (e : error) :
  createProduct env item categoryID checksum w = Ok e w' ->
  eng w' = eng w
  /\ categories (db w') = categories (db w)
  /\ match e with
     | Some _ => products (db w') = products (db w)
     | None =>
         exists slug,
           products (db w')
           = (products (db w)
              ++ [new_product (uuid_New env (uuids w)) slug item categoryID
                    (f_ID (feed (eng w))) checksum])%list
     end.
Proof.
  unfold createProduct; intros H.
  bind_inv H as id w1 Hid. apply uuid_inv in Hid as [-> ->].
  bind_inv H as slug w2 Hslug. unfold generateSlug in Hslug.
  bind_inv Hslug as u w3 Hu. apply uuid_inv in Hu as [-> ->]. apply ret_inv in Hslug as [-> ->].
  bind_inv H as e0 w4 He. apply ret_inv in He as [-> ->].
  apply Exec_inv in H as (K1 & _ & [(-> & K2) | (-> & K2)]); rewrite K1, K2; simpl;
    repeat split; eauto.
Qed.

(** X8.  With nothing to match by (the feed matches by EAN, SKU or external id
    and the item leaves it empty, or [match_by] is none of the known
    fields), no lookup is made and the item is inserted as a new product,
    whatever the catalogue holds: a second run inserts it again. *)
Theorem unmatchable_item_is_inserted_again (env : Env) (item : FeedItem) (w w' : World)
    (err : error) :
  unmatchable (feed (eng w)) item = true ->
  processItem env item w = Ok err w' ->
  match err with
  | Some _ => products (db w') = products (db w)
  | None =>
      (exists row, products (db w') = (products (db w) ++ [row])%list
                   /\ p_title row = Title item
                   /\ p_feed_checksum row = Some (calculateChecksum item))
      /\ exists t, cnt w = Some t /\ cnt w' = Some (bump Created t)
  end.
Proof.
  intros Hun H; unfold processItem in H.
  rewrite (bind_Ok _ _ _ _ _ (findExistingProduct_unmatchable env item w Hun)) in H.
  cbn [negb andb String.eqb] in H.
  bind_inv H as categoryID w1 Hcat.
  assert (K : products (db w1) = products (db w) /\ feed (eng w1) = feed (eng w)
              /\ cnt w1 = cnt w).
  { destruct (negb (String.eqb (CategoryPath item) "")).
    - pose proof (getOrCreateCategory_same_counters env _ _ _ _ Hcat) as Kc.
      pose proof (getOrCreateCategory_engine env _ _ _ _ Hcat) as [Kf _].
      apply getOrCreateCategory_appends in Hcat as (Kp & _). auto.
    - apply ret_inv in Hcat as [_ ->]; auto. }
  destruct K as (Kp & Kf & Kc).
  bind_inv H as e w2 Hnew.
  pose proof (createProduct_same_counters env _ _ _ _ _ _ Hnew) as Kn.
  apply createProduct_inv in Hnew as (_ & _ & Hrows).
  destruct e as [e|].
  - apply ret_inv in H as [-> ->]. congruence.
  - bind_inv H as u w3 Hinc. apply ret_inv in H as [-> ->].
    pose proof (on_progress_inv _ _ _ _ Hinc) as (p & _ & Hw3).
    apply (on_progress_cnt _ (bump Created)) in Hinc as (t & E1 & E2); [|intros q; reflexivity].
    split.
    + destruct Hrows as [slug Hrows]. eexists. rewrite Hw3; simpl. rewrite Hrows, Kp.
      split; [reflexivity | split; reflexivity].
    + exists t. split; [|exact E2]. unfold same_counters in Kn. congruence.
Qed.

Lemma unmatchable_item_is_inserted_again_witness :
  let f := demo_feed FeedTypeCSV MatchByEAN ImportModeCreateUpdate in
  let w := mid_run (catalog_with_phone f) f 0 in
  let item := set_EAN "" phone in
  let w' := default w (state_after (processItem (lab "" None) item w)) in
  (exists row, products (db w') = (products (db w) ++ [row])%list
               /\ p_title row = "Phone"
               /\ p_feed_checksum row = Some (calculateChecksum item))
  /\ p_title <$> products (db w') = ["Phone"; "Phone"].
Proof.
  intros f w item w'.
  pose proof (unmatchable_item_is_inserted_again (lab "" None) item w w' None) as H.
  destruct H as [H _].
  - reflexivity.
  - vm_compute. reflexivity.
  - split; [exact H | vm_compute; reflexivity].
Defined.

(** ** An item that comes twice *)

Section Reliable.

Context (env : Env).
Hypothesis db_answers : forall n, db_fault env n = false.

Lemma scan_product_answers (sel : Product -> bool) (w : World) :
  scan_product env sel w
  = Ok (scanned (List.find sel (products (db w)))) (set_db (sent (db w)) w).
Proof.
  unfold scan_product, QueryRow, statement, mbind, ST_bind. rewrite db_answers.
  simpl. now destruct (List.find sel (products (db w))).
Qed.

Lemma Exec_answers (f : DB -> DB) (w : World) :
  Exec env f w = Ok None (set_db (f (sent (db w))) w).
Proof. unfold Exec, statement. now rewrite db_answers. Qed.

End Reliable.

Lemma match_clause_written (f : Feed) (item : FeedItem) (id slug feedID checksum : string)
    (categoryID : option string) (p : Product) :
  unmatchable f item = false ->
  match_clause f item (new_product id slug item categoryID feedID checksum) = true
  /\ match_clause f item (updated_product item categoryID checksum p) = true.
Proof.
  unfold unmatchable, match_clause, nullIfEmpty.
  destruct (String.eqb (f_MatchBy f) MatchByEAN).
  { intros H; simpl; unfold nullIfEmpty; rewrite H. split; now apply bool_decide_eq_true. }
  destruct (String.eqb (f_MatchBy f) MatchBySKU).
  { intros H; simpl; unfold nullIfEmpty; rewrite H. split; now apply bool_decide_eq_true. }
  destruct (String.eqb (f_MatchBy f) MatchByExternalID).
  { intros H; simpl; unfold nullIfEmpty; rewrite H. split; now apply bool_decide_eq_true. }
  intros _; simpl. now rewrite String.eqb_refl.
Qed.

(** After the UPDATE of the rows with the id of the first match, the first
    match is a row with that id and the new checksum. *)
Lemma find_after_update (sel : Product -> bool) (upd : Product -> Product)
    (rows : list Product) (p : Product) :
  (forall q, sel (upd q) = true) ->
  (forall q, p_id (upd q) = p_id q) ->
  List.find sel rows = Some p ->
  exists q, List.find sel
              (List.map (fun q => if String.eqb (p_id q) (p_id p) then upd q else q) rows)
            = Some (upd q)
            /\ p_id q = p_id p.
Proof.
  intros Hsel Hid; induction rows as [|r rows IH]; simpl; [discriminate|].
  destruct (sel r) eqn:Er.
  - intros [= ->]. rewrite String.eqb_refl, Hsel. eauto.
  - intros H. destruct (String.eqb (p_id r) (p_id p)) eqn:E.
    + rewrite Hsel. apply String.eqb_eq in E. eauto.
    + rewrite Er. auto.
Qed.

Lemma find_after_insert {A} (sel : A -> bool) (rows : list A) (row : A) :
  List.find sel rows = None -> sel row = true -> List.find sel (rows ++ [row]) = Some row.
Proof.
  induction rows as [|r rows IH]; simpl; intros H Hrow; [now rewrite Hrow|].
  destruct (sel r); [discriminate | auto].
Qed.

Lemma find_Some_In {A} (sel : A -> bool) (rows : list A) (a : A) :
  List.find sel rows = Some a -> In a rows.
Proof. intros H; apply find_some in H as [H _]; exact H. Qed.

(** X9.  An item that [processItem] has written is skipped when it comes
    again.  With a database that answers, UUIDs that are not empty and
    product ids that are not empty: after a call that returned nil, a second
    call on the same item returns nil, writes to no table, draws no UUID and
    counts the item as skipped. *)
Theorem item_processed_twice_is_skipped (env : Env) (item : FeedItem) (w w1 : World) :
  (forall n, db_fault env n = false) ->
  (forall n, uuid_New env n <> "") ->
  Forall (fun p => p_id p <> "") (products (db w)) ->
  unmatchable (feed (eng w)) item = false ->
  processItem env item w = Ok None w1 ->
  exists w2,
    processItem env item w1 = Ok None w2
    /\ same_tables (db w1) (db w2)
    /\ uuids w2 = uuids w1
    /\ exists t, cnt w1 = Some t /\ cnt w2 = Some (bump Skipped t).
Proof.
  intros Hdb Huuid Hids Hm H.
  set (sel := match_clause (feed (eng w)) item).
  (* what suffices: after the first call the progress record is there, the
     feed is the same, and the first match is a row with the new checksum *)
  assert (Hskip : forall p row,
            progress (eng w1) = Some p -> feed (eng w1) = feed (eng w) ->
            List.find sel (products (db w1)) = Some row ->
            p_id row <> "" -> p_feed_checksum row = Some (calculateChecksum item) ->
            exists w2,
              processItem env item w1 = Ok None w2
              /\ same_tables (db w1) (db w2)
              /\ uuids w2 = uuids w1
              /\ exists t, cnt w1 = Some t /\ cnt w2 = Some (bump Skipped t)).
  { intros p row Hp Hfeed Hrow Hid Hcs. unfold processItem.
    assert (Hfind : findExistingProduct env item w1
                    = Ok (p_id row, calculateChecksum item) (set_db (sent (db w1)) w1)).
    { rewrite findExistingProduct_matchable by (now rewrite Hfeed).
      rewrite Hfeed. fold sel. rewrite (scan_product_answers env Hdb sel w1), Hrow.
      cbn [scanned]. now rewrite Hcs. }
    rewrite (bind_Ok _ _ _ _ _ Hfind).
    rewrite (proj2 (String.eqb_neq _ _) Hid), String.eqb_refl. cbn [negb andb].
    unfold mbind at 1, ST_bind at 1.
    rewrite (on_progress_Ok _ _ p) by exact Hp.
    eexists; split; [reflexivity|]. split; [now repeat split|]. split; [reflexivity|].
    exists (counters p). unfold cnt; simpl. now rewrite Hp. }
  unfold processItem in H.
  assert (Hfind : findExistingProduct env item w
                  = Ok (scanned (List.find sel (products (db w)))) (set_db (sent (db w)) w)).
  { rewrite findExistingProduct_matchable by exact Hm. apply (scan_product_answers env Hdb). }
  rewrite (bind_Ok _ _ _ _ _ Hfind) in H. clear Hfind.
  destruct (List.find sel (products (db w))) as [row|] eqn:Hrow; cbn [scanned] in H.
  - (* a row matched *)
    assert (Hid : p_id row <> "").
    { apply find_Some_In in Hrow. rewrite Forall_forall in Hids. apply Hids.
      now apply list_elem_of_In. }
    rewrite (proj2 (String.eqb_neq _ _) Hid) in H. cbn [negb andb] in H.
    destruct (String.eqb (default "" (p_feed_checksum row)) (calculateChecksum item)) eqn:Ecs.
    + (* unchanged: skipped the first time already *)
      bind_inv H as u w0 Hinc. apply ret_inv in H as [_ ->].
      apply on_progress_inv in Hinc as (p & Hp & ->). simpl in Hp.
      apply String.eqb_eq in Ecs.
      apply (Hskip _ row eq_refl eq_refl); [exact Hrow | exact Hid |].
      destruct (p_feed_checksum row) as [cs|] eqn:E; simpl in Ecs; [now subst|].
      exfalso. pose proof (calculateChecksum_hex item) as [Hlen _].
      rewrite <- Ecs in Hlen. discriminate Hlen.
    + (* changed: updated *)
      bind_inv H as categoryID w0 Hcat.
      assert (K : products (db w0) = products (db w) /\ feed (eng w0) = feed (eng w)).
      { destruct (negb (String.eqb (CategoryPath item) "")).
        - pose proof (getOrCreateCategory_engine env _ _ _ _ Hcat) as [Kf _].
          apply getOrCreateCategory_appends in Hcat as (Kp & _). auto.
        - apply ret_inv in Hcat as [_ ->]; auto. }
      destruct K as [Kp Kf].
      bind_inv H as e w2 Hupd. unfold updateProduct in Hupd.
      rewrite (Exec_answers env Hdb) in Hupd. injection Hupd as <- <-.
      bind_inv H as u w3 Hinc. apply ret_inv in H as [_ ->].
      apply on_progress_inv in Hinc as (p & Hp & ->). simpl in Hp.
      destruct (find_after_update sel (updated_product item categoryID (calculateChecksum item))
                  (products (db w)) row) as (q & Hq & Hqid).
      * intros q. now apply (match_clause_written (feed (eng w)) item "" "" "" _ categoryID q).
      * reflexivity.
      * exact Hrow.
      * eapply (Hskip _ _ eq_refl); simpl; [exact Kf | rewrite Kp; exact Hq | | reflexivity].
        change (p_id q <> ""). now rewrite Hqid.
  - (* no row matched: created *)
    cbn [String.eqb negb andb] in H.
    bind_inv H as categoryID w0 Hcat.
    assert (K : products (db w0) = products (db w) /\ feed (eng w0) = feed (eng w)).
    { destruct (negb (String.eqb (CategoryPath item) "")).
      - pose proof (getOrCreateCategory_engine env _ _ _ _ Hcat) as [Kf _].
        apply getOrCreateCategory_appends in Hcat as (Kp & _). auto.
      - apply ret_inv in Hcat as [_ ->]; auto. }
    destruct K as [Kp Kf].
    bind_inv H as e w2 Hnew.
    apply createProduct_inv in Hnew as (Ke & _ & Hrows).
    destruct e as [e|]; [apply ret_inv in H as [H _]; discriminate H|].
    destruct Hrows as [slug Hrows].
    bind_inv H as u w3 Hinc. apply ret_inv in H as [_ ->].
    apply on_progress_inv in Hinc as (p & Hp & ->).
    eapply (Hskip _ _ eq_refl); simpl.
    + now rewrite Ke.
    + rewrite Hrows, Kp. apply find_after_insert; [exact Hrow|].
      now apply (match_clause_written (feed (eng w)) item _ _ _ _ categoryID
                   (new_product "" "" item None "" "")).
    + apply Huuid.
    + reflexivity.
Qed.

Lemma lab_uuid_not_empty (n : nat) : lab_uuid n <> "".
Proof. unfold lab_uuid. destruct (hex_digits 8 (Z.of_nat n) ""); discriminate. Qed.

Lemma item_processed_twice_is_skipped_witness :
  let f := demo_feed FeedTypeCSV MatchByEAN ImportModeCreateUpdate in
  let w := mid_run (empty_catalog f) f 0 in
  let w1 := default w (state_after (processItem (lab "" None) phone w)) in
  exists w2,
    processItem (lab "" None) phone w1 = Ok None w2
    /\ same_tables (db w1) (db w2)
    /\ cnt w1 = Some (0, 1, 0, 0, 0)
    /\ cnt w2 = Some (0, 1, 0, 1, 0).
Proof.
  intros f w w1.
  destruct (item_processed_twice_is_skipped (lab "" None) phone w w1)
    as (w2 & H1 & H2 & _ & t & H3 & H4).
  - reflexivity.
  - exact lab_uuid_not_empty.
  - constructor.
  - reflexivity.
  - vm_compute. reflexivity.
  - exists w2. split; [exact H1|]. split; [exact H2|].
    assert (Ht : cnt w1 = Some (0, 1, 0, 0, 0)) by (vm_compute; reflexivity).
    split; [exact Ht|]. rewrite H4. rewrite Ht in H3. injection H3 as <-. reflexivity.
Defined.

(** ** Stop *)

Lemma last_skipn {A} (k : nat) (l : list A) :
  (k < List.length l)%nat -> last (List.skipn k l) = last l.
Proof.
  revert l; induction k as [|k IH]; intros [|a l] H; simpl in *; try reflexivity; try lia.
  rewrite IH by lia. destruct l; [simpl in H; lia | reflexivity].
Qed.

(** The entry [log] has appended is the last one. *)
Lemma log_last (level message : string) (w w' : World) (u : unit) :
  log level message w = Ok u w' ->
  exists p p', progress (eng w) = Some p /\ progress (eng w') = Some p'
               /\ last (ip_Logs p') = Some {| Level := level; Message := message |}
               /\ (List.length (ip_Logs p') <= 100)%nat
               /\ counters p' = counters p
               /\ w' = set_eng (set_progress (Some p') (eng w)) w.
Proof.
  unfold log; intros H. apply on_progress_inv in H as (p & Hp & ->).
  eexists p, _. split; [exact Hp|]. split; [reflexivity|]. simpl.
  set (logs := (ip_Logs p ++ [_])%list).
  assert (Hlast : last logs = Some {| Level := level; Message := message |}) by apply last_snoc.
  destruct (100 <? List.length logs)%nat eqn:E.
  - apply Nat.ltb_lt in E. rewrite last_skipn by lia. rewrite length_skipn. repeat split; auto; lia.
  - apply Nat.ltb_ge in E. repeat split; auto.
Qed.

(** X10.  [Stop] before [Run] has made the progress record dereferences a nil
    pointer in [log].  After that, it returns, sets [shouldStop] and logs the
    request, leaving tables and counters alone; and from then on the item
    callback returns the cancellation error for every record and changes
    nothing. *)
Theorem Stop_before_and_during_a_run (env : Env) (w : World) :
  match progress (eng w) with
  | None => Stop w = Panic nil_deref
  | Some p =>
      exists w' p',
        Stop w = Ok tt w'
        /\ shouldStop (eng w') = true
        /\ db w' = db w /\ uuids w' = uuids w
        /\ progress (eng w') = Some p'
        /\ counters p' = counters p
        /\ last (ip_Logs p') = Some {| Level := "info"; Message := "Stop requested" |}
        /\ forall raw, processCallback env raw w' = Ok (Some "import cancelled") w'
  end.
Proof.
  destruct (progress (eng w)) as [p|] eqn:Hp.
  - destruct (log "info" "Stop requested" (set_eng (set_shouldStop true (eng w)) w))
      as [[] w'| |] eqn:Hlog.
    + pose proof (log_last _ _ _ _ _ Hlog) as (q & p' & Hq & Hp' & Hlast & _ & Hcnt & Hw').
      simpl in Hq. rewrite Hp in Hq. injection Hq as <-.
      exists w', p'. unfold Stop, on_engine, modify, mbind, ST_bind. rewrite Hlog.
      split; [reflexivity|]. rewrite Hw'; simpl. repeat split; auto.
    + unfold log in Hlog. rewrite (on_progress_Ok _ _ p) in Hlog by (simpl; exact Hp).
      discriminate Hlog.
    + unfold log in Hlog. rewrite (on_progress_Ok _ _ p) in Hlog by (simpl; exact Hp).
      discriminate Hlog.
  - unfold Stop, log, on_engine, modify, on_progress, the_progress, mbind, ST_bind; simpl.
    now rewrite Hp.
Qed.

(** ** Status and counters through a run *)

#[global] Instance same_status_preorder : PreOrder same_status.
Proof. split; unfold same_status; [intros w | intros a b c]; congruence. Qed.

Lemma on_progress_same_status (f : ImportProgress -> ImportProgress) :
  (forall p, ip_Status (f p) = ip_Status p) -> preserves same_status (on_progress f).
Proof.
  intros Hf w u w' H. apply on_progress_inv in H as (p & Hp & ->).
  unfold same_status; simpl. rewrite Hp; simpl. now rewrite Hf.
Qed.

Lemma log_same_status (level message : string) : preserves same_status (log level message).
Proof. apply on_progress_same_status; intros p; reflexivity. Qed.

Lemma updateProgress_same_status (message : string) :
  preserves same_status (updateProgress message).
Proof.
  unfold updateProgress; apply preserves_bind; try exact _.
  - apply on_progress_same_status; intros p; reflexivity.
  - intros _; apply on_progress_same_status; intros p; now destruct (0 <? ip_Total p)%Z.
Qed.

Lemma saveHistory_same_counters env (h : ImportHistory) :
  preserves same_counters (saveHistory env h).
Proof. unfold saveHistory; keeps. Qed.

Lemma updateFeedStatus_same_counters env (status errorMsg : string) :
  preserves same_counters (updateFeedStatus env status errorMsg).
Proof. unfold updateFeedStatus; keeps. Qed.

Lemma updateCategoryCounts_same_counters env : preserves same_counters (updateCategoryCounts env).
Proof. unfold updateCategoryCounts; keeps. Qed.

#[global] Hint Resolve saveHistory_same_counters updateFeedStatus_same_counters
  updateCategoryCounts_same_counters : keeps.

(** What [completeImport] returns and leaves: the history carries the
    counters of the progress record, which end as they were. *)
Lemma completeImport_inv env (history : ImportHistory) (w w' : World)
    (r : option ImportHistory * error) :
  completeImport env history w = Ok r w' ->
  exists p p',
    progress (eng w) = Some p /\ progress (eng w') = Some p'
    /\ r = (Some (completed_history env p history), None)
    /\ ip_Status p' = ImportStatusCompleted
    /\ counters p' = counters p
    /\ (List.length (ip_Logs p') <= 100)%nat.
Proof.
  unfold completeImport; intros H.
  bind_inv H as p w0 Hp.
  assert (Hp0 : progress (eng w) = Some p /\ w0 = w).
  { unfold the_progress in Hp. destruct (progress (eng w)); [|discriminate].
    injection Hp as -> ->; auto. }
  destruct Hp0 as [Hp0 ->]. clear Hp.
  bind_inv H as e1 w1 H1. pose proof (saveHistory_same_counters env _ _ _ _ H1) as K1.
  bind_inv H as u2 w2 H2. pose proof (updateFeedStatus_same_counters env _ _ _ _ _ H2) as K2.
  bind_inv H as u3 w3 H3. pose proof (updateCategoryCounts_same_counters env _ _ _ H3) as K3.
  bind_inv H as u4 w4 H4.
  pose proof (on_progress_inv _ _ _ _ H4) as (p3 & Hp3 & Hw4).
  assert (K4 : same_counters w3 w4).
  { eapply on_progress_same_counters; [|exact H4]. intros q; reflexivity. }
  assert (S4 : ip_Status <$> progress (eng w4) = Some ImportStatusCompleted)
    by (rewrite Hw4; reflexivity).
  bind_inv H as u5 w5 H5.
  pose proof (updateProgress_same_counters _ _ _ _ H5) as K5.
  pose proof (updateProgress_same_status _ _ _ _ H5) as S5.
  bind_inv H as p5 w6 H6. apply preserves_the_progress with (R := eq) in H6; try exact _.
  subst w6.
  bind_inv H as u7 w7 H7. apply ret_inv in H as [-> ->].
  pose proof (log_same_counters _ _ _ _ _ H7) as K7.
  pose proof (log_same_status _ _ _ _ _ H7) as S7.
  apply log_last in H7 as (q & p' & _ & Hp' & _ & Hlen & _ & _).
  exists p, p'. split; [exact Hp0|]. split; [exact Hp'|]. split; [reflexivity|].
  assert (Hs : ip_Status <$> progress (eng w7) = Some ImportStatusCompleted)
    by (unfold same_status in *; congruence).
  assert (Hc : cnt w7 = cnt w) by (unfold same_counters in *; congruence).
  unfold cnt in Hc. rewrite Hp' in Hs, Hc. rewrite Hp0 in Hc. simpl in Hs, Hc.
  split; [congruence|]. split; [congruence | exact Hlen].
Qed.

Lemma failImport_inv env (history : ImportHistory) (errorMsg : string) (w w' : World)
    (r : option ImportHistory * error) :
  failImport env history errorMsg w = Ok r w' ->
  exists h p p',
    progress (eng w) = Some p /\ progress (eng w') = Some p'
    /\ r = (Some h, Some errorMsg)
    /\ ih_Status h = ImportStatusFailed
    /\ ih_ErrorMessage h = Some errorMsg
    /\ history_counters h = history_counters history
    /\ ih_TotalItems h = ih_TotalItems history
    /\ ip_Status p' = ImportStatusFailed
    /\ counters p' = counters p
    /\ (List.length (ip_Logs p') <= 100)%nat.
Proof.
  unfold failImport; intros H.
  bind_inv H as e1 w1 H1. pose proof (saveHistory_same_counters env _ _ _ _ H1) as K1.
  bind_inv H as u2 w2 H2. pose proof (updateFeedStatus_same_counters env _ _ _ _ _ H2) as K2.
  bind_inv H as u4 w4 H4.
  pose proof (on_progress_inv _ _ _ _ H4) as (p3 & Hp3 & Hw4).
  assert (K4 : same_counters w2 w4).
  { eapply on_progress_same_counters; [|exact H4]. intros q; reflexivity. }
  assert (S4 : ip_Status <$> progress (eng w4) = Some ImportStatusFailed)
    by (rewrite Hw4; reflexivity).
  bind_inv H as u5 w5 H5.
  pose proof (updateProgress_same_counters _ _ _ _ H5) as K5.
  pose proof (updateProgress_same_status _ _ _ _ H5) as S5.
  bind_inv H as u7 w7 H7. apply ret_inv in H as [-> ->].
  pose proof (log_same_counters _ _ _ _ _ H7) as K7.
  pose proof (log_same_status _ _ _ _ _ H7) as S7.
  apply log_last in H7 as (q & p' & _ & Hp' & _ & Hlen & _ & _).
  assert (Hs : ip_Status <$> progress (eng w7) = Some ImportStatusFailed)
    by (unfold same_status in *; congruence).
  assert (Hc : cnt w7 = cnt w) by (unfold same_counters in *; congruence).
  unfold cnt in Hc. rewrite Hp' in Hs, Hc.
  destruct (progress (eng w)) as [p|] eqn:Hp0; [|discriminate Hc]. simpl in Hs, Hc.
  eexists _, p, p'. split; [reflexivity|]. split; [exact Hp'|]. split; [reflexivity|].
  simpl. repeat split; try congruence; exact Hlen.
Qed.

(** ** Where the traversal's error comes from *)

(** The item callback returns no other error than the cancellation. *)
Lemma processCallback_error env (item : RawItem) (w w' : World) (msg : string) :
  processCallback env item w = Ok (Some msg) w' -> msg = "import cancelled" /\ w' = w.
Proof.
  unfold processCallback; intros H.
  bind_inv H as e w0 He. apply ret_inv in He as [-> ->].
  destruct (shouldStop (eng w)); [apply ret_inv in H as [[= ->] ->]; auto|].
  exfalso.
  bind_inv H as u w1 Hproc. bind_inv H as feedItem w2 Hmap.
  destruct feedItem as [feedItem|].
  2:{ bind_inv H as u' w3 Hinc. apply ret_inv in H as [H _]; discriminate H. }
  destruct (String.eqb (Title feedItem) "").
  { bind_inv H as u' w3 Hinc. apply ret_inv in H as [H _]; discriminate H. }
  destruct (GoNum.is_zero (Price feedItem)).
  { bind_inv H as u' w3 Hinc. apply ret_inv in H as [H _]; discriminate H. }
  bind_inv H as perr w3 Hitem. destruct perr as [m|].
  - bind_inv H as u' w4 Hinc. bind_inv H as u'' w5 Hlog.
    apply ret_inv in H as [H _]; discriminate H.
  - bind_inv H as p w4 Hp. bind_inv H as u' w5 Hstats.
    apply ret_inv in H as [H _]; discriminate H.
Qed.

(** What one turn of the token loop does to the callback's state: nothing,
    or one call of the callback, whose error ends the loop. *)
Lemma xml_turn_inv {S} env (p : FeedParser) (data : string) (callback : RawItem -> ST S error)
    (n : nat) (l : XMLLoop) (s s' : S) (r : error + XMLLoop) :
  xml_turn env p data callback n l s = Ok r s' ->
  (s' = s /\ forall m, r <> inl (Some m))
  \/ exists item e,
       callback item s = Ok e s'
       /\ match e with
          | Some m => r = inl (Some m)
          | None => exists l', r = inr l'
          end.
Proof.
  unfold xml_turn; intros H.
  destruct (xml_Token env data n) as [[name|name|t|]| |];
    try (apply ret_inv in H as [-> ->]; left; split; [reflexivity | discriminate]).
  destruct (inItem l && GoStrings.EqualFold name (XMLItemPath p)
            && (List.length (currentPath l) =? itemDepth l)%nat).
  - bind_inv H as e s1 Hcb. right. exists (currentItem l), e.
    destruct e as [m|]; apply ret_inv in H as [-> ->]; split; eauto.
  - apply ret_inv in H as [-> ->]; left; split; [reflexivity | discriminate].
Qed.

(** An invariant of the callback is an invariant of the token loop, and an
    error of the loop is an error of the callback. *)
Lemma xml_loop_invariant {S} env (Inv : S -> Prop) (Err : string -> S -> Prop)
    (p : FeedParser) (data : string) (callback : RawItem -> ST S error) :
  (forall item s e s', callback item s = Ok e s' -> Inv s ->
                       Inv s' /\ match e with Some m => Err m s' | None => True end) ->
  forall fuel n l s e s',
    xml_loop env fuel p data callback n l s = Ok e s' -> Inv s ->
    Inv s' /\ match e with Some m => Err m s' | None => True end.
Proof.
  intros Hcb fuel; induction fuel as [|fuel IH]; intros n l s e s' H Hs; [discriminate H|].
  cbn [xml_loop] in H. bind_inv H as r s1 Hturn.
  apply xml_turn_inv in Hturn as [[-> Hr] | (item & e1 & Hcall & Hr)].
  - destruct r as [[m|]|l'].
    + now destruct (Hr m).
    + apply ret_inv in H as [-> ->]; auto.
    + eauto.
  - destruct (Hcb _ _ _ _ Hcall Hs) as [Hs1 He1]. destruct e1 as [m|].
    + subst r. apply ret_inv in H as [-> ->]; auto.
    + destruct Hr as [l' ->]. eauto.
Qed.

Lemma for_each_invariant_error {S A} (Inv : S -> Prop) (Err : string -> S -> Prop)
    (callback : A -> ST S error) :
  (forall item s e s', callback item s = Ok e s' -> Inv s ->
                       Inv s' /\ match e with Some m => Err m s' | None => True end) ->
  forall items s e s',
    for_each callback items s = Ok e s' -> Inv s ->
    Inv s' /\ match e with Some m => Err m s' | None => True end.
Proof.
  intros Hcb items; induction items as [|item rest IH]; intros s e s' H Hs; simpl in H.
  - apply ret_inv in H as [-> ->]; auto.
  - bind_inv H as a s1 H1. destruct (Hcb _ _ _ _ H1 Hs) as [Hs1 He1].
    destruct a as [m|]; [apply ret_inv in H as [-> ->]; auto | eauto].
Qed.

(** The second traversal of [Run] keeps an invariant of the item callback;
    an error it returns is the callback's, or else it is the parser's own
    and no record has been handed over. *)
Lemma process_items_invariant env (Inv : World -> Prop) (fuel : nat) (p : FeedParser)
    (feedType feedData : string) (w w' : World) (err : error) :
  (forall item w e w', (concurrent_stop env;; processCallback env item) w = Ok e w' ->
                       Inv w -> Inv w') ->
  process_items env fuel p feedType feedData w = Ok err w' ->
  Inv w ->
  Inv w' /\ match err with
            | Some m => m = "import cancelled" \/ w' = w
            | None => True
            end.
Proof.
  intros Hinv H Hw.
  assert (Hcb : forall item w e w',
            (concurrent_stop env;; processCallback env item) w = Ok e w' -> Inv w ->
            Inv w' /\ match e with
                      | Some m => (fun m _ => m = "import cancelled") m w'
                      | None => True
                      end).
  { intros item w0 e w1 H0 H1. split; [eauto|]. destruct e as [m|]; [|exact I].
    bind_inv H0 as u w2 Hstop. now apply processCallback_error in H0 as [-> _]. }
  assert (Hweak : forall e,
            Inv w' /\ match e with
                      | Some m => (fun m _ => m = "import cancelled") m w'
                      | None => True
                      end ->
            Inv w' /\ match e with
                      | Some m => m = "import cancelled" \/ w' = w
                      | None => True
                      end).
  { intros [m|] [H1 H2]; auto. }
  unfold process_items in H.
  destruct (String.eqb feedType FeedTypeXML).
  { apply Hweak. unfold ParseXMLFull in H.
    exact (xml_loop_invariant env Inv (fun m _ => m = "import cancelled") _ _ _ Hcb
             _ _ _ _ _ _ H Hw). }
  destruct (String.eqb feedType FeedTypeCSV).
  { unfold ParseCSVFull in H. destruct (CSVDelimiter p) as [|comma rest]; [discriminate H|].
    destruct (csv_ReadAll env comma feedData) as [e|[|headers rows]].
    - apply ret_inv in H as [-> ->]; auto.
    - apply ret_inv in H as [-> ->]; auto.
    - apply Hweak.
      refine (for_each_invariant_error Inv (fun m _ => m = "import cancelled") _ _
                _ _ _ _ H Hw).
      intros record; apply Hcb. }
  destruct (String.eqb feedType FeedTypeJSON).
  { unfold ParseJSONFull in H. destruct (json_Unmarshal env feedData) as [e|raw].
    - apply ret_inv in H as [-> ->]; auto.
    - destruct (findJSONProductsArray raw) as [items|].
      + apply Hweak.
        refine (for_each_invariant_error Inv (fun m _ => m = "import cancelled") _ _
                  _ _ _ _ H Hw).
        intros [| | | | |fields] w0 e w1 H0 H1; try (apply ret_inv in H0 as [-> ->]; auto).
        eauto.
      + apply ret_inv in H as [-> ->]; auto. }
  apply ret_inv in H as [-> ->]; auto.
Qed.

Lemma count_items_pure env (fuel : nat) (p : FeedParser) (feedType feedData : string)
    (w w' : World) (n : Z) :
  count_items env fuel p feedType feedData w = Ok n w' -> w' = w.
Proof.
  unfold count_items; intros H.
  destruct (if String.eqb feedType FeedTypeXML then _ else _); [|discriminate|discriminate].
  now injection H as _ <-.
Qed.

Lemma accounted_world_same (w w' : World) :
  same_counters w w' -> accounted_world w -> accounted_world w'.
Proof. unfold same_counters, accounted_world; now intros ->. Qed.

(** The state in which a run leaves the engine, and what it returns. *)
Lemma Run_post env (fuel : nat) (triggeredBy : string) (w w' : World) (h : ImportHistory)
    (e : error) :
  Run env fuel triggeredBy w = Ok (Some h, e) w' ->
  isRunning (eng w') = false
  /\ exists p,
       progress (eng w') = Some p
       /\ ip_Status p = ih_Status h
       /\ history_counters h = counters p
       /\ (List.length (ip_Logs p) <= 100)%nat
       /\ ((ih_Status h = ImportStatusCompleted /\ e = None /\ accounted (counters p))
           \/ (ih_Status h = ImportStatusFailed /\ is_Some e /\ ih_ErrorMessage h = e
               /\ counters p = (0, 0, 0, 0, 0))).
Proof.
  unfold Run; intros H.
  bind_inv H as en w0 He. apply ret_inv in He as [-> ->].
  destruct (isRunning (eng w)); [apply ret_inv in H as [H _]; discriminate H|].
  bind_inv H as u0 w1 H0.
  bind_inv H as r w2 Hrun.
  bind_inv H as u1 w3 Hclear. apply ret_inv in H as [Hr Hw]. subst r w'.
  injection Hclear as _ <-. split; [reflexivity|]. cbn [eng set_eng progress set_isRunning].
  clear H0 w. revert Hrun. generalize w1. clear w1. intros w Hrun.
  unfold run_import in Hrun.
  bind_inv Hrun as id wa Hid. bind_inv Hrun as ua wb Hb. bind_inv Hrun as en wc Hc.
  apply ret_inv in Hc as [-> ->].
  bind_inv Hrun as ub wd Hd. injection Hd as _ <-.
  set (w0 := set_eng _ wb) in Hrun.
  assert (Hz : cnt w0 = Some (0, 0, 0, 0, 0)) by reflexivity.
  bind_inv Hrun as e1 w1 H1. pose proof (saveHistory_same_counters env _ _ _ _ H1) as K1.
  bind_inv Hrun as u2 w2' H2. pose proof (updateFeedStatus_same_counters env _ _ _ _ _ H2) as K2.
  bind_inv Hrun as u3 w3 H3. pose proof (log_same_counters _ _ _ _ _ H3) as K3.
  bind_inv Hrun as u4 w4 H4. pose proof (updateProgress_same_counters _ _ _ _ H4) as K4.
  bind_inv Hrun as u5 w5 H5.
  assert (K5 : same_counters w4 w5) by (injection H5 as _ <-; reflexivity).
  assert (Hz5 : cnt w5 = Some (0, 0, 0, 0, 0)) by (unfold same_counters in *; congruence).
  clear H1 H2 H3 H4 H5 K1 K2 K3 K4 K5.
  assert (Hfail : forall history msg w6,
            cnt w6 = Some (0, 0, 0, 0, 0) -> history_counters history = (0, 0, 0, 0, 0) ->
            failImport env history msg w6 = Ok (Some h, e) w2 ->
            exists p,
              progress (eng w2) = Some p /\ ip_Status p = ih_Status h
              /\ history_counters h = counters p /\ (List.length (ip_Logs p) <= 100)%nat
              /\ ((ih_Status h = ImportStatusCompleted /\ e = None /\ accounted (counters p))
                  \/ (ih_Status h = ImportStatusFailed /\ is_Some e /\ ih_ErrorMessage h = e
                      /\ counters p = (0, 0, 0, 0, 0)))).
  { intros history msg w6 Hz6 Hh Hf.
    apply failImport_inv in Hf as (h' & p & p' & Hp & Hp' & Hr & Hs & Hm & Hhc & _ & Hps & Hpc & Hl).
    injection Hr as -> ->. exists p'. unfold cnt in Hz6. rewrite Hp in Hz6. simpl in Hz6.
    assert (Hz' : counters p' = (0, 0, 0, 0, 0)) by congruence.
    split; [exact Hp'|]. split; [congruence|]. split; [congruence|]. split; [exact Hl|].
    right. repeat split; eauto. }
  assert (Hdone : forall history w6,
            accounted_world w6 ->
            completeImport env history w6 = Ok (Some h, e) w2 ->
            exists p,
              progress (eng w2) = Some p /\ ip_Status p = ih_Status h
              /\ history_counters h = counters p /\ (List.length (ip_Logs p) <= 100)%nat
              /\ ((ih_Status h = ImportStatusCompleted /\ e = None /\ accounted (counters p))
                  \/ (ih_Status h = ImportStatusFailed /\ is_Some e /\ ih_ErrorMessage h = e
                      /\ counters p = (0, 0, 0, 0, 0)))).
  { intros history w6 Hacc Hf.
    apply completeImport_inv in Hf as (p & p' & Hp & Hp' & Hr & Hps & Hpc & Hl).
    injection Hr as -> ->. exists p'. unfold accounted_world, cnt in Hacc. rewrite Hp in Hacc.
    simpl in Hacc. split; [exact Hp'|]. split; [now rewrite Hps|].
    split; [now rewrite Hpc|]. split; [exact Hl|].
    left. repeat split. now rewrite Hpc. }
  destruct (http_get env _) as [err|feedData].
  { eapply Hfail in Hrun; eauto. }
  bind_inv Hrun as u6 w6 H6. pose proof (log_same_counters _ _ _ _ _ H6) as K6.
  bind_inv Hrun as u7 w7 H7. pose proof (updateProgress_same_counters _ _ _ _ H7) as K7.
  bind_inv Hrun as total w8 H8. apply count_items_pure in H8 as ->.
  bind_inv Hrun as u9 w9 H9.
  assert (K9 : same_counters w7 w9).
  { eapply on_progress_same_counters; [|exact H9]. intros q; reflexivity. }
  bind_inv Hrun as u10 w10 H10. pose proof (log_same_counters _ _ _ _ _ H10) as K10.
  bind_inv Hrun as u11 w11 H11. pose proof (updateProgress_same_counters _ _ _ _ H11) as K11.
  assert (Hz11 : cnt w11 = Some (0, 0, 0, 0, 0)) by (unfold same_counters in *; congruence).
  bind_inv Hrun as perr w12 H12.
  apply (process_items_invariant env accounted_world) in H12 as [Hacc Herr].
  - destruct perr as [msg|]; [|eapply Hdone; eauto].
    destruct (negb (GoStrings.Contains msg "cancelled")) eqn:Ec; [|eapply Hdone; eauto].
    destruct Herr as [-> | ->]; [discriminate Ec|].
    eapply Hfail in Hrun; eauto.
  - intros item wx ex wy; apply callback_accounted.
  - unfold accounted_world. rewrite Hz11. reflexivity.
Qed.

(** ** The progress record through a run *)

Lemma ready_on_progress (f : ImportProgress -> ImportProgress) : returns ready (on_progress f).
Proof.
  intros w [p Hp]. eexists; eexists; split; [apply on_progress_Ok; exact Hp|].
  unfold ready; simpl; eauto.
Qed.

Lemma ready_on_engine (f : ImportEngine -> ImportEngine) :
  (forall e, is_Some (progress e) -> is_Some (progress (f e))) -> returns ready (on_engine f).
Proof. intros Hf w Hw; exists tt, (set_eng (f (eng w)) w); split; [reflexivity | apply Hf, Hw]. Qed.

Lemma ready_the_progress : returns ready the_progress.
Proof.
  intros w Hw; pose proof Hw as [p Hp]. exists p, w; split; [|exact Hw].
  unfold the_progress; now rewrite Hp.
Qed.

Lemma ready_statement env {A} (run : DB -> A * DB) (failed : A) :
  returns ready (statement env run failed).
Proof.
  intros w Hw; unfold statement.
  destruct (db_fault env (statements (db w))); [eexists; eexists; split; [reflexivity | exact Hw]|].
  destruct (run _) as [a d]; eexists; eexists; split; [reflexivity | exact Hw].
Qed.

#[global] Hint Resolve ready_on_progress ready_the_progress ready_statement : total.
#[global] Hint Extern 1 (returns ready (Exec _ _)) => apply ready_statement : total.
#[global] Hint Extern 1 (returns ready (on_engine _)) =>
  apply ready_on_engine; intros; simpl; auto : total.

Lemma ready_log (level message : string) : returns ready (log level message).
Proof. unfold log; total. Qed.

Lemma ready_updateProgress (message : string) : returns ready (updateProgress message).
Proof. unfold updateProgress; total. Qed.

Lemma ready_saveHistory env (h : ImportHistory) : returns ready (saveHistory env h).
Proof. unfold saveHistory; total. Qed.

Lemma ready_updateFeedStatus env (status errorMsg : string) :
  returns ready (updateFeedStatus env status errorMsg).
Proof. unfold updateFeedStatus; total. Qed.

Lemma ready_updateCategoryCounts env : returns ready (updateCategoryCounts env).
Proof. unfold updateCategoryCounts; total. Qed.

#[global] Hint Resolve ready_log ready_updateProgress ready_saveHistory ready_updateFeedStatus
  ready_updateCategoryCounts : total.

Lemma ready_completeImport env (h : ImportHistory) : returns ready (completeImport env h).
Proof. unfold completeImport; total. Qed.


#[global] Instance same_feed_preorder : PreOrder same_feed.
Proof. split; unfold same_feed; [intros w | intros a b c]; congruence. Qed.

Lemma statement_same_feed env {A} (run : DB -> A * DB) (failed : A) :
  preserves same_feed (statement env run failed).
Proof. intros w a w' H; apply statement_inv in H as (H & _); unfold same_feed; now rewrite H. Qed.

Lemma on_engine_same_feed (f : ImportEngine -> ImportEngine) :
  (forall e, feed (f e) = feed e) -> preserves same_feed (on_engine f).
Proof. intros Hf; apply preserves_modify; intros w; unfold same_feed; simpl; apply Hf. Qed.

Lemma on_progress_same_feed (f : ImportProgress -> ImportProgress) :
  preserves same_feed (on_progress f).
Proof. intros w u w' H; apply on_progress_inv in H as (p & _ & ->); reflexivity. Qed.

#[global] Hint Resolve statement_same_feed on_progress_same_feed : keeps.
#[global] Hint Extern 1 (preserves same_feed (Exec _ _)) => apply statement_same_feed : keeps.
#[global] Hint Extern 1 (preserves same_feed (on_engine _)) =>
  apply on_engine_same_feed; intros; reflexivity : keeps.

Lemma log_same_feed (level message : string) : preserves same_feed (log level message).
Proof. unfold log; keeps. Qed.

Lemma updateProgress_same_feed (message : string) : preserves same_feed (updateProgress message).
Proof. unfold updateProgress; keeps. Qed.

Lemma saveHistory_same_feed env (h : ImportHistory) : preserves same_feed (saveHistory env h).
Proof. unfold saveHistory; keeps. Qed.

Lemma updateFeedStatus_same_feed env (status errorMsg : string) :
  preserves same_feed (updateFeedStatus env status errorMsg).
Proof. unfold updateFeedStatus; keeps. Qed.

#[global] Hint Resolve log_same_feed updateProgress_same_feed saveHistory_same_feed
  updateFeedStatus_same_feed : keeps.

(** A call that returns whenever there is a progress record, and leaves
    the counters and the feed alone, returns with nothing counted if nothing
    was. *)
Lemma nothing_counted_keeps {A} (m : M A) :
  returns ready m -> preserves same_counters m -> preserves same_feed m ->
  forall w, nothing_counted w ->
            exists a w', m w = Ok a w' /\ nothing_counted w' /\ feed (eng w') = feed (eng w).
Proof.
  intros Hr Hk Hf w Hw.
  destruct (Hr w) as (a & w' & E & _).
  { unfold nothing_counted, cnt in Hw. unfold ready. destruct (progress (eng w)); [eauto|discriminate]. }
  exists a, w'; split; [exact E|]. pose proof (Hk _ _ _ E) as K.
  split; [unfold nothing_counted, same_counters in *; congruence | exact (Hf _ _ _ E)].
Qed.

(** Takes the goal [(m ≫= f) w = r] one call further, given that [m]
    returns and leaves the counters and the feed alone. *)
Ltac forward :=
  lazymatch goal with
  | Hw : nothing_counted ?w, Hf : feed (eng ?w) = _ |- context [(?m ≫= ?f) ?w] =>
      let a := fresh "a" in
      let w1 := fresh "w" in
      let E := fresh "E" in
      let Hw1 := fresh "Hw" in
      let Hf1 := fresh "Hf" in
      destruct (nothing_counted_keeps m ltac:(auto with total) ltac:(auto with keeps)
                  ltac:(auto with keeps) w Hw)
        as (a & w1 & E & Hw1 & Hf1);
      rewrite (bind_Ok m f w w1 a E); rewrite Hf in Hf1; clear E Hw Hf; cbv beta
  end.

(** The state of [Run] when the feed is about to be downloaded. *)
Lemma run_import_downloads env (fuel : nat) (triggeredBy : string) (w : World) :
  exists w5,
    nothing_counted w5
    /\ feed (eng w5) = feed (eng w)
    /\ run_import env fuel triggeredBy w
       = (let history :=
            {| ih_ID := uuid_New env (uuids w); ih_FeedID := f_ID (feed (eng w));
               ih_Duration := 0; ih_TotalItems := 0; ih_Processed := 0; ih_Created := 0;
               ih_Updated := 0; ih_Skipped := 0; ih_Errors := 0;
               ih_Status := ImportStatusRunning; ih_ErrorMessage := None;
               ih_TriggeredBy := triggeredBy |} in
          let f := feed (eng w) in
          match http_get env (f_FeedURL f) with
          | inl err => failImport env history ("Download error: " +:+ err)
          | inr feedData =>
              log "info" ("Feed downloaded: "
                          +:+ GoNum.itoa (Z.of_nat (String.length feedData) / 1024) +:+ " KB");;
              updateProgress "Parsing feed...";;
              totalCount ← count_items env fuel (run_parser f) (f_FeedType f) feedData;
              on_progress (set_ip_Total totalCount);;
              let history :=
                {| ih_ID := ih_ID history; ih_FeedID := ih_FeedID history;
                   ih_Duration := ih_Duration history; ih_TotalItems := totalCount;
                   ih_Processed := ih_Processed history; ih_Created := ih_Created history;
                   ih_Updated := ih_Updated history; ih_Skipped := ih_Skipped history;
                   ih_Errors := ih_Errors history; ih_Status := ih_Status history;
                   ih_ErrorMessage := ih_ErrorMessage history;
                   ih_TriggeredBy := ih_TriggeredBy history |} in
              log "info" ("Feed parsed: " +:+ GoNum.itoa totalCount +:+ " items");;
              updateProgress ("Processing " +:+ GoNum.itoa totalCount +:+ " items...");;
              err ← process_items env fuel (run_parser f) (f_FeedType f) feedData;
              match err with
              | Some msg =>
                  if negb (GoStrings.Contains msg "cancelled")
                  then failImport env history msg
                  else completeImport env history
              | None => completeImport env history
              end
          end) w5.
Proof.
  unfold run_import.
  unfold mbind at 1, ST_bind at 1, uuid_New_String.
  unfold mbind at 1, ST_bind at 1, on_engine at 1, modify.
  unfold mbind at 1, ST_bind at 1, the_engine at 1.
  unfold mbind at 1, ST_bind at 1, on_engine at 1, modify.
  cbn [eng set_eng set_uuids feed set_historyID].
  set (w0 := set_eng _ _).
  assert (Hw : nothing_counted w0) by reflexivity.
  assert (Hf : feed (eng w0) = feed (eng w)) by reflexivity.
  clearbody w0.
  forward. forward. forward. forward. forward.
  match goal with
  | H : nothing_counted ?w5, H' : feed (eng ?w5) = _ |- _ =>
      exists w5; split; [exact H | split; [exact H' | reflexivity]]
  end.
Qed.

Lemma Run_not_running env (fuel : nat) (triggeredBy : string) (w : World) :
  isRunning (eng w) = false ->
  Run env fuel triggeredBy w
  = (r ← run_import env fuel triggeredBy; on_engine (set_isRunning false);; mret r)
      (set_eng (set_shouldStop false (set_isRunning true (eng w))) w).
Proof. intros H; unfold Run. unfold mbind at 1, ST_bind at 1, the_engine. now rewrite H. Qed.

(** ** A download that fails *)



(** ** Feed types without a parser *)

Lemma count_items_unknown env (fuel : nat) (p : FeedParser) (feedType feedData : string)
    (w : World) :
  known_type feedType = false -> count_items env fuel p feedType feedData w = Ok 0 w.
Proof.
  unfold known_type, count_items; intros H.
  apply orb_false_iff in H as [H H3]. apply orb_false_iff in H as [H1 H2].
  now rewrite H1, H2, H3.
Qed.

Lemma process_items_unknown env (fuel : nat) (p : FeedParser) (feedType feedData : string)
    (w : World) :
  known_type feedType = false -> process_items env fuel p feedType feedData w = Ok None w.
Proof.
  unfold known_type, process_items; intros H.
  apply orb_false_iff in H as [H H3]. apply orb_false_iff in H as [H1 H2].
  now rewrite H1, H2, H3.
Qed.

(** X12.  A feed whose type is none of [xml], [csv] and [json] is downloaded and
    then neither counted nor parsed: the run is reported as [completed],
    without an error, with zero items. *)
Theorem run_of_unknown_feed_type_completes_empty (env : Env) (fuel : nat)
    (triggeredBy : string) (w : World) (feedData : string) :
  isRunning (eng w) = false ->
  known_type (f_FeedType (feed (eng w))) = false ->
  http_get env (f_FeedURL (feed (eng w))) = inr feedData ->
  exists h w',
    Run env fuel triggeredBy w = Ok (Some h, None) w'
    /\ ih_Status h = ImportStatusCompleted
    /\ ih_ErrorMessage h = None
    /\ ih_TotalItems h = 0
    /\ history_counters h = (0, 0, 0, 0, 0)
    /\ isRunning (eng w') = false.
Proof.
  intros Hrun Htype Hget. rewrite (Run_not_running _ _ _ _ Hrun).
  set (w1 := set_eng _ w).
  destruct (run_import_downloads env fuel triggeredBy w1) as (w5 & Hw5 & Hf5 & E).
  unfold mbind at 1, ST_bind at 1. rewrite E. clear E.
  cbn [eng set_eng feed set_shouldStop set_isRunning w1]. rewrite Hget. cbv zeta.
  forward. forward.
  unfold mbind at 1, ST_bind at 1. rewrite (count_items_unknown _ _ _ _ _ _ Htype).
  forward. forward. forward.
  unfold mbind at 1, ST_bind at 1. rewrite (process_items_unknown _ _ _ _ _ _ Htype).
  match goal with Hw : nothing_counted ?w9 |- context [completeImport env ?h ?w9] =>
    destruct (ready_completeImport env h w9) as (r & w10 & E & _);
      [unfold nothing_counted, cnt in Hw; unfold ready;
       destruct (progress (eng w9)); [eauto | discriminate]|];
    rewrite E;
    apply completeImport_inv in E as (p & p' & Hp & Hp' & -> & Hps & Hpc & _);
    unfold nothing_counted, cnt in Hw; rewrite Hp in Hw; simpl in Hw
  end.
  eexists; eexists; split; [reflexivity|].
  unfold history_counters. cbn. repeat split.
  unfold counters in Hw. injection Hw as -> -> -> -> ->. reflexivity.
Qed.

Lemma run_of_unknown_feed_type_completes_empty_witness :
  let f := demo_feed "xlsx" MatchByEAN ImportModeCreateUpdate in
  exists h w',
    Run (lab three_items None) 0 "manual" (new_run (empty_catalog f) f 0) = Ok (Some h, None) w'
    /\ ih_Status h = ImportStatusCompleted
    /\ ih_TotalItems h = 0
    /\ products (db w') = [].
Proof.
  intros f.
  destruct (run_of_unknown_feed_type_completes_empty (lab three_items None) 0 "manual"
              (new_run (empty_catalog f) f 0) three_items eq_refl eq_refl eq_refl)
    as (h & w' & H & Hs & _ & Ht & _).
  exists h, w'. split; [exact H|]. split; [exact Hs|]. split; [exact Ht|].
  assert (K : state_after (Run (lab three_items None) 0 "manual" (new_run (empty_catalog f) f 0))
              = Some w') by (now rewrite H).
  vm_compute in K. injection K as <-. reflexivity.
Defined.

(** ** A CSV feed without a delimiter *)

(** X13.  [Run] copies the feed's delimiter into the parser, over the default
    [";"] of [NewFeedParser]; when the feed has none, [CSVDelimiter[0]]
    panics in the counting pass, after the download: the run does not end
    as [failed], it does not return. *)
Theorem run_of_csv_feed_without_delimiter_panics (env : Env) (fuel : nat)
    (triggeredBy : string) (w : World) (feedData : string) :
  isRunning (eng w) = false ->
  f_FeedType (feed (eng w)) = FeedTypeCSV ->
  f_CSVDelimiter (feed (eng w)) = "" ->
  http_get env (f_FeedURL (feed (eng w))) = inr feedData ->
  Run env fuel triggeredBy w = Panic index_out_of_range.
Proof.
  intros Hrun Htype Hdelim Hget. rewrite (Run_not_running _ _ _ _ Hrun).
  set (w1 := set_eng _ w).
  destruct (run_import_downloads env fuel triggeredBy w1) as (w5 & Hw5 & Hf5 & E).
  unfold mbind at 1, ST_bind at 1. rewrite E. clear E.
  cbn [eng set_eng feed set_shouldStop set_isRunning w1]. rewrite Hget. cbv zeta.
  forward. forward.
  unfold mbind at 1, ST_bind at 1. unfold count_items, ParseCSVFull, run_parser.
  rewrite Htype. cbn [CSVDelimiter]. rewrite Hdelim. reflexivity.
Qed.

Lemma run_of_csv_feed_without_delimiter_panics_witness :
  let f := demo_feed FeedTypeCSV MatchByEAN ImportModeCreateUpdate in
  let f := {| f_ID := f_ID f; f_Name := f_Name f; f_Description := f_Description f;
              f_FeedURL := f_FeedURL f; f_FeedType := f_FeedType f;
              f_XMLItemPath := f_XMLItemPath f; f_CSVDelimiter := "";
              f_CSVHasHeader := f_CSVHasHeader f; f_ImportMode := f_ImportMode f;
              f_MatchBy := f_MatchBy f; f_DefaultCategory := f_DefaultCategory f;
              f_ImportImages := f_ImportImages f; f_CreateAttributes := f_CreateAttributes f;
              f_ScheduleEnabled := f_ScheduleEnabled f; f_ScheduleCron := f_ScheduleCron f;
              f_Active := f_Active f; f_Status := f_Status f; f_LastError := f_LastError f;
              f_TotalProducts := f_TotalProducts f; f_FieldMappings := f_FieldMappings f |} in
  Run (lab three_items None) 0 "manual" (new_run (empty_catalog f) f 0)
  = Panic index_out_of_range.
Proof.
  intros f0 f.
  exact (run_of_csv_feed_without_delimiter_panics (lab three_items None) 0 "manual"
           (new_run (empty_catalog f) f 0) three_items eq_refl eq_refl eq_refl eq_refl).
Defined.

(** ** What a run reports *)

(** X14.  The history of a completed run accounts for every item: its processed
    count is the sum of its created, updated, skipped and errors counts (in
    [int] arithmetic), its counters are those of the progress record, no
    error is returned, and the engine is left not running with at most a
    hundred log entries. *)
Theorem completed_run_accounts_for_every_item (env : Env) (fuel : nat) (triggeredBy : string)
    (w w' : World) (h : ImportHistory) (e : error) :
  Run env fuel triggeredBy w = Ok (Some h, e) w' ->
  ih_Status h = ImportStatusCompleted ->
  accounted (history_counters h)
  /\ e = None
  /\ isRunning (eng w') = false
  /\ exists p, progress (eng w') = Some p
               /\ ip_Status p = ImportStatusCompleted
               /\ counters p = history_counters h
               /\ (List.length (ip_Logs p) <= 100)%nat.
Proof.
  intros H Hs. apply Run_post in H as (Hr & p & Hp & Hps & Hc & Hl & [(_ & He & Ha) | (Hf & _)]).
  - rewrite Hc. repeat split; auto. exists p. repeat split; auto. congruence.
  - rewrite Hs in Hf. discriminate Hf.
Qed.

Lemma completed_run_accounts_for_every_item_witness :
  let f := demo_feed FeedTypeCSV MatchByEAN ImportModeCreateUpdate in
  exists h w',
    Run (lab three_items (Some 2)) 0 "manual" (new_run (empty_catalog f) f 0)
    = Ok (Some h, None) w'
    /\ history_counters h = (2, 2, 0, 0, 0)
    /\ accounted (history_counters h).
Proof.
  intros f.
  destruct (Run (lab three_items (Some 2)) 0 "manual" (new_run (empty_catalog f) f 0))
    as [[[h|] e] w'| |] eqn:E; try (vm_compute in E; discriminate E).
  destruct (completed_run_accounts_for_every_item _ _ _ _ _ _ _ E) as (Ha & -> & _).
  - vm_compute in E. now injection E as <- _ _.
  - exists h, w'. split; [reflexivity|]. split; [|exact Ha].
    vm_compute in E. now injection E as <- _.
Defined.



(** ** CSV and JSON feeds: the run returns *)

Lemma for_each_total {S A} (callback : A -> ST S error) :
  (forall a s, exists e s', callback a s = Ok e s') ->
  forall items s, exists e s', for_each callback items s = Ok e s'.
Proof.
  intros Hcb items; induction items as [|item rest IH]; intros s; simpl; [eauto|].
  destruct (Hcb item s) as (e & s1 & E). unfold mbind, ST_bind. rewrite E.
  destruct e; [eexists; eexists; reflexivity | apply IH].
Qed.

Lemma returns_for_each {A} (P : World -> Prop) (callback : A -> M error) (items : list A) :
  (forall item, returns P (callback item)) -> returns P (for_each callback items).
Proof.
  intros Hcb; induction items as [|item rest IH]; simpl; [apply returns_ret|].
  apply returns_bind; [apply Hcb|]. intros [e|]; [apply returns_ret | exact IH].
Qed.

(** The counting pass over a CSV or JSON feed returns. *)
Lemma count_items_returns env (fuel : nat) (p : FeedParser) (feedType feedData : string)
    (w : World) :
  feedType <> FeedTypeXML ->
  (feedType = FeedTypeCSV -> CSVDelimiter p <> "") ->
  exists n, count_items env fuel p feedType feedData w = Ok n w.
Proof.
  intros Hx Hd; unfold count_items. rewrite (proj2 (String.eqb_neq _ _) Hx).
  assert (Hcount : forall {A} (f : A -> RawItem) (items : list A) (z : Z),
            exists e z', for_each (fun a => countCallback (f a)) items z = Ok e z').
  { intros A f items z. apply for_each_total. intros a s. eexists; eexists; reflexivity. }
  destruct (String.eqb feedType FeedTypeCSV) eqn:Ec.
  { apply String.eqb_eq in Ec. specialize (Hd Ec). unfold ParseCSVFull.
    destruct (CSVDelimiter p) as [|comma rest]; [congruence|].
    destruct (csv_ReadAll env comma feedData) as [e|[|headers rows]]; try (eexists; reflexivity).
    destruct (Hcount _ (csv_item headers) rows 0) as (e & z' & ->). eauto. }
  destruct (String.eqb feedType FeedTypeJSON); [|eexists; reflexivity].
  unfold ParseJSONFull.
  destruct (json_Unmarshal env feedData) as [e|raw]; [eexists; reflexivity|].
  destruct (findJSONProductsArray raw) as [items|]; [|eexists; reflexivity].
  match goal with
  | |- exists n, match for_each ?cb items 0 with _ => _ end = _ =>
      destruct (for_each_total cb) with (items := items) (s := 0) as (e & z' & ->); [|eauto]
  end.
  intros [| | | | |fields] z; eexists; eexists; reflexivity.
Qed.

Lemma returns_concurrent_stop env : returns (in_run env) (concurrent_stop env).
Proof. unfold concurrent_stop, Stop; total. Qed.

(** The processing pass over a CSV or JSON feed returns, when no transform
    of the feed panics. *)
Lemma process_items_returns env (fuel : nat) (p : FeedParser) (feedType feedData : string) :
  feedType <> FeedTypeXML ->
  (feedType = FeedTypeCSV -> CSVDelimiter p <> "") ->
  returns (in_run env) (process_items env fuel p feedType feedData).
Proof.
  intros Hx Hd; unfold process_items. rewrite (proj2 (String.eqb_neq _ _) Hx).
  assert (Hcb : forall item, returns (in_run env)
                               (concurrent_stop env;; processCallback env item)).
  { intros item. apply returns_bind; [apply returns_concurrent_stop|].
    intros _. apply returns_processCallback. }
  destruct (String.eqb feedType FeedTypeCSV) eqn:Ec.
  { apply String.eqb_eq in Ec. specialize (Hd Ec). unfold ParseCSVFull.
    destruct (CSVDelimiter p) as [|comma rest]; [congruence|].
    destruct (csv_ReadAll env comma feedData) as [e|[|headers rows]]; try apply returns_ret.
    apply returns_for_each. intros record; apply Hcb. }
  destruct (String.eqb feedType FeedTypeJSON); [|apply returns_ret].
  unfold ParseJSONFull.
  destruct (json_Unmarshal env feedData) as [e|raw]; [apply returns_ret|].
  destruct (findJSONProductsArray raw) as [items|]; [|apply returns_ret].
  apply returns_for_each. intros [| | | | |fields]; try apply returns_ret. apply Hcb.
Qed.

Lemma returns_saveHistory env (h : ImportHistory) : returns (in_run env) (saveHistory env h).
Proof. unfold saveHistory; total. Qed.

Lemma returns_updateFeedStatus env (status errorMsg : string) :
  returns (in_run env) (updateFeedStatus env status errorMsg).
Proof. unfold updateFeedStatus; total. Qed.

Lemma returns_updateCategoryCounts env : returns (in_run env) (updateCategoryCounts env).
Proof. unfold updateCategoryCounts; total. Qed.

#[global] Hint Resolve returns_saveHistory returns_updateFeedStatus
  returns_updateCategoryCounts : total.

Lemma returns_completeImport env (h : ImportHistory) :
  returns (in_run env) (completeImport env h).
Proof. unfold completeImport; total. Qed.

Lemma returns_failImport env (h : ImportHistory) (msg : string) :
  returns (in_run env) (failImport env h msg).
Proof. unfold failImport; total. Qed.

#[global] Hint Resolve returns_completeImport returns_failImport : total.

(** X16.  A run of a CSV or JSON feed returns, whatever the feed holds and
    whatever the database and the download do, provided a CSV feed has a
    delimiter and the patterns of the regular-expression transforms compile:
    no panic, and no loop that does not end. *)
Theorem run_of_csv_or_json_feed_returns (env : Env) (fuel : nat) (triggeredBy : string)
    (w : World) :
  f_FeedType (feed (eng w)) <> FeedTypeXML ->
  (f_FeedType (feed (eng w)) = FeedTypeCSV -> f_CSVDelimiter (feed (eng w)) <> "") ->
  patterns_compile env (f_FieldMappings (feed (eng w))) = true ->
  exists r w', Run env fuel triggeredBy w = Ok r w' /\ isRunning (eng w') = isRunning (eng w).
Proof.
  intros Hx Hd Hpat.
  destruct (isRunning (eng w)) eqn:Hrun.
  { unfold Run, mbind, ST_bind, the_engine. rewrite Hrun. eexists; eexists; split; [reflexivity|].
    exact Hrun. }
  rewrite (Run_not_running _ _ _ _ Hrun). set (w1 := set_eng _ w).
  destruct (run_import_downloads env fuel triggeredBy w1) as (w5 & Hw5 & Hf5 & E).
  unfold mbind at 1, ST_bind at 1. rewrite E. clear E.
  cbn [eng set_eng feed set_shouldStop set_isRunning w1]. cbv zeta.
  match goal with
  | |- exists r w', match ?m w5 with _ => _ end = _ /\ _ =>
      assert (Hm : returns (in_run env) m)
  end.
  { pose proof (process_items_returns env fuel (run_parser (feed (eng w)))
                  (f_FeedType (feed (eng w)))) as Hproc.
    assert (Hcount : forall feedData,
              returns (in_run env)
                (count_items env fuel (run_parser (feed (eng w)))
                   (f_FeedType (feed (eng w))) feedData)).
    { intros feedData w0 Hw0.
      destruct (count_items_returns env fuel (run_parser (feed (eng w)))
                  (f_FeedType (feed (eng w))) feedData w0 Hx Hd) as [n E]. eauto. }
    destruct (http_get env _); total. }
  destruct (Hm w5) as (r & w6 & E & _).
  { split; [|rewrite Hf5; exact Hpat]. unfold nothing_counted, cnt in Hw5.
    destruct (progress (eng w5)); [eauto | discriminate]. }
  rewrite E. eexists; eexists; split; reflexivity.
Qed.

Lemma run_of_csv_or_json_feed_returns_witness :
  let f := demo_feed FeedTypeCSV MatchByEAN ImportModeCreateUpdate in
  exists r w', Run (lab_failing [2%nat; 5%nat]) 0 "cron" (new_run (empty_catalog f) f 0) = Ok r w'.
Proof.
  intros f.
  destruct (run_of_csv_or_json_feed_returns (lab_failing [2%nat; 5%nat]) 0 "cron"
              (new_run (empty_catalog f) f 0)) as (r & w' & H & _).
  - discriminate.
  - discriminate.
  - reflexivity.
  - eauto.
Defined.

(** ** sanitizeXML and fixPartialXML *)

Lemma filter_bytes_all (f : ascii -> bool) (s : string) :
  bytes_all f (GoStrings.filter_bytes f s) = true.
Proof.
  induction s as [|c s IH]; simpl; [reflexivity|].
  destruct (f c) eqn:E; simpl; [now rewrite E | exact IH].
Qed.

Lemma filter_bytes_length (f : ascii -> bool) (s : string) :
  (String.length (GoStrings.filter_bytes f s) <= String.length s)%nat.
Proof. induction s as [|c s IH]; simpl; [lia|]. destruct (f c); simpl; lia. Qed.

Lemma filter_bytes_id (f : ascii -> bool) (s : string) :
  bytes_all f s = true -> GoStrings.filter_bytes f s = s.
Proof.
  induction s as [|c s IH]; simpl; [reflexivity|]. intros H.
  apply andb_true_iff in H as [-> H]. now rewrite IH.
Qed.

Lemma drop_length (n : nat) (s : string) :
  (String.length (GoStrings.drop n s) <= String.length s)%nat.
Proof. revert s; induction n as [|n IH]; intros [|c s]; simpl; try lia. specialize (IH s); lia. Qed.

(** X17.  What [sanitizeXML] returns holds none of the control bytes it removes
    and is no longer than the data; data that holds none of them and does
    not start with a byte-order mark is returned as it is. *)
Theorem sanitizeXML_removes_control_bytes (data : string) :
  bytes_all (fun c => negb (invalid_xml_byte c)) (sanitizeXML data) = true
  /\ (String.length (sanitizeXML data) <= String.length data)%nat
  /\ (bytes_all (fun c => negb (invalid_xml_byte c)) data = true ->
      GoStrings.HasPrefix data BOM = false ->
      sanitizeXML data = data).
Proof.
  unfold sanitizeXML. split; [apply filter_bytes_all|]. split.
  - destruct (GoStrings.HasPrefix data BOM).
    + etransitivity; [apply filter_bytes_length | apply drop_length].
    + apply filter_bytes_length.
  - intros H ->. now apply filter_bytes_id.
Qed.


(** ** detectXMLItemPath *)

(** X19.  [detectXMLItemPath] compares in lower case, so the candidates PRODUCT
    and ITEM, which come after [product] and [item], are never returned: the
    result is one of SHOPITEM, product, item, offer and entry. *)
Theorem detectXMLItemPath_values (data : string) :
  In (detectXMLItemPath data) ["SHOPITEM"; "product"; "item"; "offer"; "entry"].
Proof.
  unfold detectXMLItemPath. cbn [List.find].
  change (GoStrings.ToLower "PRODUCT") with (GoStrings.ToLower "product").
  change (GoStrings.ToLower "ITEM") with (GoStrings.ToLower "item").
  repeat match goal with
         | |- context [if ?b then _ else _] => destruct b eqn:?
         end; simpl; auto 10; congruence.
Qed.

(** ** ParseXMLFull: when it returns *)

Lemma xml_turn_total {S} env (p : FeedParser) (data : string)
    (callback : RawItem -> ST S error) (n : nat) (l : XMLLoop) (s : S) :
  always_returns callback -> exists r s', xml_turn env p data callback n l s = Ok r s'.
Proof.
  intros Hcb; unfold xml_turn.
  destruct (xml_Token env data n) as [[name|name|t|]| |]; try (eexists; eexists; reflexivity).
  destruct (inItem l && GoStrings.EqualFold name (XMLItemPath p)
            && (List.length (currentPath l) =? itemDepth l)%nat);
    [|eexists; eexists; reflexivity].
  destruct (Hcb (currentItem l) s) as (e & s' & E). unfold mbind, ST_bind. rewrite E.
  destruct e; eexists; eexists; reflexivity.
Qed.

Lemma xml_loop_reaches_EOF {S} env (p : FeedParser) (data : string)
    (callback : RawItem -> ST S error) :
  always_returns callback ->
  forall k n l s,
    xml_Token env data (n + k) = TokEOF ->
    exists e s', forall fuel, (k < fuel)%nat ->
                              xml_loop env fuel p data callback n l s = Ok e s'.
Proof.
  intros Hcb k; induction k as [|k IH]; intros n l s Heof.
  - rewrite Nat.add_0_r in Heof. exists None, s. intros [|fuel] Hf; [lia|].
    cbn [xml_loop]. unfold mbind, ST_bind, xml_turn. now rewrite Heof.
  - destruct (xml_turn_total env p data callback n l s Hcb) as (r & s1 & E).
    destruct r as [e|l'].
    + exists e, s1. intros [|fuel] Hf; [lia|].
      cbn [xml_loop]. unfold mbind, ST_bind. now rewrite E.
    + destruct (IH (Datatypes.S n) l' s1) as (e & s' & Hrest).
      { now rewrite Nat.add_succ_comm. }
      exists e, s'. intros [|fuel] Hf; [lia|].
      cbn [xml_loop]. unfold mbind, ST_bind. rewrite E. apply Hrest. lia.
Qed.

(** X20.  If the decoder reaches the end of the document at its [n]-th call,
    [ParseXMLFull] returns, and what it returns does not depend on the turns
    allotted beyond [n]: the loop ends at [io.EOF] or earlier, at an error
    of the callback. *)
Theorem ParseXMLFull_returns_at_EOF {S} (env : Env) (p : FeedParser) (data : string)
    (callback : RawItem -> ST S error) (s : S) (n : nat) :
  always_returns callback ->
  xml_Token env (sanitizeXML data) n = TokEOF ->
  exists e s', forall fuel, (n < fuel)%nat ->
                            ParseXMLFull env fuel p data callback s = Ok e s'.
Proof.
  intros Hcb Heof. unfold ParseXMLFull.
  exact (xml_loop_reaches_EOF env p _ callback Hcb n 0 XMLLoop_init s Heof).
Qed.

Lemma ParseXMLFull_returns_at_EOF_witness :
  exists e s',
    (forall fuel, (10 < fuel)%nat ->
                  ParseXMLFull (lab "" None) fuel (xml_parser "SHOPITEM") whole_feed record_item []
                  = Ok e s')
    /\ e = None /\ s' = [first_record].
Proof.
  destruct (ParseXMLFull_returns_at_EOF (lab "" None) (xml_parser "SHOPITEM") whole_feed
              record_item [] 10) as (e & s' & H).
  - intros item s. eexists; eexists; reflexivity.
  - vm_compute. reflexivity.
  - exists e, s'. split; [exact H|].
    specialize (H 11%nat (Nat.lt_succ_diag_r _)). vm_compute in H.
    injection H as <- <-. split; reflexivity.
Defined.

(** ** previewXML: when it does not return *)







(** ** CSV records *)

Lemma csv_item_fold_absent (headers record : list string) (item : RawItem) (key : string) :
  key ∉ headers ->
  List.fold_left (fun (item : RawItem) (hv : string * string) => <[hv.1 := JString hv.2]> item)
    (zip headers record) item !! key = item !! key.
Proof.
  revert record item; induction headers as [|h headers IH]; intros [|r record] item Hk;
    simpl; try reflexivity.
  rewrite IH by (intros Hin; apply Hk; now right).
  apply lookup_insert_ne. intros ->. apply Hk. now left.
Qed.

Lemma csv_item_fold_lookup (headers record : list string) (item : RawItem) :
  NoDup headers ->
  forall j h,
    headers !! j = Some h ->
    List.fold_left (fun (item : RawItem) (hv : string * string) => <[hv.1 := JString hv.2]> item)
      (zip headers record) item !! h
    = match record !! j with
      | Some v => Some (JString v)
      | None => item !! h
      end.
Proof.
  revert record item; induction headers as [|h0 headers IH]; intros record item Hnd j h Hj;
    [discriminate Hj|].
  apply NoDup_cons in Hnd as [Hh0 Hnd].
  destruct record as [|r record]; [now destruct j|].
  destruct j as [|j]; simpl in *.
  - injection Hj as <-. rewrite csv_item_fold_absent by exact Hh0. apply lookup_insert_eq.
  - rewrite (IH record _ Hnd j h Hj). destruct (record !! j); [reflexivity|].
    apply lookup_insert_ne. intros ->. apply Hh0. eapply list_elem_of_lookup_2; eauto.
Qed.

(** X22.  The record of a CSV row, for a header without repeated names: the
    field of the [j]-th column is the [j]-th value of the row, as a string;
    a column the row is too short for is absent, and so is every name that
    is no column. *)
Theorem csv_item_zips_by_position (headers record : list string) :
  NoDup headers ->
  (forall j h, headers !! j = Some h ->
               csv_item headers record !! h = JString <$> record !! j)
  /\ (forall key, key ∉ headers -> csv_item headers record !! key = None).
Proof.
  intros Hnd; split.
  - intros j h Hj. unfold csv_item. rewrite (csv_item_fold_lookup _ _ _ Hnd j h Hj).
    now destruct (record !! j).
  - intros key Hk. unfold csv_item. now rewrite csv_item_fold_absent.
Qed.

Lemma csv_item_zips_by_position_witness :
  csv_item ["title"; "price"; "ean"] ["Phone"; "19,99"] !! "price" = Some (JString "19,99")
  /\ csv_item ["title"; "price"; "ean"] ["Phone"; "19,99"] !! "ean" = None.
Proof.
  assert (Hnd : NoDup ["title"; "price"; "ean"])
    by (apply (bool_decide_eq_true_1 (NoDup ["title"; "price"; "ean"])); reflexivity).
  destruct (csv_item_zips_by_position ["title"; "price"; "ean"] ["Phone"; "19,99"] Hnd)
    as [H _].
  split; [exact (H 1%nat "price" eq_refl) | exact (H 2%nat "ean" eq_refl)].
Defined.

(** ** Preview and import of a CSV feed *)

Lemma for_each_record_item (items seen : list RawItem) :
  for_each record_item items seen = Ok None (seen ++ items)%list.
Proof.
  revert seen; induction items as [|item rest IH]; intros seen; simpl.
  - now rewrite app_nil_r.
  - unfold mbind, ST_bind, record_item, modify, mret, ST_ret.
    change (for_each record_item rest (seen ++ [item])%list = Ok None (seen ++ item :: rest)%list).
    rewrite IH. now rewrite <- app_assoc.
Qed.

(** X23.  For a parser with a delimiter, [previewCSV] and [ParseCSVFull] read the
    data alike: the preview fails exactly when the import does, with the
    same error, and otherwise shows the first [limit] of the records the
    import hands to its callback, and counts them all. *)
Theorem previewCSV_shows_what_is_imported (env : Env) (p : FeedParser) (data : string)
    (limit : Z) :
  CSVDelimiter p <> "" ->
  match ParseCSVFull env p data record_item [] with
  | Ok None seen =>
      exists r, previewCSV env data limit p = Ok (Some r, None) p
                /\ Items r = List.firstn (Z.to_nat limit) seen
                /\ TotalCount r = Z.of_nat (List.length seen)
  | Ok (Some err) seen =>
      seen = [] /\ previewCSV env data limit p = Ok (None, Some err) p
  | _ => False
  end.
Proof.
  intros Hd. unfold ParseCSVFull, previewCSV, mbind, ST_bind, the_parser, mret, ST_ret.
  destruct (CSVDelimiter p) as [|comma rest] eqn:Hc; [congruence|].
  cbn [String.eqb]. cbv beta iota. rewrite Hc.
  destruct (csv_ReadAll env comma data) as [err|[|headers rows]].
  - split; reflexivity.
  - eexists; split; [reflexivity|]. split; [|reflexivity].
    now destruct (Z.to_nat limit).
  - rewrite for_each_fmap, for_each_record_item.
    eexists; split; [reflexivity|]. cbn [Items TotalCount app]. split.
    + now rewrite fmap_take.
    + rewrite length_fmap. cbn [List.length]. lia.
Qed.

Lemma previewCSV_shows_what_is_imported_witness :
  exists r,
    previewCSV (lab "" None) three_items 2 (csv_parser ";") = Ok (Some r, None) (csv_parser ";")
    /\ List.length (Items r) = 2%nat
    /\ TotalCount r = 3.
Proof.
  pose proof (previewCSV_shows_what_is_imported (lab "" None) (csv_parser ";") three_items 2)
    as H.
  destruct (ParseCSVFull (lab "" None) (csv_parser ";") three_items record_item [])
    as [[err|] seen| |] eqn:E; try (vm_compute in E; discriminate E).
  destruct H as (r & Hr & Hitems & Htotal); [discriminate|].
  exists r. split; [exact Hr|]. rewrite Hitems, Htotal.
  vm_compute in E. injection E as <-. split; reflexivity.
Defined.

(** ** Preview and import of a JSON feed *)

Lemma for_each_objects {S} (callback : RawItem -> ST S error) (items : list JSON) :
  for_each (fun item => match item with
                        | JObject fields => callback (object_map fields)
                        | _ => mret None
                        end) items
  = for_each callback (objects items).
Proof.
  induction items as [|item rest IH]; [reflexivity|].
  destruct item; cbn [for_each objects omap]; try exact IH.
  now rewrite IH.
Qed.

Lemma objects_length (items : list JSON) :
  (List.length (objects items) <= List.length items)%nat.
Proof.
  induction items as [|item rest IH]; [reflexivity|].
  unfold objects in *. unfold omap in IH. destruct item; simpl; lia.
Qed.

Lemma objects_app (a b : list JSON) : objects (a ++ b) = (objects a ++ objects b)%list.
Proof. unfold objects. apply omap_app. Qed.

(** X24.  [previewJSON] and [ParseJSONFull] read the data alike: the preview
    fails exactly when the import does, and otherwise shows a prefix of the
    records the import hands to its callback (the objects among the first
    [limit] elements of the array); its total counts every element of the
    array, the ones that are no objects and that the import passes over
    included. *)
Theorem previewJSON_shows_what_is_imported (env : Env)
    (range_keys : gset string -> list string) (p : FeedParser) (data : string) (limit : Z) :
  match ParseJSONFull env p data record_item [] with
  | Ok None seen =>
      exists r, previewJSON env range_keys data limit p = Ok (Some r, None) p
                /\ Items r `prefix_of` seen
                /\ Z.of_nat (List.length (Items r)) <= Z.max 0 limit
                /\ Z.of_nat (List.length seen) <= TotalCount r
  | Ok (Some err) seen =>
      seen = [] /\ exists msg, previewJSON env range_keys data limit p = Ok (None, Some msg) p
  | _ => False
  end.
Proof.
  unfold ParseJSONFull, previewJSON.
  destruct (json_Unmarshal env data) as [err|raw]; [split; eauto|].
  destruct (findJSONProductsArray raw) as [items|]; [|split; eauto].
  rewrite for_each_objects, for_each_record_item.
  eexists; split; [reflexivity|]. cbn [Items TotalCount app].
  split; [|split].
  - exists (objects (List.skipn (Z.to_nat limit) items)).
    rewrite <- objects_app. now rewrite firstn_skipn.
  - pose proof (objects_length (List.firstn (Z.to_nat limit) items)) as Hl.
    rewrite length_take in Hl. lia.
  - apply Nat2Z.inj_le, objects_length.
Qed.

(** ** The delimiter of a CSV feed *)

Lemma score_delimiter_short {S} (lines : list string) (d : string) (acc : Z * string) (s : S) :
  (List.length lines < 5)%nat ->
  score_delimiter lines d acc s
  = if (0 <? Count (List.hd "" lines) d)%Z
    then Panic (slice_out_of_range 5 (Z.of_nat (List.length lines)))
    else Ok acc s.
Proof.
  intros Hn. unfold score_delimiter. destruct acc as [maxScore best].
  destruct (0 <? Count (List.hd "" lines) d)%Z; [|reflexivity].
  unfold mbind, ST_bind, lines_1_5.
  now rewrite (proj2 (Nat.ltb_lt _ _) Hn).
Qed.

Lemma score_delimiters_short {S} (lines : list string) (ds : list string) (acc : Z * string)
    (s : S) :
  (List.length lines < 5)%nat ->
  score_delimiters lines ds acc s
  = if List.existsb (fun d => (0 <? Count (List.hd "" lines) d)%Z) ds
    then Panic (slice_out_of_range 5 (Z.of_nat (List.length lines)))
    else Ok acc s.
Proof.
  intros Hn. revert acc; induction ds as [|d ds IH]; intros acc; [reflexivity|].
  cbn [score_delimiters List.existsb]. unfold mbind, ST_bind.
  rewrite (score_delimiter_short _ _ _ _ Hn).
  destruct (0 <? Count (List.hd "" lines) d)%Z; [reflexivity|]. apply IH.
Qed.

Lemma score_delimiter_long {S} (lines : list string) (d : string) (acc : Z * string) (s : S) :
  (5 <= List.length lines)%nat ->
  exists acc', score_delimiter lines d acc s = Ok acc' s /\ (acc'.2 = acc.2 \/ acc'.2 = d).
Proof.
  intros Hn. unfold score_delimiter. destruct acc as [maxScore best].
  destruct (0 <? Count (List.hd "" lines) d)%Z; [|eexists; split; [reflexivity|now left]].
  unfold mbind, ST_bind, lines_1_5.
  rewrite (proj2 (Nat.ltb_ge _ _) Hn). cbn [mret ST_ret].
  match goal with |- context [if ?b then _ else _] => destruct b end;
    eexists; (split; [reflexivity|]); [now right | now left].
Qed.

Lemma score_delimiters_long {S} (lines : list string) (ds : list string) (acc : Z * string)
    (s : S) :
  (5 <= List.length lines)%nat ->
  exists acc', score_delimiters lines ds acc s = Ok acc' s /\ (acc'.2 = acc.2 \/ In acc'.2 ds).
Proof.
  intros Hn. revert acc; induction ds as [|d ds IH]; intros acc.
  - eexists; split; [reflexivity|now left].
  - cbn [score_delimiters]. unfold mbind, ST_bind.
    destruct (score_delimiter_long lines d acc s Hn) as (acc1 & -> & H1).
    destruct (IH acc1) as (acc2 & -> & H2).
    exists acc2. split; [reflexivity|].
    destruct H2 as [H2|H2]; [rewrite H2; destruct H1 as [H1|H1]|]; simpl; auto.
Qed.

Lemma detectCSVDelimiter_cases {S} (data : string) (s : S) :
  let lines := GoStrings.Split data LF in
  let n := List.length lines in
  if ((2 <=? n) && (n <? 5))%nat && delimited lines
  then detectCSVDelimiter data s = Panic (slice_out_of_range 5 (Z.of_nat n))
  else exists d, In d delimiters /\ detectCSVDelimiter data s = Ok d s.
Proof.
  intros lines n. unfold detectCSVDelimiter. fold lines. fold n.
  destruct (n <? 2)%nat eqn:H2.
  - apply Nat.ltb_lt in H2. rewrite (proj2 (Nat.leb_gt 2 n)) by lia. cbn [andb].
    exists ";". split; [now left | reflexivity].
  - apply Nat.ltb_ge in H2. rewrite (proj2 (Nat.leb_le 2 n)) by lia. cbn [andb].
    unfold mbind, ST_bind. destruct (n <? 5)%nat eqn:H5.
    + apply Nat.ltb_lt in H5. cbn [andb].
      rewrite (score_delimiters_short lines _ _ s H5). fold delimiters. fold (delimited lines).
      destruct (delimited lines); [reflexivity|].
      exists ";". split; [now left | reflexivity].
    + apply Nat.ltb_ge in H5. cbn [andb].
      destruct (score_delimiters_long lines [";"; ","; TAB; "|"] (0, ";") s H5)
        as (acc & -> & Hacc).
      exists acc.2. split; [|reflexivity].
      destruct Hacc as [->|Hacc]; [now left | exact Hacc].
Qed.

(** X25.  [detectCSVDelimiter] either returns one of its four delimiters or
    panics, and it panics exactly on data of two to four lines (the end of
    a last line that a line feed closes counted as a line) whose first line
    holds one of the delimiters: the slice [lines[1:5]] is then out of
    range. *)
Theorem detectCSVDelimiter_outcomes {S} (data : string) (s : S) :
  let lines := GoStrings.Split data LF in
  let n := List.length lines in
  if ((2 <=? n) && (n <? 5))%nat && delimited lines
  then detectCSVDelimiter data s = Panic (slice_out_of_range 5 (Z.of_nat n))
  else exists d, In d delimiters /\ detectCSVDelimiter data s = Ok d s.
Proof. exact (detectCSVDelimiter_cases data s). Qed.

(** X26.  The preview of a CSV feed of a header and one or two rows, for a parser
    without a delimiter, panics in the detection of the delimiter. *)
Theorem previewCSV_of_short_feed_panics (env : Env) (p : FeedParser) (data : string)
    (limit : Z) :
  let lines := GoStrings.Split data LF in
  let n := List.length lines in
  CSVDelimiter p = "" ->
  (2 <= n < 5)%nat ->
  delimited lines = true ->
  previewCSV env data limit p = Panic (slice_out_of_range 5 (Z.of_nat n)).
Proof.
  intros lines n Hd Hn Hdel.
  pose proof (detectCSVDelimiter_cases data p) as H. cbv zeta in H. fold lines n in H.
  rewrite Hdel, (proj2 (Nat.leb_le 2 n)), (proj2 (Nat.ltb_lt n 5)) in H by lia.
  cbn [andb] in H.
  unfold previewCSV, mbind, ST_bind, the_parser. rewrite Hd. cbn [String.eqb].
  now rewrite H.
Qed.

Lemma previewCSV_of_short_feed_panics_witness :
  previewCSV (lab "" None) (csv_lines ["title;price"; "Phone;19,99"]) 10 (csv_parser "")
  = Panic "runtime error: slice bounds out of range [:5] with capacity 3".
Proof.
  apply (previewCSV_of_short_feed_panics (lab "" None) (csv_parser "")
           (csv_lines ["title;price"; "Phone;19,99"]) 10);
    [reflexivity | vm_compute; lia | reflexivity].
Defined.

(** ** The array of products of a JSON document *)

Lemma findJSONProductsArray_object (fields : list (string * JSON)) :
  findJSONProductsArray (JObject fields)
  = List.fold_right
      (fun key rest =>
         match as_array (object_map fields !! key) with
         | Some arr => Some arr
         | None => rest
         end)
      None ["products"; "products"; "items"; "items"; "offers"; "offers"; "data"; "data";
            "results"; "results"; "SHOPITEM"; "shopitem"].
Proof.
  unfold findJSONProductsArray. cbn [List.fold_right].
  change (GoStrings.ToLower "products") with "products".
  change (GoStrings.ToLower "items") with "items".
  change (GoStrings.ToLower "offers") with "offers".
  change (GoStrings.ToLower "data") with "data".
  change (GoStrings.ToLower "results") with "results".
  change (GoStrings.ToLower "SHOPITEM") with "shopitem".
  reflexivity.
Qed.

Lemma first_array_sound (obj : RawItem) (keys : list string) (arr : list JSON) :
  List.fold_right
    (fun key rest => match as_array (obj !! key) with Some arr => Some arr | None => rest end)
    None keys = Some arr ->
  exists key, In key keys /\ obj !! key = Some (JArray arr).
Proof.
  induction keys as [|key keys IH]; [discriminate|]. cbn [List.fold_right].
  destruct (obj !! key) as [[]|] eqn:Hk; cbn [as_array];
    try (intros H; destruct (IH H) as (k & Hin & Hk'); exists k; split; [now right|exact Hk']).
  intros [= ->]. exists key. split; [now left | exact Hk].
Qed.

Lemma first_array_complete (obj : RawItem) (keys : list string) (key : string)
    (arr : list JSON) :
  In key keys -> obj !! key = Some (JArray arr) ->
  is_Some (List.fold_right
    (fun key rest => match as_array (obj !! key) with Some arr => Some arr | None => rest end)
    None keys).
Proof.
  induction keys as [|k keys IH]; [intros []|]. cbn [List.fold_right].
  intros [->|Hin] Hk.
  - rewrite Hk. cbn [as_array]. eauto.
  - destruct (as_array (obj !! k)); [eauto | now apply IH].
Qed.

(** X27.  [findJSONProductsArray] finds the document itself when it is an array,
    and for an object the array under one of the keys products, items,
    offers, data, results, SHOPITEM or shopitem; it finds one exactly when
    one of these keys holds an array, and it finds nothing in any other
    document: an array that lies deeper is not found. *)
Theorem findJSONProductsArray_finds_top_level_arrays (data : JSON) :
  (forall arr, findJSONProductsArray data = Some arr ->
     data = JArray arr
     \/ exists fields key, data = JObject fields /\ In key array_keys
                           /\ object_map fields !! key = Some (JArray arr))
  /\ (forall arr, data = JArray arr -> findJSONProductsArray data = Some arr)
  /\ (forall fields key arr,
        data = JObject fields -> In key array_keys ->
        object_map fields !! key = Some (JArray arr) ->
        is_Some (findJSONProductsArray data)).
Proof.
  split; [|split].
  - intros arr H. destruct data as [| | | |items|fields]; try discriminate H.
    + left. now injection H as ->.
    + right. rewrite findJSONProductsArray_object in H.
      apply first_array_sound in H as (key & Hin & Hk).
      exists fields, key. split; [reflexivity|]. split; [|exact Hk].
      unfold array_keys. simpl in Hin. simpl. tauto.
  - now intros arr ->.
  - intros fields key arr -> Hin Hk. rewrite findJSONProductsArray_object.
    eapply first_array_complete; [|exact Hk].
    unfold array_keys in Hin. simpl in Hin. simpl. tauto.
Qed.

(** ** Automatic mappings *)

Lemma find_unique {A} (P : A -> bool) (l l' : list A) :
  l' ≡ₚ l ->
  (forall x y, x ∈ l -> y ∈ l -> P x = true -> P y = true -> x = y) ->
  List.find P l' = List.find P l.
Proof.
  intros Hp Hu.
  destruct (List.find P l) as [x|] eqn:Hx.
  - apply List.find_some in Hx as [Hin HPx].
    destruct (List.find P l') as [y|] eqn:Hy.
    + apply List.find_some in Hy as [Hin' HPy]. f_equal.
      apply Hu; auto.
      * rewrite <- Hp. now apply list_elem_of_In.
      * now apply list_elem_of_In.
    + exfalso. pose proof (List.find_none _ _ Hy x) as Hn.
      rewrite Hn in HPx; [discriminate|].
      apply list_elem_of_In. rewrite Hp. now apply list_elem_of_In.
  - destruct (List.find P l') as [y|] eqn:Hy; [|reflexivity].
    apply List.find_some in Hy as [Hin' HPy].
    pose proof (List.find_none _ _ Hx y) as Hn.
    rewrite Hn in HPy; [discriminate|].
    apply list_elem_of_In. rewrite <- Hp. now apply list_elem_of_In.
Qed.

(** The lower-case forms of the patterns of the table, with their targets. *)
Lemma one_target_but_item_id (key : string) :
  GoStrings.ToLower key <> "item_id" -> one_target key.
Proof.
  intros Hk t1 t2 H1 H2 M1 M2.
  apply list_elem_of_In in H1, H2.
  apply List.existsb_exists in M1 as (l1 & L1 & E1), M2 as (l2 & L2 & E2).
  unfold matches_literal, GoStrings.EqualFold in E1, E2.
  apply String.eqb_eq in E1, E2.
  assert (Hall : List.forallb (fun t1 : string * list string =>
            List.forallb (fun t2 : string * list string =>
              List.forallb (fun l1 =>
                List.forallb (fun l2 =>
                  negb (String.eqb (GoStrings.ToLower l1) (GoStrings.ToLower l2))
                  || String.eqb (GoStrings.ToLower l1) "item_id"
                  || String.eqb t1.1 t2.1) t2.2) t1.2) auto_patterns) auto_patterns = true)
    by (vm_compute; reflexivity).
  rewrite List.forallb_forall in Hall. specialize (Hall _ H1).
  rewrite List.forallb_forall in Hall. specialize (Hall _ H2).
  rewrite List.forallb_forall in Hall. specialize (Hall _ L1).
  rewrite List.forallb_forall in Hall. specialize (Hall _ L2).
  rewrite E1, <- E2, String.eqb_refl in Hall. cbn [negb orb] in Hall.
  apply orb_true_iff in Hall as [Hall|Hall].
  - apply String.eqb_eq in Hall. rewrite <- E2 in Hk. congruence.
  - apply String.eqb_eq in Hall.
    assert (Hnd : NoDup auto_patterns.*1)
      by (apply (bool_decide_eq_true_1 (NoDup auto_patterns.*1)); vm_compute; reflexivity).
    assert (Hfun : forall a b, In a auto_patterns -> In b auto_patterns -> a.1 = b.1 -> a = b).
    { assert (Hb : List.forallb (fun a : string * list string =>
                List.forallb (fun b : string * list string =>
                  negb (String.eqb a.1 b.1)
                  || (String.eqb a.1 b.1
                      && bool_decide (a.2 = b.2))) auto_patterns) auto_patterns = true)
        by (vm_compute; reflexivity).
      intros a b Ha Hb' Hab.
      rewrite List.forallb_forall in Hb. specialize (Hb _ Ha).
      rewrite List.forallb_forall in Hb. specialize (Hb _ Hb').
      rewrite Hab, String.eqb_refl in Hb. cbn [negb orb andb] in Hb.
      apply bool_decide_eq_true_1 in Hb. destruct a, b; simpl in *; congruence. }
    now apply Hfun.
Qed.

Lemma auto_mappings_from_order (order1 order2 : nat -> list (string * list string))
    (fields : list string) (i : nat) :
  (forall i, order1 i ≡ₚ auto_patterns) ->
  (forall i, order2 i ≡ₚ auto_patterns) ->
  Forall (fun field => GoStrings.ToLower field <> "item_id") fields ->
  auto_mappings_from order1 i fields = auto_mappings_from order2 i fields.
Proof.
  intros H1 H2 Hf. revert i; induction Hf as [|field rest Hfield _ IH]; intros i;
    [reflexivity|].
  cbn [auto_mappings_from].
  assert (Ht : auto_target (order1 i) field = auto_target (order2 i) field).
  { unfold auto_target. f_equal.
    assert (Hone : one_target (GoStrings.ToLower field)).
    { apply one_target_but_item_id.
      assert (Hidem : GoStrings.ToLower (GoStrings.ToLower field) = GoStrings.ToLower field).
      { clear. induction field as [|c s IHs]; [reflexivity|]. cbn [GoStrings.ToLower
          GoStrings.map_bytes]. unfold GoStrings.ToLower in IHs. rewrite IHs. f_equal.
        destruct (GoStrings.is_upper c) eqn:Hc; [|now rewrite Hc].
        unfold GoStrings.is_upper, GoStrings.code, GoStrings.byte_of in *.
        apply andb_true_iff in Hc as [Ha Hb]. apply Nat.leb_le in Ha, Hb.
        rewrite nat_ascii_embedding by lia.
        replace ((65 <=? nat_of_ascii c + 32)%nat && (nat_of_ascii c + 32 <=? 90)%nat)
          with false; [reflexivity|].
        symmetry. apply andb_false_iff. right. apply Nat.leb_gt. lia. }
      now rewrite Hidem. }
    rewrite (find_unique _ auto_patterns (order1 i) (H1 i) Hone).
    now rewrite (find_unique _ auto_patterns (order2 i) (H2 i) Hone). }
  rewrite Ht. now rewrite (IH (S i)).
Qed.

(** X28.  The mappings [AutoDetectMappings] proposes for fields of ASCII names do
    not depend on the order in which the ranges over its map of patterns
    visit the targets, as long as no field is named item_id in whatever
    case: that name alone is matched by the patterns of two targets, ean and
    sku. *)
Theorem AutoDetectMappings_order_matters_for_item_id_only
    (order1 order2 : nat -> list (string * list string)) (fields : list string) :
  (forall i, order1 i ≡ₚ auto_patterns) ->
  (forall i, order2 i ≡ₚ auto_patterns) ->
  Forall (fun field => bytes_all is_ascii_byte field = true) fields ->
  Forall (fun field => GoStrings.ToLower field <> "item_id") fields ->
  AutoDetectMappings order1 fields = AutoDetectMappings order2 fields.
Proof.
  intros H1 H2 _ Hf. now apply auto_mappings_from_order.
Qed.

Lemma AutoDetectMappings_order_matters_for_item_id_only_witness :
  AutoDetectMappings (fun _ => auto_patterns) ["PRODUCTNAME"; "EAN"; "weight"; "Price_VAT"]
  = AutoDetectMappings (fun _ => rev auto_patterns) ["PRODUCTNAME"; "EAN"; "weight"; "Price_VAT"]
  /\ am_TargetField <$> AutoDetectMappings (fun _ => auto_patterns)
                          ["PRODUCTNAME"; "EAN"; "weight"; "Price_VAT"]
     = ["title"; "ean"; "price"]
  /\ am_TargetField <$> AutoDetectMappings (fun _ => auto_patterns) ["ITEM_ID"] = ["ean"]
  /\ am_TargetField <$> AutoDetectMappings (fun _ => rev auto_patterns) ["ITEM_ID"] = ["sku"].
Proof.
  split; [|split; [|split]; vm_compute; reflexivity].
  apply (AutoDetectMappings_order_matters_for_item_id_only
           (fun _ => auto_patterns) (fun _ => rev auto_patterns)).
  - reflexivity.
  - intros _. symmetry. apply Permutation_rev.
  - repeat constructor.
  - repeat constructor; discriminate.
Defined.
